(** * SQLiteTool: the fluent builders and the record access facade

    A shallow embedding of [src/QueryBuilder.ts], [src/TableBuilder.ts] and
    the parts of [src/SQLiteTool.ts] that build queries, paginate and run
    transactions, with the properties the specification states about them.

    Conventions of the embedding:
    - JavaScript strings are [string]; [Array.prototype.join] is [join];
      a template literal is a concatenation with [+:+].
    - a JavaScript array that can be reached from two places lives in a
      store and is named by its address; arrays that never leave their
      object are plain lists.
    - a method that may throw returns an [Outcome] next to the state it
      leaves behind.
    - a JavaScript number is an integer.  What depends on the digits or
      on the exact value of a number is stated for the safe integers,
      those below [2 ^ 53] in absolute value; the one division, in
      [findPaginated], is the division of binary64 numbers. *)

From Stdlib Require Import Ascii String ZArith QArith Qround Lia Sorted.
From Stdlib Require Floats.
From stdpp Require Import base list strings pretty.

Local Open Scope string_scope.
Local Open Scope list_scope.

(** ** Strings *)

Module Str.

(** [Array.prototype.join(sep)]. *)
Definition join (sep : string) (parts : list string) : string :=
  String.concat sep parts.

(** A string is truthy in a condition when it is not empty. *)
Definition truthy (s : string) : bool :=
  match s with
  | EmptyString => false
  | String _ _ => true
  end.

(** Number of occurrences of the character [c] in [s]. *)
Fixpoint count_char (c : ascii) (s : string) : nat :=
  match s with
  | EmptyString => 0
  | String a rest =>
      (if Ascii.eqb a c then 1 else 0) + count_char c rest
  end.

(** [String.prototype.startsWith]. *)
Definition startsWith (s pre : string) : bool := String.prefix pre s.

(** [String.prototype.includes]: [sub] occurs somewhere in [s]. *)
Fixpoint includes (s sub : string) : bool :=
  String.prefix sub s ||
  match s with
  | EmptyString => false
  | String _ rest => includes rest sub
  end.

(** The pieces of [s] between the occurrences of the character [c], as
    [String.prototype.split] with a one-character separator returns
    them: [cur] is the piece being read, in reverse. *)
Fixpoint split_go (c : ascii) (cur : string) (s : string) : list string :=
  match s with
  | EmptyString => [String.rev cur]
  | String a rest =>
      if Ascii.eqb a c
      then String.rev cur :: split_go c EmptyString rest
      else split_go c (String a cur) rest
  end.

Definition split (c : ascii) (s : string) : list string :=
  split_go c EmptyString s.

(** [s.replace(/'/g, "''")]: every single quote is doubled. *)
Fixpoint double_quotes (s : string) : string :=
  match s with
  | EmptyString => EmptyString
  | String a rest =>
      if Ascii.eqb a "'"%char
      then String a (String a (double_quotes rest))
      else String a (double_quotes rest)
  end.

End Str.

(** ** JavaScript values bound to placeholders *)

(** The values the builders receive as [any], as far as the embedding
    holds them.  A number is an integer (row counts, page sizes, ages);
    a [Date] is a valid date, carried by the text [toISOString()] gives
    for it; every other object is one with a [toString()], carried by
    the text that gives.  Values of the other kinds ([bigint], [symbol],
    functions), a [Date] that holds no time and an object without
    [toString] have no image here. *)
Inductive JsValue : Type :=
| JsNull
| JsUndefined
| JsBool (b : bool)
| JsNumber (n : Z)
| JsString (s : string)
| JsDate (iso : string)
| JsObject (text : string).

(** [`${n}`] and [n.toString()] for a number: its decimal digits, which
    is what JavaScript writes for the integers of [safe_integer]. *)
Definition number_text (n : Z) : string := pretty n.

(** [Number.isSafeInteger(n)]: the integers a binary64 number holds
    together with their neighbours.  Sums, differences and products
    that stay among them are exact, and [`${n}`] writes all their
    digits; beyond them JavaScript rounds, and writes the shortest
    digits that read back, with an exponent from [1e21] on.  The
    embedding of numbers as integers is the program on these; a
    property that depends on the value or on the digits of a number
    assumes it of that number. *)
Definition safe_integer (n : Z) : Prop := (- 2 ^ 53 < n < 2 ^ 53)%Z.

(** A value the embedding holds as the program does: its number, when
    it is one, is a safe integer. *)
Definition exact_value (v : JsValue) : Prop :=
  match v with
  | JsNumber n => safe_integer n
  | _ => True
  end.

(** An optional number that is a safe integer when it is given; [NaN]
    is none. *)
Definition safe_if_given (n : option Z) : Prop :=
  match n with
  | Some z => safe_integer z
  | None => True
  end.

(** ** The store of value arrays *)

(** [_whereValues] is handed to callers through [toSQL]; its identity
    matters there, so arrays of values live in a store, addressed by their
    position in it.  Allocation appends. *)
Abbreviation loc := nat (only parsing).
Abbreviation Heap := (list (list JsValue)) (only parsing).

Definition alloc (vs : list JsValue) (h : Heap) : loc * Heap :=
  (length h, h ++ [vs]).

(** The elements of the array at [l] (an unallocated address reads as
    empty; the builder never holds one). *)
Definition read (l : loc) (h : Heap) : list JsValue :=
  default [] (h !! l).

(** [arr.push(...vs)] on the array at [l]. *)
Definition push (l : loc) (vs : list JsValue) (h : Heap) : Heap :=
  alter (fun a => a ++ vs) l h.

Arguments read : simpl never.
Arguments push : simpl never.

(** ** QueryBuilder *)

Module QueryBuilder.

Record t : Type := mk {
  _tableName : string;
  _selectColumns : list string;
  _whereConditions : list string;
  _whereValues : loc;
  _orderByClause : string;
  _groupByClause : string;
  _havingClause : string;
  _limitClause : string;
  _offsetClause : string;
  _distinct : bool;
  _joins : list string
}.

(** [new QueryBuilder(tableName)]: the field initialisers allocate the
    array of values. *)
Definition new (tableName : string) (h : Heap) : t * Heap :=
  let (l, h') := alloc [] h in
  ({| _tableName := tableName;
      _selectColumns := ["*"];
      _whereConditions := [];
      _whereValues := l;
      _orderByClause := EmptyString;
      _groupByClause := EmptyString;
      _havingClause := EmptyString;
      _limitClause := EmptyString;
      _offsetClause := EmptyString;
      _distinct := false;
      _joins := [] |}, h').

(** Assignments to one field of [this]. *)
Definition set_selectColumns (x : list string) (q : t) : t :=
  {| _tableName := _tableName q;
     _selectColumns := x;
     _whereConditions := _whereConditions q;
     _whereValues := _whereValues q;
     _orderByClause := _orderByClause q;
     _groupByClause := _groupByClause q;
     _havingClause := _havingClause q;
     _limitClause := _limitClause q;
     _offsetClause := _offsetClause q;
     _distinct := _distinct q;
     _joins := _joins q |}.

Definition set_whereConditions (x : list string) (q : t) : t :=
  {| _tableName := _tableName q;
     _selectColumns := _selectColumns q;
     _whereConditions := x;
     _whereValues := _whereValues q;
     _orderByClause := _orderByClause q;
     _groupByClause := _groupByClause q;
     _havingClause := _havingClause q;
     _limitClause := _limitClause q;
     _offsetClause := _offsetClause q;
     _distinct := _distinct q;
     _joins := _joins q |}.

Definition set_orderByClause (x : string) (q : t) : t :=
  {| _tableName := _tableName q;
     _selectColumns := _selectColumns q;
     _whereConditions := _whereConditions q;
     _whereValues := _whereValues q;
     _orderByClause := x;
     _groupByClause := _groupByClause q;
     _havingClause := _havingClause q;
     _limitClause := _limitClause q;
     _offsetClause := _offsetClause q;
     _distinct := _distinct q;
     _joins := _joins q |}.

Definition set_groupByClause (x : string) (q : t) : t :=
  {| _tableName := _tableName q;
     _selectColumns := _selectColumns q;
     _whereConditions := _whereConditions q;
     _whereValues := _whereValues q;
     _orderByClause := _orderByClause q;
     _groupByClause := x;
     _havingClause := _havingClause q;
     _limitClause := _limitClause q;
     _offsetClause := _offsetClause q;
     _distinct := _distinct q;
     _joins := _joins q |}.

Definition set_havingClause (x : string) (q : t) : t :=
  {| _tableName := _tableName q;
     _selectColumns := _selectColumns q;
     _whereConditions := _whereConditions q;
     _whereValues := _whereValues q;
     _orderByClause := _orderByClause q;
     _groupByClause := _groupByClause q;
     _havingClause := x;
     _limitClause := _limitClause q;
     _offsetClause := _offsetClause q;
     _distinct := _distinct q;
     _joins := _joins q |}.

Definition set_limitClause (x : string) (q : t) : t :=
  {| _tableName := _tableName q;
     _selectColumns := _selectColumns q;
     _whereConditions := _whereConditions q;
     _whereValues := _whereValues q;
     _orderByClause := _orderByClause q;
     _groupByClause := _groupByClause q;
     _havingClause := _havingClause q;
     _limitClause := x;
     _offsetClause := _offsetClause q;
     _distinct := _distinct q;
     _joins := _joins q |}.

Definition set_offsetClause (x : string) (q : t) : t :=
  {| _tableName := _tableName q;
     _selectColumns := _selectColumns q;
     _whereConditions := _whereConditions q;
     _whereValues := _whereValues q;
     _orderByClause := _orderByClause q;
     _groupByClause := _groupByClause q;
     _havingClause := _havingClause q;
     _limitClause := _limitClause q;
     _offsetClause := x;
     _distinct := _distinct q;
     _joins := _joins q |}.

Definition set_distinct (x : bool) (q : t) : t :=
  {| _tableName := _tableName q;
     _selectColumns := _selectColumns q;
     _whereConditions := _whereConditions q;
     _whereValues := _whereValues q;
     _orderByClause := _orderByClause q;
     _groupByClause := _groupByClause q;
     _havingClause := _havingClause q;
     _limitClause := _limitClause q;
     _offsetClause := _offsetClause q;
     _distinct := x;
     _joins := _joins q |}.

Definition set_joins (x : list string) (q : t) : t :=
  {| _tableName := _tableName q;
     _selectColumns := _selectColumns q;
     _whereConditions := _whereConditions q;
     _whereValues := _whereValues q;
     _orderByClause := _orderByClause q;
     _groupByClause := _groupByClause q;
     _havingClause := _havingClause q;
     _limitClause := _limitClause q;
     _offsetClause := _offsetClause q;
     _distinct := _distinct q;
     _joins := x |}.

(** Every method returns [this]; a call is a transformer of the builder
    and of the store. *)
Definition Call : Type := t -> Heap -> t * Heap.

(** [this._whereConditions.push(c)]. *)
Definition push_condition (c : string) (q : t) : t :=
  set_whereConditions (_whereConditions q ++ [c]) q.

Definition where_ (column operator : string) (value : JsValue) : Call :=
  fun q h =>
    (push_condition (column +:+ " " +:+ operator +:+ " ?") q,
     push (_whereValues q) [value] h).

Definition whereRaw (condition : string) (values : list JsValue) : Call :=
  fun q h =>
    (push_condition condition q, push (_whereValues q) values h).

(** [values.map(() => '?').join(', ')]. *)
Definition placeholders (values : list JsValue) : string :=
  Str.join ", " (map (fun _ => "?") values).

Definition whereIn (column : string) (values : list JsValue) : Call :=
  fun q h =>
    if Nat.eqb (length values) 0
    then (push_condition "1 = 0" q, h)
    else (push_condition (column +:+ " IN (" +:+ placeholders values +:+ ")") q,
          push (_whereValues q) values h).

Definition whereNotIn (column : string) (values : list JsValue) : Call :=
  fun q h =>
    if Nat.eqb (length values) 0
    then (q, h)
    else (push_condition (column +:+ " NOT IN (" +:+ placeholders values +:+ ")") q,
          push (_whereValues q) values h).

Definition whereNull (column : string) : Call :=
  fun q h => (push_condition (column +:+ " IS NULL") q, h).

Definition whereNotNull (column : string) : Call :=
  fun q h => (push_condition (column +:+ " IS NOT NULL") q, h).

Definition whereBetween (column : string) (min max : JsValue) : Call :=
  fun q h =>
    (push_condition (column +:+ " BETWEEN ? AND ?") q,
     push (_whereValues q) [min; max] h).

Definition whereLike (column pattern : string) : Call :=
  fun q h =>
    (push_condition (column +:+ " LIKE ?") q,
     push (_whereValues q) [JsString pattern] h).

Definition whereNotLike (column pattern : string) : Call :=
  fun q h =>
    (push_condition (column +:+ " NOT LIKE ?") q,
     push (_whereValues q) [JsString pattern] h).

(** [pop()] takes the last condition away; the new text is pushed in its
    place. *)
Definition orWhere (column operator : string) (value : JsValue) : Call :=
  fun q h =>
    let q' :=
      if Nat.ltb 0 (length (_whereConditions q))
      then
        let lastCondition := List.last (_whereConditions q) EmptyString in
        let popped := set_whereConditions (removelast (_whereConditions q)) q in
        push_condition
          (lastCondition +:+ " OR " +:+ column +:+ " " +:+ operator +:+ " ?")
          popped
      else push_condition (column +:+ " " +:+ operator +:+ " ?") q in
    (q', push (_whereValues q) [value] h).

(** [join(table, first, operator, second, type = 'INNER')]. *)
Definition join (table first operator second : string)
    (type : option string) : Call :=
  fun q h =>
    (set_joins
       (_joins q ++
        [default "INNER" type +:+ " JOIN " +:+ table +:+ " ON " +:+
         first +:+ " " +:+ operator +:+ " " +:+ second]) q, h).

Definition leftJoin (table first operator second : string) : Call :=
  join table first operator second (Some "LEFT").

Definition rightJoin (table first operator second : string) : Call :=
  join table first operator second (Some "RIGHT").

Definition select (columns : list string) : Call :=
  fun q h => (set_selectColumns columns q, h).

Definition distinct : Call :=
  fun q h => (set_distinct true q, h).

(** [orderBy(column, direction = 'ASC')]: the direction is ['ASC'] or
    ['DESC']; an absent one takes the default. *)
Definition orderBy (column : string) (direction : option string) : Call :=
  fun q h =>
    (set_orderByClause
       ("ORDER BY " +:+ column +:+ " " +:+ default "ASC" direction) q, h).

(** An argument of type [string | string[]]. *)
Inductive Columns : Type :=
| OneColumn (c : string)
| ManyColumns (cs : list string).

(** [Array.isArray(columns) ? columns.join(', ') : columns]. *)
Definition columnList (columns : Columns) : string :=
  match columns with
  | ManyColumns cs => Str.join ", " cs
  | OneColumn c => c
  end.

Definition groupBy (columns : Columns) : Call :=
  fun q h => (set_groupByClause ("GROUP BY " +:+ columnList columns) q, h).

Definition having (condition : string) (values : list JsValue) : Call :=
  fun q h =>
    (set_havingClause ("HAVING " +:+ condition) q,
     push (_whereValues q) values h).

Definition limit (count : Z) : Call :=
  fun q h => (set_limitClause ("LIMIT " +:+ number_text count) q, h).

Definition offset (count : Z) : Call :=
  fun q h => (set_offsetClause ("OFFSET " +:+ number_text count) q, h).

(** One call after another on the same builder: [b.f(..).g(..)]. *)
Definition andThen (f g : Call) : Call :=
  fun q h => let (q', h') := f q h in g q' h'.

Definition paginate (page perPage : Z) : Call :=
  let offset_ := ((page - 1) * perPage)%Z in
  andThen (limit perPage) (offset offset_).

(** What [toSQL] and [toCountSQL] return: the text, and the address of
    the array of values. *)
Record Rendered : Type := { sql : string; values : loc }.

(** [sql += ' ' + clause] under [if (clause)]. *)
Definition add_clause (clause : string) (sql : string) : string :=
  if Str.truthy clause then sql +:+ " " +:+ clause else sql.

(** The part both renderers share: joins, conditions, grouping. *)
Definition add_joins (q : t) (sql : string) : string :=
  if Nat.ltb 0 (length (_joins q))
  then sql +:+ " " +:+ Str.join " " (_joins q)
  else sql.

Definition add_where (q : t) (sql : string) : string :=
  if Nat.ltb 0 (length (_whereConditions q))
  then sql +:+ " WHERE " +:+ Str.join " AND " (_whereConditions q)
  else sql.

(** The text [toSQL] builds, statement by statement. *)
Definition toSQL_text (q : t) : string :=
  let sql := "SELECT " in
  let sql := if _distinct q then sql +:+ "DISTINCT " else sql in
  let sql := sql +:+ Str.join ", " (_selectColumns q) in
  let sql := sql +:+ " FROM " +:+ _tableName q in
  let sql := add_joins q sql in
  let sql := add_where q sql in
  let sql := add_clause (_groupByClause q) sql in
  let sql := add_clause (_havingClause q) sql in
  let sql := add_clause (_orderByClause q) sql in
  let sql := add_clause (_limitClause q) sql in
  let sql := add_clause (_offsetClause q) sql in
  sql.

(** [values: [...this._whereValues]] allocates a new array holding the
    elements of the builder's own. *)
Definition toSQL (q : t) (h : Heap) : Rendered * Heap :=
  let (l, h') := alloc (read (_whereValues q) h) h in
  ({| sql := toSQL_text q; values := l |}, h').

Definition toCountSQL_text (q : t) : string :=
  let sql := "SELECT COUNT(*) as count FROM " +:+ _tableName q in
  let sql := add_joins q sql in
  let sql := add_where q sql in
  let sql := add_clause (_groupByClause q) sql in
  let sql := add_clause (_havingClause q) sql in
  sql.

Definition toCountSQL (q : t) (h : Heap) : Rendered * Heap :=
  let (l, h') := alloc (read (_whereValues q) h) h in
  ({| sql := toCountSQL_text q; values := l |}, h').

(** A chain of calls [b.c1(..).c2(..)...]. *)
Fixpoint calls (cs : list Call) : Call :=
  match cs with
  | [] => fun q h => (q, h)
  | c :: rest => andThen c (calls rest)
  end.

(** The arguments of one [where] call. *)
Record WhereCall : Type :=
  { w_column : string; w_operator : string; w_value : JsValue }.

Definition where_call (c : WhereCall) : Call :=
  where_ (w_column c) (w_operator c) (w_value c).

(** The calls of the fluent interface, as data. *)
Inductive Op : Type :=
| Select (columns : list string)
| Distinct
| Where (column operator : string) (value : JsValue)
| WhereRaw (condition : string) (values : list JsValue)
| WhereIn (column : string) (values : list JsValue)
| WhereNotIn (column : string) (values : list JsValue)
| WhereNull (column : string)
| WhereNotNull (column : string)
| WhereBetween (column : string) (min max : JsValue)
| WhereLike (column pattern : string)
| WhereNotLike (column pattern : string)
| OrWhere (column operator : string) (value : JsValue)
| Join (table first operator second : string) (type : option string)
| OrderBy (column : string) (direction : option string)
| GroupBy (columns : Columns)
| Having (condition : string) (values : list JsValue)
| Limit (count : Z)
| Offset (count : Z)
| Paginate (page perPage : Z).

Definition call (o : Op) : Call :=
  match o with
  | Select cs => select cs
  | Distinct => distinct
  | Where c o v => where_ c o v
  | WhereRaw c vs => whereRaw c vs
  | WhereIn c vs => whereIn c vs
  | WhereNotIn c vs => whereNotIn c vs
  | WhereNull c => whereNull c
  | WhereNotNull c => whereNotNull c
  | WhereBetween c a b => whereBetween c a b
  | WhereLike c p => whereLike c p
  | WhereNotLike c p => whereNotLike c p
  | OrWhere c o v => orWhere c o v
  | Join t f o s ty => join t f o s ty
  | OrderBy c d => orderBy c d
  | GroupBy cs => groupBy cs
  | Having c vs => having c vs
  | Limit n => limit n
  | Offset n => offset n
  | Paginate p pp => paginate p pp
  end.

(** [new QueryBuilder(tableName)] followed by the calls [cs] and by
    [toSQL()]: the text and the elements of the array returned. *)
Definition rendered_after (tableName : string) (cs : list Call) (h : Heap)
    : string * list JsValue :=
  let (q0, h0) := new tableName h in
  let (q, h1) := calls cs q0 h0 in
  let (r, h2) := toSQL q h1 in
  (sql r, read (values r) h2).

(** The builder's array of values is one of the store. *)
Definition allocated (q : t) (h : Heap) : Prop :=
  _whereValues q < length h.

(** How the engine pairs placeholders and values: the k-th [?] of the
    text takes the k-th value, written by [show]. *)
Fixpoint bind_values (show : JsValue -> string) (text : string)
    (vs : list JsValue) : string :=
  match text with
  | EmptyString => EmptyString
  | String a rest =>
      if Ascii.eqb a "?"%char
      then match vs with
           | v :: vs' => show v +:+ bind_values show rest vs'
           | [] => String a (bind_values show rest [])
           end
      else String a (bind_values show rest vs)
  end.

(** The predicate a [where] call pushes, and the same with the value
    written in place of the placeholder. *)
Definition predicate (c : WhereCall) : string :=
  w_column c +:+ " " +:+ w_operator c +:+ " ?".

Definition bound_predicate (show : JsValue -> string) (c : WhereCall)
    : string :=
  w_column c +:+ " " +:+ w_operator c +:+ " " +:+ show (w_value c).

Definition free_of_placeholder (s : string) : Prop :=
  Str.count_char "?" s = 0.

Definition free_call (c : WhereCall) : Prop :=
  free_of_placeholder (w_column c) /\ free_of_placeholder (w_operator c).

(** The parts of a rendered text: each is empty when its clause is
    absent and starts with a space otherwise. *)
Definition joins_part (js : list string) : string :=
  match js with
  | [] => EmptyString
  | _ :: _ => " " +:+ Str.join " " js
  end.

Definition clause_part (clause : string) : string :=
  match clause with
  | EmptyString => EmptyString
  | String _ _ => " " +:+ clause
  end.

Definition distinct_part (d : bool) : string :=
  if d then "DISTINCT " else EmptyString.

(** Any change made to the array at [l] by who holds it: its elements
    become [vs]. *)
Definition mutate (l : loc) (vs : list JsValue) (h : Heap) : Heap :=
  <[l := vs]> h.

(** What it is for a renderer to return a copy of the builder's array:
    the array returned is a new one of the store, it holds the elements
    of the builder's array, and the builder's array keeps its elements,
    also when the array returned is changed afterwards. *)
Definition returns_copy (render : t -> Heap -> Rendered * Heap)
    (q : t) (h : Heap) : Prop :=
  values (fst (render q h)) <> _whereValues q
  /\ length h <= values (fst (render q h))
  /\ read (values (fst (render q h))) (snd (render q h))
     = read (_whereValues q) h
  /\ read (_whereValues q) (snd (render q h)) = read (_whereValues q) h
  /\ forall vs,
       read (_whereValues q)
         (mutate (values (fst (render q h))) vs (snd (render q h)))
       = read (_whereValues q) h.

(** The [WHERE] part of a text built from the predicates [ps]. *)
Definition where_part (ps : list string) : string :=
  match ps with
  | [] => EmptyString
  | _ :: _ => " WHERE " +:+ Str.join " AND " ps
  end.

(** A text with neither a [LIMIT] nor an [OFFSET] part: it ends with
    the [ORDER BY] part. *)
Definition text_without_paging (q : t) : string :=
  "SELECT " +:+ distinct_part (_distinct q) +:+
  Str.join ", " (_selectColumns q) +:+ " FROM " +:+ _tableName q +:+
  joins_part (_joins q) +:+ where_part (_whereConditions q) +:+
  clause_part (_groupByClause q) +:+ clause_part (_havingClause q) +:+
  clause_part (_orderByClause q).

End QueryBuilder.

(** ** Methods that may throw *)

(** What a [throw] carries: an [Error] made by this library, or the
    [TypeError] of a property read on [null]; the engine's and the
    callbacks' errors are [Error]s too. *)
Inductive Exn : Type :=
| Error (message : string)
| TypeError (message : string).

Inductive Outcome (A : Type) : Type :=
| Returned (a : A)
| Thrown (e : Exn).

Arguments Returned {A} a.
Arguments Thrown {A} e.

(** A computation on a state [S]: how it ends and the state it leaves. *)
Definition M (S A : Type) : Type := S -> Outcome A * S.

Definition ret {S A} (a : A) : M S A := fun s => (Returned a, s).

Definition throw {S A} (e : Exn) : M S A := fun s => (Thrown e, s).

Definition bind {S A B} (c : M S A) (k : A -> M S B) : M S B :=
  fun s =>
    match c s with
    | (Returned a, s') => k a s'
    | (Thrown e, s') => (Thrown e, s')
    end.

(** [try { body } catch (error) { handler }]. *)
Definition try_catch {S A} (body : M S A) (handler : Exn -> M S A) : M S A :=
  fun s =>
    match body s with
    | (Returned a, s') => (Returned a, s')
    | (Thrown e, s') => handler e s'
    end.

Notation "'let*' x ':=' c 'in' k" := (bind c (fun x => k))
  (at level 10, x name, c at level 100, k at level 200).
Notation "c ;;; k" := (bind c (fun _ => k))
  (at level 100, k at level 200, right associativity).

(** ** TableBuilder *)

Module TableBuilder.

Record ColumnBuilder : Type := {
  name : string;
  type : string;
  modifiers : list string
}.

(** [_currentColumn] refers to an object that [_columns] holds as well:
    a modifier pushed through the one is seen through the other.  The
    reference is the position of the object in [_columns], which only
    ever grows at its end. *)
Record t : Type := mk {
  _tableName : string;
  _columns : list ColumnBuilder;
  _constraints : list string;
  _currentColumn : option nat
}.

Record TableBuilderResult : Type := {
  columns : list string;
  constraints : list string
}.

Definition new (tableName : string) : t :=
  {| _tableName := tableName;
     _columns := [];
     _constraints := [];
     _currentColumn := None |}.

Definition Method : Type := M t unit.

Definition no_column_selected : Exn :=
  Error "No column selected. Call a column type method first.".

(** [_escapeValue], on the values the embedding holds: it returns a
    text for each of them.  ([toISOString] throws on a [Date] that holds
    no time, and the last line throws on an object without [toString];
    the embedding holds neither.) *)
Definition _escapeValue (value : JsValue) : string :=
  match value with
  | JsNull | JsUndefined => "NULL"
  | JsString s =>
      if String.eqb s "CURRENT_TIMESTAMP" then s
      else "'" +:+ Str.double_quotes s +:+ "'"
  | JsBool b => if b then "1" else "0"
  | JsDate iso => "'" +:+ iso +:+ "'"
  | JsNumber n => number_text n
  | JsObject text => text
  end.

(** [this._currentColumn = {...}; this._columns.push(this._currentColumn)]. *)
Definition declare (c : ColumnBuilder) : Method :=
  fun s =>
    (Returned tt,
     {| _tableName := _tableName s;
        _columns := _columns s ++ [c];
        _constraints := _constraints s;
        _currentColumn := Some (length (_columns s)) |}).

Definition push_modifier (m : string) (c : ColumnBuilder) : ColumnBuilder :=
  {| name := name c; type := type c; modifiers := modifiers c ++ [m] |}.

(** The body every modifier method has: the guard, then
    [this._currentColumn.modifiers.push(m)]. *)
Definition modifier (m : string) : Method :=
  fun s =>
    match _currentColumn s with
    | None => (Thrown no_column_selected, s)
    | Some i =>
        (Returned tt,
         {| _tableName := _tableName s;
            _columns := alter (push_modifier m) i (_columns s);
            _constraints := _constraints s;
            _currentColumn := _currentColumn s |})
    end.

Definition primaryKey : Method := modifier "PRIMARY KEY".
Definition autoIncrement : Method := modifier "AUTOINCREMENT".
Definition notNull : Method := modifier "NOT NULL".
Definition unique : Method := modifier "UNIQUE".

(** In [default] and the two after it the guard comes first, the text of
    the modifier second. *)
Definition default_ (value : JsValue) : Method :=
  modifier ("DEFAULT " +:+ _escapeValue value).
Definition check (expression : string) : Method :=
  modifier ("CHECK (" +:+ expression +:+ ")").
Definition collate (collation : string) : Method :=
  modifier ("COLLATE " +:+ collation).

Definition plain (n ty : string) : ColumnBuilder :=
  {| name := n; type := ty; modifiers := [] |}.

(** [id(name = 'id')]. *)
Definition id (n : option string) : Method :=
  declare {| name := default "id" n;
             type := "INTEGER";
             modifiers := ["PRIMARY KEY"; "AUTOINCREMENT"] |}.

(** [string(name, length?)]: a length counts when it is given and is
    not zero (the numbers here are integers; [NaN], which does not
    count either, is none of them). *)
Definition string_ (n : string) (len : option Z) : Method :=
  declare
    (plain n
       match len with
       | Some l => if (l =? 0)%Z then "TEXT"
                   else "TEXT(" +:+ number_text l +:+ ")"
       | None => "TEXT"
       end).

Definition text (n : string) : Method := string_ n None.
Definition integer (n : string) : Method := declare (plain n "INTEGER").
Definition real (n : string) : Method := declare (plain n "REAL").
Definition boolean (n : string) : Method := declare (plain n "INTEGER").
Definition blob (n : string) : Method := declare (plain n "BLOB").
Definition date (n : string) : Method :=
  declare (plain n "TEXT") ;;; default_ (JsString "CURRENT_TIMESTAMP").
Definition timestamp (n : string) : Method := declare (plain n "INTEGER").
Definition numeric (n : string) : Method := declare (plain n "NUMERIC").
Definition json (n : string) : Method := declare (plain n "TEXT").

Definition set_constraints (cs : list string) (s : t) : t :=
  {| _tableName := _tableName s;
     _columns := _columns s;
     _constraints := cs;
     _currentColumn := _currentColumn s |}.

Definition push_constraint (c : string) : Method :=
  fun s => (Returned tt, set_constraints (_constraints s ++ [c]) s).

Definition foreignKey (columnName : string) : Method :=
  push_constraint ("FOREIGN KEY (" +:+ columnName +:+ ")").

(** [this._constraints[this._constraints.length - 1]]: [undefined] on
    an empty array, where the index is -1. *)
Definition lastConstraint (s : t) : option string :=
  match length (_constraints s) with
  | 0 => None
  | S i => _constraints s !! i
  end.

(** [this._constraints[this._constraints.length - 1] = c]; it is only
    reached with an array that is not empty. *)
Definition set_lastConstraint (c : string) (s : t) : t :=
  set_constraints (<[length (_constraints s) - 1 := c]> (_constraints s)) s.

(** [`${x}`] for an element of a destructured array that may be
    missing. *)
Definition part_text (parts : list string) (i : nat) : string :=
  default "undefined" (parts !! i).

Definition references (tableColumn : string) : Method :=
  fun s =>
    let parts := Str.split "." tableColumn in
    let table := part_text parts 0 in
    let column := part_text parts 1 in
    match lastConstraint s with
    | Some lc =>
        if Str.truthy lc && Str.startsWith lc "FOREIGN KEY"
        then (Returned tt,
              set_lastConstraint
                (lc +:+ " REFERENCES " +:+ table +:+ "(" +:+ column +:+ ")") s)
        else (Returned tt, s)
    | None => (Returned tt, s)
    end.

(** [onDelete] and [onUpdate] differ in one word. *)
Definition on_action (event action : string) : Method :=
  fun s =>
    match lastConstraint s with
    | Some lc =>
        if Str.truthy lc && Str.includes lc "REFERENCES"
        then (Returned tt,
              set_lastConstraint
                (lc +:+ " ON " +:+ event +:+ " " +:+ action) s)
        else (Returned tt, s)
    | None => (Returned tt, s)
    end.

Definition onDelete (action : string) : Method := on_action "DELETE" action.
Definition onUpdate (action : string) : Method := on_action "UPDATE" action.

Definition primary (cols : QueryBuilder.Columns) : Method :=
  push_constraint ("PRIMARY KEY (" +:+ QueryBuilder.columnList cols +:+ ")").

Definition uniqueConstraint (cols : QueryBuilder.Columns) : Method :=
  push_constraint ("UNIQUE (" +:+ QueryBuilder.columnList cols +:+ ")").

Definition checkConstraint (expression : string) : Method :=
  push_constraint ("CHECK (" +:+ expression +:+ ")").

(** The callback of [this._columns.map] in [build]. *)
Definition definition (col : ColumnBuilder) : string :=
  let definition := name col +:+ " " +:+ type col in
  if Nat.ltb 0 (length (modifiers col))
  then definition +:+ " " +:+ Str.join " " (modifiers col)
  else definition.

Definition build : M t TableBuilderResult :=
  fun s =>
    (Returned {| columns := map definition (_columns s);
                 constraints := _constraints s |}, s).

(** The modifier calls, as data. *)
Inductive Modifier : Type :=
| PrimaryKey
| AutoIncrement
| NotNull
| Unique
| Default (value : JsValue)
| Check (expression : string)
| Collate (collation : string).

Definition call_modifier (m : Modifier) : Method :=
  match m with
  | PrimaryKey => primaryKey
  | AutoIncrement => autoIncrement
  | NotNull => notNull
  | Unique => unique
  | Default v => default_ v
  | Check e => check e
  | Collate c => collate c
  end.

(** The text a modifier call contributes. *)
Definition fragment (m : Modifier) : string :=
  match m with
  | PrimaryKey => "PRIMARY KEY"
  | AutoIncrement => "AUTOINCREMENT"
  | NotNull => "NOT NULL"
  | Unique => "UNIQUE"
  | Default v => "DEFAULT " +:+ _escapeValue v
  | Check e => "CHECK (" +:+ e +:+ ")"
  | Collate c => "COLLATE " +:+ c
  end.

(** A chain [b.m1().m2()...]: it stops at the first call that throws. *)
Fixpoint chain (ms : list Method) : Method :=
  match ms with
  | [] => ret tt
  | m :: rest => m ;;; chain rest
  end.

(** The calls that add or amend a table constraint, as data. *)
Inductive ConstraintCall : Type :=
| ForeignKey (columnName : string)
| References (tableColumn : string)
| OnDelete (action : string)
| OnUpdate (action : string)
| Primary (cols : QueryBuilder.Columns)
| UniqueConstraint (cols : QueryBuilder.Columns)
| CheckConstraint (expression : string).

Definition call_constraint (c : ConstraintCall) : Method :=
  match c with
  | ForeignKey n => foreignKey n
  | References tc => references tc
  | OnDelete a => onDelete a
  | OnUpdate a => onUpdate a
  | Primary cs => primary cs
  | UniqueConstraint cs => uniqueConstraint cs
  | CheckConstraint e => checkConstraint e
  end.

(** The modifiers of a column as [build] writes them after the type:
    nothing when there is none, else a space and the fragments with a
    space between them. *)
Definition modifiers_part (ms : list string) : string :=
  match ms with
  | [] => EmptyString
  | _ :: _ => " " +:+ Str.join " " ms
  end.

(** The text [references] puts in place of the last constraint [lc]. *)
Definition referenced (lc tableColumn : string) : string :=
  lc +:+ " REFERENCES " +:+ part_text (Str.split "." tableColumn) 0 +:+
  "(" +:+ part_text (Str.split "." tableColumn) 1 +:+ ")".

End TableBuilder.

(** ** SQLiteTool *)

(** Numbers that a division can give: [Math.ceil(a / b)] is not finite
    when [b] is zero.  [Finite 0] stands for both zeros. *)
Inductive Num : Type :=
| Finite (z : Z)
| PosInfinity
| NegInfinity
| NaN.

(** The division of binary64 numbers, for two integers above zero: the
    quotient [a / b] is rounded to the nearest number with a significand
    of 53 bits, a tie to the one whose significand is even (IEEE 754,
    roundTiesToEven). *)
Module Binary64.

(** [2 ^ k] for [k] above zero, and 1 otherwise. *)
Definition pow2 (k : Z) : Z := (2 ^ Z.max 0 k)%Z.

(** The exponent [e] of the quotient: [2 ^ e <= a / b < 2 ^ (e + 1)]. *)
Definition exponent (a b : Z) : Z :=
  let d := (Z.log2 a - Z.log2 b)%Z in
  if (b * pow2 d <=? a * pow2 (- d))%Z then d else (d - 1)%Z.

(** The exponent of the unit in the last place of the quotient: 52
    below its own, and not below that of the least subnormal number. *)
Definition ulp (a b : Z) : Z := Z.max (exponent a b - 52) (-1074).

(** [n / d] rounded to the nearest integer, a tie to the even one. *)
Definition nearest_even (n d : Z) : Z :=
  let q := (n / d)%Z in
  let r := (n mod d)%Z in
  if (2 * r <? d)%Z then q
  else if (d <? 2 * r)%Z then (q + 1)%Z
  else if Z.even q then q else (q + 1)%Z.

(** The quotient as a binary64 number is
    [significand a b * 2 ^ ulp a b]. *)
Definition significand (a b : Z) : Z :=
  nearest_even (a * pow2 (- ulp a b)) (b * pow2 (ulp a b)).

(** A magnitude [m * 2 ^ u] beyond the greatest binary64 number. *)
Definition overflows (m u : Z) : bool := (2 ^ 1024 <=? m * pow2 u)%Z.

(** [Math.ceil] of [m * 2 ^ u]. *)
Definition ceil (m u : Z) : Z := (- ((- m) / pow2 (- u)) * pow2 u)%Z.

(** [m * 2 ^ u] as a float of the kernel, which is a binary64 number,
    and the quotient compared with the division of the kernel. *)
Definition to_float (m u : Z) : PrimFloat.float :=
  FloatOps.SF2Prim (SpecFloat.binary_normalize 53 1024 m u false).

Definition as_primitive_division (a b : Z) : bool :=
  PrimFloat.eqb (to_float (significand a b) (ulp a b))
    (PrimFloat.div (to_float a 0) (to_float b 0)).

End Binary64.

(** [Math.ceil(a / b)] for two integers that binary64 numbers hold. *)
Definition Math_ceil_div (a b : Z) : Num :=
  if (b =? 0)%Z
  then (if (a =? 0)%Z then NaN
        else if (0 <? a)%Z then PosInfinity else NegInfinity)
  else if (a =? 0)%Z then Finite 0
  else
    let m := Binary64.significand (Z.abs a) (Z.abs b) in
    let u := Binary64.ulp (Z.abs a) (Z.abs b) in
    if Binary64.overflows m u
    then (if (0 <? a * b)%Z then PosInfinity else NegInfinity)
    else Finite (Binary64.ceil (Z.sgn a * Z.sgn b * m) u).

(** [n < m] for an integer [n]. *)
Definition Num_lt (n : Z) (m : Num) : bool :=
  match m with
  | Finite z => (n <? z)%Z
  | PosInfinity => true
  | NegInfinity => false
  | NaN => false
  end.

Module SQLiteTool.

(** The [Database] object of the engine, acting on a world [World]
    that holds whatever the engine and the callbacks can change.
    [all] stands for [prepare(sql)], [stmt.all(...values)] and
    [stmt.finalize()]; [count_field] reads the column [count] of a
    row. *)
Record Database (World Row : Type) : Type := {
  exec : string -> M World unit;
  get : string -> list JsValue -> M World (option Row);
  all : string -> list JsValue -> M World (list Row);
  count_field : Row -> Z
}.

Arguments exec {World Row} _ _ _.
Arguments get {World Row} _ _ _ _.
Arguments all {World Row} _ _ _ _.
Arguments count_field {World Row} _ _.

Record t (World Row : Type) : Type := {
  _dbPath : string;
  _db : option (Database World Row);
  _isConnected : bool
}.

Arguments _dbPath {World Row} _.
Arguments _db {World Row} _.
Arguments _isConnected {World Row} _.

(** A [QueryCondition], and the three shapes [find] and [count] tell
    apart in an entry of [conditions]: an array, an object with an
    [operator] key, anything else. *)
Record QueryCondition : Type := {
  operator : string;
  value : JsValue
}.

Inductive Condition : Type :=
| Among (vs : list JsValue)
| WithOperator (c : QueryCondition)
| Plain (v : JsValue).

Definition QueryConditions : Type := list (string * Condition).

Record FindOptions : Type := {
  limit : option Z;
  offset : option Z;
  orderBy : option QueryBuilder.Columns;
  direction : option string;
  groupBy : option QueryBuilder.Columns;
  having : option string;
  distinct : option bool;
  columns : option (list string)
}.

Definition no_options : FindOptions :=
  {| limit := None; offset := None; orderBy := None; direction := None;
     groupBy := None; having := None; distinct := None; columns := None |}.

(** [{ ...options, limit: l, offset: o }]; [findOne] passes no offset
    of its own. *)
Definition with_limit (l : Z) (o : FindOptions) : FindOptions :=
  {| limit := Some l; offset := offset o; orderBy := orderBy o;
     direction := direction o; groupBy := groupBy o; having := having o;
     distinct := distinct o; columns := columns o |}.

Definition with_limit_offset (l off : Z) (o : FindOptions) : FindOptions :=
  {| limit := Some l; offset := Some off; orderBy := orderBy o;
     direction := direction o; groupBy := groupBy o; having := having o;
     distinct := distinct o; columns := columns o |}.

(** [options] with neither [limit] nor [offset]. *)
Definition without_paging (o : FindOptions) : FindOptions :=
  {| limit := None; offset := None; orderBy := orderBy o;
     direction := direction o; groupBy := groupBy o; having := having o;
     distinct := distinct o; columns := columns o |}.

Record PaginationOptions : Type := {
  page : Z;
  p_limit : Z
}.

Record Pagination : Type := {
  pg_page : Z;
  pg_limit : Z;
  total : Z;
  totalPages : Num;
  hasNext : bool;
  hasPrev : bool
}.

Record PaginatedResult (Row : Type) : Type := {
  data : list Row;
  pagination : Pagination
}.

Arguments data {Row} _.
Arguments pagination {Row} _.

Record TransactionOptions : Type := {
  isolation : option string
}.

(** The body of the loop over [Object.entries(conditions)]. *)
Definition condition_call (entry : string * Condition) : QueryBuilder.Call :=
  let (key, v) := entry in
  match v with
  | Among vs => QueryBuilder.whereIn key vs
  | WithOperator c => QueryBuilder.where_ key (operator c) (value c)
  | Plain x => QueryBuilder.where_ key "=" x
  end.

Definition skip : QueryBuilder.Call := fun q h => (q, h).

(** [if (x) { ... x ... }] for an optional number, string,
    [string | string[]] and array; an array is truthy even when it is
    empty, a number when it is not zero, a string when it is not
    empty.  (The numbers here are integers; [NaN], which is not truthy
    either, is none of them.) *)
Definition if_number (n : option Z) (f : Z -> QueryBuilder.Call)
    : QueryBuilder.Call :=
  match n with
  | Some z => if (z =? 0)%Z then skip else f z
  | None => skip
  end.

Definition if_string (x : option string) (f : string -> QueryBuilder.Call)
    : QueryBuilder.Call :=
  match x with
  | Some v => if Str.truthy v then f v else skip
  | None => skip
  end.

Definition if_columns (c : option QueryBuilder.Columns)
    (f : QueryBuilder.Columns -> QueryBuilder.Call) : QueryBuilder.Call :=
  match c with
  | Some (QueryBuilder.OneColumn x) =>
      if Str.truthy x then f (QueryBuilder.OneColumn x) else skip
  | Some (QueryBuilder.ManyColumns xs) => f (QueryBuilder.ManyColumns xs)
  | None => skip
  end.

Definition if_array (c : option (list string))
    (f : list string -> QueryBuilder.Call) : QueryBuilder.Call :=
  match c with
  | Some xs => f xs
  | None => skip
  end.

(** The calls [find] makes on its builder, in order. *)
Definition find_calls (conditions : QueryConditions) (options : FindOptions)
    : list QueryBuilder.Call :=
  [ if_array (columns options) QueryBuilder.select;
    QueryBuilder.calls (map condition_call conditions);
    if_columns (orderBy options)
      (fun c => QueryBuilder.orderBy (QueryBuilder.columnList c)
                  (direction options));
    if_number (limit options)
      (fun l => QueryBuilder.andThen (QueryBuilder.limit l)
                  (if_number (offset options) QueryBuilder.offset));
    if_columns (groupBy options) QueryBuilder.groupBy;
    if_string (having options) (fun c => QueryBuilder.having c []) ].

(** The builder [find] renders, and the store of its arrays: nothing
    outside [find] holds them, so they start from an empty store. *)
Definition find_builder (tableName : string) (conditions : QueryConditions)
    (options : FindOptions) : QueryBuilder.t * Heap :=
  let (q, h) := QueryBuilder.new tableName [] in
  QueryBuilder.calls (find_calls conditions options) q h.

(** [const { sql, values } = queryBuilder.toSQL()]. *)
Definition find_query (tableName : string) (conditions : QueryConditions)
    (options : FindOptions) : string * list JsValue :=
  let (q, h) := find_builder tableName conditions options in
  let (r, h') := QueryBuilder.toSQL q h in
  (QueryBuilder.sql r, read (QueryBuilder.values r) h').

Definition count_query (tableName : string) (conditions : QueryConditions)
    : string * list JsValue :=
  let (q, h) := QueryBuilder.new tableName [] in
  let (q', h') := QueryBuilder.calls (map condition_call conditions) q h in
  let (r, h'') := QueryBuilder.toCountSQL q' h' in
  (QueryBuilder.sql r, read (QueryBuilder.values r) h'').

Section Facade.

Context {World Row : Type}.
Variable self : t World Row.

Definition _ensureConnected : M World unit :=
  if negb (_isConnected self) || negb (bool_decide (is_Some (_db self)))
  then throw (Error "Database is not connected. Call connect() first.")
  else ret tt.

(** [this._db!.m(...)]: the assertion [!] is erased, and a call on
    [null] throws a [TypeError]. *)
Definition on_db {A} (m : string) (f : Database World Row -> M World A)
    : M World A :=
  match _db self with
  | Some db => f db
  | None =>
      throw (TypeError
        ("Cannot read properties of null (reading '" +:+ m +:+ "')"))
  end.

(** [this._log(level, ...)]: logging is outside the world of the
    engine and returns. *)
Definition _log (level message : string) : M World unit := ret tt.

(** [catch (error) { this._log('error', ...); throw error; }]. *)
Definition logged {A} (message : string) (body : M World A) : M World A :=
  try_catch body (fun error => _log "error" message ;;; throw error).

Definition find (tableName : string) (conditions : QueryConditions)
    (options : FindOptions) : M World (list Row) :=
  logged "Error finding records:"
    (_ensureConnected ;;;
     let (sql, values) := find_query tableName conditions options in
     _log "debug" "Executing SQL:" ;;;
     on_db "prepare" (fun db => all db sql values)).

(** [results[0] || null]. *)
Definition findOne (tableName : string) (conditions : QueryConditions)
    (options : FindOptions) : M World (option Row) :=
  logged "Error finding record:"
    (let* results := find tableName conditions (with_limit 1 options) in
     ret (head results)).

Definition count (tableName : string) (conditions : QueryConditions)
    : M World Z :=
  logged "Error counting records:"
    (_ensureConnected ;;;
     let (sql, values) := count_query tableName conditions in
     on_db "get" (fun db =>
       let* result := get db sql values in
       match result with
       | Some row => ret (count_field db row)
       | None =>
           throw (TypeError
             "Cannot read properties of undefined (reading 'count')")
       end)).

Definition findPaginated (tableName : string) (conditions : QueryConditions)
    (pg : PaginationOptions) (options : FindOptions)
    : M World (PaginatedResult Row) :=
  logged "Error finding paginated records:"
    (let* total := count tableName conditions in
     let totalPages := Math_ceil_div total (p_limit pg) in
     let* data :=
       find tableName conditions
         (with_limit_offset (p_limit pg) ((page pg - 1) * p_limit pg)
            options) in
     ret {| data := data;
            pagination :=
              {| pg_page := page pg;
                 pg_limit := p_limit pg;
                 total := total;
                 totalPages := totalPages;
                 hasNext := Num_lt (page pg) totalPages;
                 hasPrev := (page pg >? 1)%Z |} |}).

(** [options.isolation || 'DEFERRED']. *)
Definition isolation_of (options : TransactionOptions) : string :=
  match isolation options with
  | Some i => if Str.truthy i then i else "DEFERRED"
  | None => "DEFERRED"
  end.

Definition transaction {T} (callback : M World T)
    (options : TransactionOptions) : M World T :=
  try_catch
    (_ensureConnected ;;;
     let isolation := isolation_of options in
     on_db "exec"
       (fun db => exec db ("BEGIN " +:+ isolation +:+ " TRANSACTION")) ;;;
     let* result := callback in
     on_db "exec" (fun db => exec db "COMMIT") ;;;
     ret result)
    (fun error =>
       on_db "exec" (fun db => exec db "ROLLBACK") ;;;
       _log "error" "Transaction failed, rolled back:" ;;;
       throw error).

End Facade.

(** A call that leaves the [LIMIT] and [OFFSET] clauses of the builder
    as they are. *)
Definition keeps_paging (c : QueryBuilder.Call) : Prop :=
  forall q h,
    QueryBuilder._limitClause (fst (c q h)) = QueryBuilder._limitClause q
    /\ QueryBuilder._offsetClause (fst (c q h)) = QueryBuilder._offsetClause q.

(** The statement that opens a transaction. *)
Definition begin_statement (options : TransactionOptions) : string :=
  "BEGIN " +:+ isolation_of options +:+ " TRANSACTION".

(** The ways the body of [transaction] can fail from the world [w]: at
    [BEGIN], in the callback, or at [COMMIT]; [e] is what is thrown and
    [wf] the world at that point. *)
Inductive FailsAt {World Row T} (db : Database World Row)
    (callback : M World T) (options : TransactionOptions)
    (w : World) (e : Exn) (wf : World) : Prop :=
| BeginFails :
    exec db (begin_statement options) w = (Thrown e, wf) ->
    FailsAt db callback options w e wf
| CallbackFails (w1 : World) :
    exec db (begin_statement options) w = (Returned tt, w1) ->
    callback w1 = (Thrown e, wf) ->
    FailsAt db callback options w e wf
| CommitFails (w1 w2 : World) (r : T) :
    exec db (begin_statement options) w = (Returned tt, w1) ->
    callback w1 = (Returned r, w2) ->
    exec db "COMMIT" w2 = (Thrown e, wf) ->
    FailsAt db callback options w e wf.

Definition connected {World Row} (self : t World Row)
    (db : Database World Row) : Prop :=
  _isConnected self = true /\ _db self = Some db.

End SQLiteTool.

(** ** An engine that records *)

(** An engine whose world is the list of the statements it was given, in
    order; it raises on the statements of [failing], and a query finds
    [rows] rows.  A row is its [count] column. *)
Module Recording.

Definition World : Type := list string.
Definition Row : Type := Z.

Definition refused (sql : string) : Exn := Error ("refused: " +:+ sql).

Definition attempt {A} (failing : list string) (sql : string) (a : A)
    : M World A :=
  fun w =>
    (if existsb (String.eqb sql) failing
     then Thrown (refused sql) else Returned a,
     w ++ [sql]).

Definition database (failing : list string) (rows : Z)
    : SQLiteTool.Database World Row :=
  {| SQLiteTool.exec := fun sql => attempt failing sql tt;
     SQLiteTool.get := fun sql _ => attempt failing sql (Some rows);
     SQLiteTool.all := fun sql _ => attempt failing sql [rows];
     SQLiteTool.count_field := fun row => row |}.

Definition tool (failing : list string) (rows : Z)
    : SQLiteTool.t World Row :=
  {| SQLiteTool._dbPath := "./database.sqlite";
     SQLiteTool._db := Some (database failing rows);
     SQLiteTool._isConnected := true |}.

End Recording.

(** ** The calls of the fluent interface, by what they contribute *)

Module QueryBuilderOps.

Import QueryBuilder.

(** The values a call pushes on [_whereValues]. *)
Definition op_values (o : Op) : list JsValue :=
  match o with
  | Where _ _ v => [v]
  | WhereRaw _ vs => vs
  | WhereIn _ vs => vs
  | WhereNotIn _ vs => vs
  | WhereBetween _ a b => [a; b]
  | WhereLike _ p => [JsString p]
  | WhereNotLike _ p => [JsString p]
  | OrWhere _ _ v => [v]
  | Having _ vs => vs
  | Select _ | Distinct | WhereNull _ | WhereNotNull _ | Join _ _ _ _ _
  | OrderBy _ _ | GroupBy _ | Limit _ | Offset _ | Paginate _ _ => []
  end.

(** A call that brings as many [?] as values: its identifiers hold no
    [?], and a raw condition has one [?] for each of its values.
    [having] is left out: a second [having] replaces the clause of the
    first and keeps its values. *)
Definition balanced (o : Op) : Prop :=
  match o with
  | Where c op _ | OrWhere c op _ =>
      free_of_placeholder c /\ free_of_placeholder op
  | WhereRaw c vs => Str.count_char "?" c = length vs
  | WhereIn c _ | WhereNotIn c _ | WhereNull c | WhereNotNull c
  | WhereBetween c _ _ | WhereLike c _ | WhereNotLike c _ =>
      free_of_placeholder c
  | Select cs => Forall free_of_placeholder cs
  | Join t f op s ty =>
      free_of_placeholder t /\ free_of_placeholder f
      /\ free_of_placeholder op /\ free_of_placeholder s
      /\ free_of_placeholder (default "INNER" ty)
  | OrderBy c d =>
      free_of_placeholder c /\ free_of_placeholder (default "ASC" d)
  | GroupBy cs => free_of_placeholder (columnList cs)
  | Distinct | Limit _ | Offset _ | Paginate _ _ => True
  | Having _ _ => False
  end.

(** The number of [?] in a list of texts. *)
Definition marks_of (ps : list string) : nat :=
  list_sum (map (Str.count_char "?") ps).



(** [new QueryBuilder(tableName)] followed by the calls [cs] and by
    [toCountSQL()]. *)
Definition count_rendered_after (tableName : string) (cs : list Call)
    (h : Heap) : string * list JsValue :=
  let (q0, h0) := new tableName h in
  let (q, h1) := calls cs q0 h0 in
  let (r, h2) := toCountSQL q h1 in
  (sql r, read (values r) h2).

End QueryBuilderOps.

(** ** WhereBuilder *)

Module WhereBuilder.

Record t : Type := {
  _conditions : list string;
  _values : list JsValue
}.

Definition new : t := {| _conditions := []; _values := [] |}.

Definition and_ (column operator : string) (value : JsValue) (b : t) : t :=
  {| _conditions := _conditions b ++ [column +:+ " " +:+ operator +:+ " ?"];
     _values := _values b ++ [value] |}.

(** Two pushes: the word [OR], then the predicate. *)
Definition or_ (column operator : string) (value : JsValue) (b : t) : t :=
  {| _conditions :=
       (_conditions b ++ ["OR"]) ++ [column +:+ " " +:+ operator +:+ " ?"];
     _values := _values b ++ [value] |}.

Definition raw (condition : string) (values : list JsValue) (b : t) : t :=
  {| _conditions := _conditions b ++ [condition];
     _values := _values b ++ values |}.

Record Built : Type := { clause : string; values : list JsValue }.

Definition build (b : t) : Built :=
  {| clause := Str.join " " (_conditions b); values := _values b |}.

(** The calls, as data. *)
Inductive Call : Type :=
| And (column operator : string) (value : JsValue)
| Or (column operator : string) (value : JsValue)
| Raw (condition : string) (values : list JsValue).

Definition call (c : Call) : t -> t :=
  match c with
  | And c o v => and_ c o v
  | Or c o v => or_ c o v
  | Raw c vs => raw c vs
  end.

(** [b.c1(..).c2(..)...]. *)
Fixpoint calls (cs : list Call) (b : t) : t :=
  match cs with
  | [] => b
  | c :: rest => calls rest (call c b)
  end.

(** The words a call adds to the clause, and the values it adds. *)
Definition words (c : Call) : list string :=
  match c with
  | And c o _ => [c +:+ " " +:+ o +:+ " ?"]
  | Or c o _ => ["OR"; c +:+ " " +:+ o +:+ " ?"]
  | Raw c _ => [c]
  end.

Definition call_values (c : Call) : list JsValue :=
  match c with
  | And _ _ v => [v]
  | Or _ _ v => [v]
  | Raw _ vs => vs
  end.

Definition balanced (c : Call) : Prop :=
  match c with
  | And c o _ | Or c o _ =>
      QueryBuilder.free_of_placeholder c /\ QueryBuilder.free_of_placeholder o
  | Raw c vs => Str.count_char "?" c = length vs
  end.

End WhereBuilder.

(** ** The calls of the TableBuilder, as data *)

Module TableBuilderCalls.

Import TableBuilder.

Inductive ColumnCall : Type :=
| Id (n : option string)
| String_ (n : string) (len : option Z)
| Text (n : string)
| Integer (n : string)
| Real (n : string)
| Boolean (n : string)
| Blob (n : string)
| Date (n : string)
| Timestamp (n : string)
| Numeric (n : string)
| Json (n : string).

Definition call_column (c : ColumnCall) : Method :=
  match c with
  | Id n => id n
  | String_ n len => string_ n len
  | Text n => text n
  | Integer n => integer n
  | Real n => real n
  | Boolean n => boolean n
  | Blob n => blob n
  | Date n => date n
  | Timestamp n => timestamp n
  | Numeric n => numeric n
  | Json n => json n
  end.

Inductive Call : Type :=
| AddColumn (c : ColumnCall)
| Modify (m : Modifier)
| Constrain (c : ConstraintCall).

Definition call (c : Call) : Method :=
  match c with
  | AddColumn c => call_column c
  | Modify m => call_modifier m
  | Constrain c => call_constraint c
  end.

(** The builder after the calls [cs], each made on the builder the one
    before left; a call that throws is one more call made. *)
Fixpoint after (cs : list Call) (s : t) : t :=
  match cs with
  | [] => s
  | c :: rest => after rest (snd (call c s))
  end.

Definition declares (c : Call) : bool :=
  match c with
  | AddColumn _ => true
  | _ => false
  end.

(** The calls that push a constraint; the others amend the last one. *)
Definition adds_constraint (c : Call) : bool :=
  match c with
  | Constrain (ForeignKey _) | Constrain (Primary _)
  | Constrain (UniqueConstraint _) | Constrain (CheckConstraint _) => true
  | _ => false
  end.

(** The columns [build] returns. *)
Definition built_columns (s : t) : list string := map definition (_columns s).

(** [_currentColumn] refers to the column declared last, if any. *)
Definition pointing (s : t) : Prop :=
  _currentColumn s
    = match length (_columns s) with
      | 0 => None
      | S n => Some n
      end.

(** The name, the type and the modifiers a column-declaring call gives
    the column. *)
Definition column_name (c : ColumnCall) : string :=
  match c with
  | Id n => default "id" n
  | String_ n _ | Text n | Integer n | Real n | Boolean n | Blob n
  | Date n | Timestamp n | Numeric n | Json n => n
  end.

Definition column_type (c : ColumnCall) : string :=
  match c with
  | Id _ | Integer _ | Boolean _ | Timestamp _ => "INTEGER"
  | String_ _ (Some l) =>
      if (l =? 0)%Z then "TEXT" else "TEXT(" +:+ number_text l +:+ ")"
  | String_ _ None | Text _ | Date _ | Json _ => "TEXT"
  | Real _ => "REAL"
  | Blob _ => "BLOB"
  | Numeric _ => "NUMERIC"
  end.

Definition initial_modifiers (c : ColumnCall) : list string :=
  match c with
  | Id _ => ["PRIMARY KEY"; "AUTOINCREMENT"]
  | Date _ => ["DEFAULT CURRENT_TIMESTAMP"]
  | _ => []
  end.

(** A text with no dot. *)
Definition dotfree (s : string) : Prop := Str.count_char "." s = 0.

(** The calls the embedding makes as the program does: the number given
    to [default] or as the length of [string], when there is one, is a
    safe integer.  The other values of [JsValue] are written by
    [_escapeValue] as they are here. *)
Definition exact_modifier (m : Modifier) : Prop :=
  match m with
  | Default v => exact_value v
  | _ => True
  end.

Definition exact_column (c : ColumnCall) : Prop :=
  match c with
  | String_ _ len => safe_if_given len
  | _ => True
  end.

Definition exact_call (c : Call) : Prop :=
  match c with
  | AddColumn c => exact_column c
  | Modify m => exact_modifier m
  | Constrain _ => True
  end.

End TableBuilderCalls.

(** ** Reading an SQL string literal *)

(** The rule by which SQL reads a string literal: it opens with a
    quote, two quotes in a row stand for one, and a quote alone closes
    it.  [body] reads after the opening quote and gives the string read
    and the text left. *)
Module SqlLiteral.

Definition cons_read (a : ascii) (r : option (string * string))
    : option (string * string) :=
  match r with
  | Some (v, rest) => Some (String a v, rest)
  | None => None
  end.

Fixpoint body (s : string) : option (string * string) :=
  match s with
  | EmptyString => None
  | String a rest =>
      if Ascii.eqb a "'"%char
      then match rest with
           | String b rest' =>
               if Ascii.eqb b "'"%char
               then cons_read "'"%char (body rest')
               else Some (EmptyString, rest)
           | EmptyString => Some (EmptyString, EmptyString)
           end
      else cons_read a (body rest)
  end.

Definition read_literal (s : string) : option (string * string) :=
  match s with
  | String a rest => if Ascii.eqb a "'"%char then body rest else None
  | EmptyString => None
  end.

(** The text after a literal does not go on with a quote. *)
Definition ends_literal (rest : string) : Prop :=
  match rest with
  | EmptyString => True
  | String a _ => a <> "'"%char
  end.

End SqlLiteral.

(** ** SQLiteTool: the other operations *)

Module SQLiteToolOps.

Import SQLiteTool.

(** [String.prototype.replace] with a string as pattern: the first
    occurrence of [pat] in [s] becomes [rep] (which holds no [$]). *)
Fixpoint drop (n : nat) (s : string) : string :=
  match n, s with
  | O, _ => s
  | S n', String _ rest => drop n' rest
  | S _, EmptyString => EmptyString
  end.

Fixpoint replace_first (pat rep s : string) : string :=
  if String.prefix pat s
  then rep +:+ drop (String.length pat) s
  else match s with
       | EmptyString => EmptyString
       | String a rest => String a (replace_first pat rep rest)
       end.

(** A line feed. *)
Definition nl : string := String (ascii_of_nat 10) EmptyString.

(** An object whose fields are values, by its entries in the order of
    [Object.keys]. *)
Definition Fields : Type := list (string * JsValue).

Definition keys (o : Fields) : list string := map fst o.
Definition vals (o : Fields) : list JsValue := map snd o.

(** The values the predicates of a condition entry bind, as [find] and
    [count] translate it. *)
Definition condition_values (entry : string * Condition) : list JsValue :=
  match snd entry with
  | Among vs => vs
  | WithOperator c => [value c]
  | Plain v => [v]
  end.

(** The values the engine binds as they are: [null], numbers and
    strings. *)
Definition bindable (v : JsValue) : Prop :=
  match v with
  | JsNull | JsNumber _ | JsString _ => True
  | JsUndefined | JsBool _ | JsDate _ | JsObject _ => False
  end.

Section Prepare.

(** [JSON.stringify], which the embedding does not look into. *)
Variable JSON_stringify : JsValue -> string.

(** [_prepareValue], on the values the embedding holds: it returns for
    each of them.  (A [bigint], a [symbol] and a function fall through
    to the last line and are returned as they are; [toISOString] throws
    on a [Date] that holds no time, and [JSON.stringify] on an object
    it cannot write; the embedding holds none of these.) *)
Definition _prepareValue (value : JsValue) : JsValue :=
  match value with
  | JsNull | JsUndefined => JsNull
  | JsDate iso => JsString iso
  | JsBool b => JsNumber (if b then 1 else 0)
  | JsObject _ => JsString (JSON_stringify value)
  | JsNumber _ | JsString _ => value
  end.

(** The statement and the values of [insert]. *)
Definition insert_query (tableName : string) (data : Fields)
    : string * list JsValue :=
  let columns := Str.join ", " (keys data) in
  let placeholders := Str.join ", " (map (fun _ => "?") (keys data)) in
  let values := map _prepareValue (vals data) in
  ("INSERT INTO " +:+ tableName +:+ " (" +:+ columns +:+ ") VALUES (" +:+
   placeholders +:+ ")", values).

(** [keys.map(key => `${key} = ?`)]. *)
Definition assignments (ks : list string) : list string :=
  map (fun key => key +:+ " = ?") ks.

Definition update_query (tableName : string) (data conditions : Fields)
    : string * list JsValue :=
  let setClause := Str.join ", " (assignments (keys data)) in
  let values := map _prepareValue (vals data) in
  let sql := "UPDATE " +:+ tableName +:+ " SET " +:+ setClause in
  let conditionKeys := keys conditions in
  let conditionValues := map _prepareValue (vals conditions) in
  if Nat.ltb 0 (length conditionKeys)
  then (sql +:+ " WHERE " +:+ Str.join " AND " (assignments conditionKeys),
        values ++ conditionValues)
  else (sql, values).

Definition delete_query (tableName : string) (conditions : Fields)
    : string * list JsValue :=
  let sql := "DELETE FROM " +:+ tableName in
  let conditionKeys := keys conditions in
  let conditionValues := map _prepareValue (vals conditions) in
  if Nat.ltb 0 (length conditionKeys)
  then (sql +:+ " WHERE " +:+ Str.join " AND " (assignments conditionKeys),
        conditionValues)
  else (sql, conditionValues).

End Prepare.

Record TableOptions : Type := {
  withoutRowId : option bool;
  strict : option bool;
  temporary : option bool
}.

Definition no_table_options : TableOptions :=
  {| withoutRowId := None; strict := None; temporary := None |}.

(** An optional flag in a condition. *)
Definition flag (o : option bool) : bool :=
  match o with
  | Some b => b
  | None => false
  end.

(** The statement [createTable] builds from what [build] returned. *)
Definition createTable_text (tableName : string)
    (built : TableBuilder.TableBuilderResult) (options : TableOptions)
    : string :=
  let sep := "," +:+ nl +:+ "  " in
  let sql := "CREATE TABLE IF NOT EXISTS " +:+ tableName +:+ " (" +:+ nl +:+ "  " in
  let sql := sql +:+ Str.join sep (TableBuilder.columns built) in
  let sql :=
    if Nat.ltb 0 (length (TableBuilder.constraints built))
    then sql +:+ sep +:+ Str.join sep (TableBuilder.constraints built)
    else sql in
  let sql := sql +:+ nl +:+ ")" in
  let sql :=
    if flag (temporary options)
    then replace_first "CREATE TABLE" "CREATE TEMPORARY TABLE" sql
    else sql in
  let sql := if flag (withoutRowId options) then sql +:+ " WITHOUT ROWID" else sql in
  let sql := if flag (strict options) then sql +:+ " STRICT" else sql in
  sql.

(** The parts of the statement that depend on the options. *)
Definition create_keyword (options : TableOptions) : string :=
  if flag (temporary options) then "CREATE TEMPORARY TABLE" else "CREATE TABLE".

Definition table_suffix (options : TableOptions) : string :=
  (if flag (withoutRowId options) then " WITHOUT ROWID" else EmptyString) +:+
  (if flag (strict options) then " STRICT" else EmptyString).

(** What [run] resolves to: both fields may be missing. *)
Record RunResult : Type := {
  lastID : option Z;
  changes : option Z
}.

Record InsertResult : Type := {
  ins_lastID : Z;
  ins_changes : Z
}.

(** [x || 0] for an optional number. *)
Definition or_zero (x : option Z) : Z := default 0%Z x.

(** The fields of [_config] that [connect] reads. *)
Record Config : Type := {
  timeout : Z;
  readonly : bool
}.

(** [options.timeout ?? 30000] and [options.readonly ?? false]. *)
Definition config_of (timeout_option : option Z) (readonly_option : option bool)
    : Config :=
  {| timeout := default 30000%Z timeout_option;
     readonly := default false readonly_option |}.

Section Operations.

Context {World Row : Type}.

(** The methods of the engine that are not part of {!SQLiteTool.Database}:
    [run] of a [Database], [open] of the driver (with the read-only flag
    of the mode) and [close] of a [Database]. *)
Variable JSON_stringify : JsValue -> string.
Variable run :
  Database World Row -> string -> list JsValue -> M World RunResult.
Variable open : string -> bool -> M World (Database World Row).
Variable db_close : Database World Row -> M World unit.

Section WithTool.

Variable self : t World Row.

Definition insert (tableName : string) (data : Fields) : M World InsertResult :=
  logged "Error inserting record:"
    (_ensureConnected self ;;;
     let (sql, values) := insert_query JSON_stringify tableName data in
     _log "debug" "Executing SQL:" ;;;
     let* result := on_db self "run" (fun db => run db sql values) in
     ret {| ins_lastID := or_zero (lastID result);
            ins_changes := or_zero (changes result) |}).

Definition update (tableName : string) (data conditions : Fields) : M World Z :=
  logged "Error updating records:"
    (_ensureConnected self ;;;
     let (sql, values) := update_query JSON_stringify tableName data conditions in
     let* result := on_db self "run" (fun db => run db sql values) in
     ret (or_zero (changes result))).

Definition delete (tableName : string) (conditions : Fields) : M World Z :=
  logged "Error deleting records:"
    (_ensureConnected self ;;;
     let (sql, values) := delete_query JSON_stringify tableName conditions in
     let* result := on_db self "run" (fun db => run db sql values) in
     ret (or_zero (changes result))).

(** [builder(tableBuilder)] is whatever the caller does with the
    builder: a method of it. *)
Definition createTable (tableName : string) (builder : TableBuilder.Method)
    (options : TableOptions) : M World unit :=
  logged "Error creating table:"
    (_ensureConnected self ;;;
     match (builder ;;; TableBuilder.build) (TableBuilder.new tableName) with
     | (Thrown e, _) => throw e
     | (Returned built, _) =>
         on_db self "exec"
           (fun db => exec db (createTable_text tableName built options)) ;;;
         _log "info" "Table created or already exists"
     end).

Definition dropTable (tableName : string) : M World unit :=
  logged "Error dropping table:"
    (_ensureConnected self ;;;
     on_db self "exec" (fun db => exec db ("DROP TABLE IF EXISTS " +:+ tableName)) ;;;
     _log "info" "Table dropped").

(** [!!result]: a row was found. *)
Definition tableExists (tableName : string) : M World bool :=
  logged "Error checking table existence:"
    (_ensureConnected self ;;;
     let* result :=
       on_db self "get"
         (fun db => get db "SELECT name FROM sqlite_master WHERE type='table' AND name=?"
                      [JsString tableName]) in
     ret (bool_decide (is_Some result))).

Definition getConnectionStatus : bool := _isConnected self.

End WithTool.

(** [connect] and [close] assign fields of [this]: they act on the tool
    and on the world together. *)
Definition lift {A} (c : M World A) : M (t World Row * World) A :=
  fun st =>
    match c (snd st) with
    | (r, w') => (r, (fst st, w'))
    end.

Definition this : M (t World Row * World) (t World Row) :=
  fun st => (Returned (fst st), st).

Definition assign (f : t World Row -> t World Row) : M (t World Row * World) unit :=
  fun st => (Returned tt, (f (fst st), snd st)).

Definition set_db (d : option (Database World Row)) (self : t World Row)
    : t World Row :=
  {| _dbPath := _dbPath self; _db := d; _isConnected := _isConnected self |}.

Definition set_isConnected (b : bool) (self : t World Row) : t World Row :=
  {| _dbPath := _dbPath self; _db := _db self; _isConnected := b |}.

Definition busy_timeout (config : Config) : string :=
  "PRAGMA busy_timeout = " +:+ number_text (timeout config).

(** What [connect] sends after opening: the busy timeout, unless it is
    zero. *)
Definition after_open (config : Config) (db : Database World Row)
    : M World unit :=
  if (timeout config =? 0)%Z then ret tt else exec db (busy_timeout config).

Definition connect (config : Config) : M (t World Row * World) unit :=
  try_catch
    (let* self := this in
     if _isConnected self
     then ret tt
     else
       (let* db := lift (open (_dbPath self) (readonly config)) in
        (assign (set_db (Some db)) ;;;
         ((if (timeout config =? 0)%Z
           then ret tt
           else lift (exec db (busy_timeout config))) ;;;
          assign (set_isConnected true)))))
    (fun error => throw error).

Definition close : M (t World Row * World) unit :=
  try_catch
    (let* self := this in
     match _db self with
     | Some db =>
         if _isConnected self
         then (lift (db_close db) ;;;
               (assign (set_isConnected false) ;;; assign (set_db None)))
         else ret tt
     | None => ret tt
     end)
    (fun error => throw error).

(** The tool [new SQLiteTool(dbPath, options)] makes. *)
Definition new (dbPath : string) : t World Row :=
  {| _dbPath := dbPath; _db := None; _isConnected := false |}.

End Operations.

End SQLiteToolOps.

(** ** What [find] and [count] make of their arguments *)

Module FindQuery.

Import SQLiteTool.

(** The predicate a condition entry becomes. *)
Definition condition_text (entry : string * Condition) : string :=
  match snd entry with
  | Among [] => "1 = 0"
  | Among (v :: vs) =>
      fst entry +:+ " IN (" +:+ QueryBuilder.placeholders (v :: vs) +:+ ")"
  | WithOperator c => fst entry +:+ " " +:+ operator c +:+ " ?"
  | Plain _ => fst entry +:+ " = ?"
  end.

(** The [LIMIT] and [OFFSET] clauses the options ask for: a limit that
    is given and not zero, and under it an offset that is given and not
    zero. *)
Definition limit_clause_of (o : FindOptions) : string :=
  match limit o with
  | Some l => if (l =? 0)%Z then EmptyString else "LIMIT " +:+ number_text l
  | None => EmptyString
  end.

Definition offset_clause_of (o : FindOptions) : string :=
  match limit o with
  | Some l =>
      if (l =? 0)%Z then EmptyString
      else match offset o with
           | Some k =>
               if (k =? 0)%Z then EmptyString
               else "OFFSET " +:+ number_text k
           | None => EmptyString
           end
  | None => EmptyString
  end.

(** A call that pushes the predicates [ps] and the values [vs], and
    keeps the builder's array where it is. *)
Definition pushes (c : QueryBuilder.Call) (ps : list string)
    (vs : list JsValue) : Prop :=
  forall q h,
    QueryBuilder.allocated q h ->
    QueryBuilder._whereValues (fst (c q h)) = QueryBuilder._whereValues q
    /\ length (snd (c q h)) = length h
    /\ QueryBuilder._whereConditions (fst (c q h))
       = QueryBuilder._whereConditions q ++ ps
    /\ read (QueryBuilder._whereValues q) (snd (c q h))
       = read (QueryBuilder._whereValues q) h ++ vs.

(** The error of [_ensureConnected]. *)
Definition not_connected : Exn :=
  Error "Database is not connected. Call connect() first.".

Definition disconnected {World Row} (self : t World Row) : Prop :=
  _isConnected self = false \/ _db self = None.

End FindQuery.

(** ** The recording engine, for the other operations *)

Module RecordingOps.

Import Recording.

Definition stringify (v : JsValue) : string := "{}".

Definition run (failing : list string)
    (db : SQLiteTool.Database World Row) (sql : string)
    (values : list JsValue) : M World SQLiteToolOps.RunResult :=
  attempt failing sql
    {| SQLiteToolOps.lastID := Some 1%Z; SQLiteToolOps.changes := Some 1%Z |}.

Definition open (failing : list string) (rows : Z) (path : string)
    (read_only : bool) : M World (SQLiteTool.Database World Row) :=
  attempt failing ("open " +:+ path) (database failing rows).

Definition db_close (failing : list string)
    (db : SQLiteTool.Database World Row) : M World unit :=
  attempt failing "close" tt.

(** A tool that holds a handle and is not connected, as [connect]
    leaves it when the busy timeout is refused. *)
Definition half_open (failing : list string) (rows : Z)
    : SQLiteTool.t World Row :=
  {| SQLiteTool._dbPath := "./database.sqlite";
     SQLiteTool._db := Some (database failing rows);
     SQLiteTool._isConnected := false |}.

End RecordingOps.

(** ** SQLiteAdmin: migrations *)

Module SQLiteAdmin.

Import SQLiteTool SQLiteToolOps.

Record MigrationResult : Type := {
  m_version : Z;
  applied : bool;
  error : option string
}.



Section Admin.

Context {World Row : Type}.




(** [JSON.stringify], [run] of the tool's handle, and the field
    [version] of a row. *)
Variable JSON_stringify : JsValue -> string.
Variable run : string -> list JsValue -> M World RunResult.
Variable version_field : Row -> Z.

(** The callback of the transaction pushes on the array [results] of
    [runMigrations]: what it can change is that array together with the
    world of the engine. *)
Definition Local : Type := (list MigrationResult * World)%type.

Definition lift {A} (c : M World A) : M Local A :=
  fun st =>
    match c (snd st) with
    | (r, w') => (r, (fst st, w'))
    end.






Variable self : t World Row.




















End Admin.

End SQLiteAdmin.

(** ** The recording engine, for migrations *)

Module RecordingAdmin.

Import Recording.



End RecordingAdmin.

(** * Properties *)

(** ** Strings and the store *)

Module StrFacts.

Lemma sapp_cons a s u : String a s +:+ u = String a (s +:+ u).
Proof. reflexivity. Qed.

Lemma sapp_nil_l s : EmptyString +:+ s = s.
Proof. reflexivity. Qed.

Lemma sapp_nil_r s : s +:+ EmptyString = s.
Proof.
  induction s as [|a s IH]; [reflexivity|].
  now rewrite sapp_cons, IH.
Qed.

Lemma sapp_assoc s u v : (s +:+ u) +:+ v = s +:+ (u +:+ v).
Proof.
  induction s as [|a s IH]; [reflexivity|].
  now rewrite !sapp_cons, IH.
Qed.

Lemma count_char_app c s u :
  Str.count_char c (s +:+ u) = Str.count_char c s + Str.count_char c u.
Proof.
  induction s as [|a s IH]; [reflexivity|].
  rewrite sapp_cons. cbn [Str.count_char]. rewrite IH. lia.
Qed.

Lemma truthy_app_l s u : Str.truthy s = true -> Str.truthy (s +:+ u) = true.
Proof. destruct s; [discriminate|reflexivity]. Qed.

Lemma join_cons2 sep x y l :
  Str.join sep (x :: y :: l) = x +:+ sep +:+ Str.join sep (y :: l).
Proof. reflexivity. Qed.

Lemma join_snoc sep l x :
  l <> [] -> Str.join sep (l ++ [x]) = Str.join sep l +:+ sep +:+ x.
Proof.
  induction l as [|a l IH]; [congruence|intros _].
  destruct l as [|b l]; [reflexivity|].
  change ((a :: b :: l) ++ [x]) with (a :: b :: (l ++ [x])).
  rewrite !join_cons2.
  change (b :: l ++ [x]) with ((b :: l) ++ [x]).
  rewrite IH by discriminate.
  now rewrite !sapp_assoc.
Qed.

End StrFacts.

Module HeapFacts.

Lemma length_push l vs h : length (push l vs h) = length h.
Proof. apply length_alter. Qed.

Lemma read_push l vs h :
  l < length h -> read l (push l vs h) = read l h ++ vs.
Proof.
  intros Hl. unfold read, push. rewrite list_lookup_alter_eq.
  destruct (lookup_lt_is_Some_2 h l Hl) as [a Ha]. now rewrite Ha.
Qed.

Lemma read_push_nil l h : read l (push l [] h) = read l h.
Proof.
  unfold read, push. rewrite list_lookup_alter_eq.
  destruct (h !! l) as [a|]; cbn; [now rewrite app_nil_r|reflexivity].
Qed.

Lemma read_push_ne l l' vs h : l <> l' -> read l' (push l vs h) = read l' h.
Proof. intros Hne. unfold read, push. now rewrite list_lookup_alter_ne. Qed.

Lemma read_alloc_new vs h : read (length h) (h ++ [vs]) = vs.
Proof. unfold read. now rewrite lookup_app_r, Nat.sub_diag by lia. Qed.

Lemma read_alloc_old l vs h : l < length h -> read l (h ++ [vs]) = read l h.
Proof. intros Hl. unfold read. now rewrite lookup_app_l. Qed.

End HeapFacts.

(** ** QueryBuilder *)

Module QueryBuilderFacts.

Import QueryBuilder StrFacts HeapFacts.

Lemma set_whereConditions_id q : set_whereConditions (_whereConditions q) q = q.
Proof. now destruct q. Qed.

Lemma set_whereConditions_twice cs cs' q :
  set_whereConditions cs (set_whereConditions cs' q) = set_whereConditions cs q.
Proof. reflexivity. Qed.

Lemma calls_cons c cs q h :
  calls (c :: cs) q h = calls cs (fst (c q h)) (snd (c q h)).
Proof. cbn [calls]. unfold andThen. now destruct (c q h). Qed.

(** A list of [where] calls pushes its predicates and its values, call
    by call. *)
Lemma calls_where cs : forall q h,
  allocated q h ->
  fst (calls (map where_call cs) q h)
    = set_whereConditions (_whereConditions q ++ map predicate cs) q
  /\ read (_whereValues q) (snd (calls (map where_call cs) q h))
    = read (_whereValues q) h ++ map w_value cs
  /\ length (snd (calls (map where_call cs) q h)) = length h.
Proof.
  induction cs as [|c cs IH]; intros q h Hq.
  - cbn. rewrite !List.app_nil_r. now rewrite set_whereConditions_id.
  - cbn [map]. rewrite !calls_cons.
    assert (E : where_call c q h
                = (push_condition (predicate c) q,
                   push (_whereValues q) [w_value c] h)) by reflexivity.
    rewrite !E. cbn [fst snd]. clear E.
    set (q1 := push_condition (predicate c) q).
    set (h1 := push (_whereValues q) [w_value c] h).
    assert (Hq1 : allocated q1 h1).
    { unfold allocated, q1, h1. cbn. now rewrite length_push. }
    destruct (IH q1 h1 Hq1) as (Hc & Hv & Hl).
    repeat split.
    + rewrite Hc. unfold q1, push_condition. cbn.
      now rewrite <- List.app_assoc.
    + change (_whereValues q) with (_whereValues q1) at 1.
      rewrite Hv. unfold q1, h1. cbn. rewrite read_push by exact Hq.
      now rewrite <- List.app_assoc.
    + rewrite Hl. apply length_push.
Qed.

Lemma predicate_count c :
  free_of_placeholder (w_column c) -> free_of_placeholder (w_operator c) ->
  Str.count_char "?" (predicate c) = 1.
Proof.
  unfold free_of_placeholder, predicate. intros Hc Ho.
  rewrite !count_char_app, Hc, Ho. reflexivity.
Qed.

Lemma join_predicates_count cs :
  Forall free_call cs ->
  Str.count_char "?" (Str.join " AND " (map predicate cs)) = length cs.
Proof.
  induction 1 as [|c cs [Hc Ho] Hcs IH]; [reflexivity|].
  destruct cs as [|d cs].
  - cbn. now apply predicate_count.
  - cbn [map] in *. rewrite join_cons2, !count_char_app, IH.
    rewrite predicate_count by assumption. reflexivity.
Qed.

Lemma bind_values_free show s u vs :
  free_of_placeholder s ->
  bind_values show (s +:+ u) vs = s +:+ bind_values show u vs.
Proof.
  unfold free_of_placeholder.
  induction s as [|a s IH]; [reflexivity|].
  rewrite !sapp_cons. cbn [Str.count_char bind_values].
  destruct (Ascii.eqb a "?"); [discriminate|].
  intros H. now rewrite IH.
Qed.

Lemma bind_values_mark show u v vs :
  bind_values show ("?" +:+ u) (v :: vs) = show v +:+ bind_values show u vs.
Proof. reflexivity. Qed.

Lemma bind_values_nil show vs : bind_values show EmptyString vs = EmptyString.
Proof. reflexivity. Qed.

Lemma bind_predicate show c u vs :
  free_call c ->
  bind_values show (predicate c +:+ u) (w_value c :: vs)
    = bound_predicate show c +:+ bind_values show u vs.
Proof.
  intros [Hc Ho]. unfold predicate, bound_predicate.
  rewrite !sapp_assoc.
  rewrite bind_values_free by exact Hc.
  rewrite (bind_values_free show " ") by reflexivity.
  rewrite bind_values_free by exact Ho.
  change (" ?" +:+ u) with (" " +:+ "?" +:+ u).
  rewrite (bind_values_free show " ") by reflexivity.
  now rewrite bind_values_mark.
Qed.

Lemma bind_join_predicates show cs :
  Forall free_call cs ->
  bind_values show (Str.join " AND " (map predicate cs)) (map w_value cs)
    = Str.join " AND " (map (bound_predicate show) cs).
Proof.
  induction 1 as [|c cs Hc Hcs IH]; [reflexivity|].
  destruct cs as [|d cs].
  - cbn [map]. change (Str.join " AND " [predicate c]) with (predicate c).
    rewrite <- (sapp_nil_r (predicate c)), bind_predicate by exact Hc.
    now rewrite bind_values_nil, sapp_nil_r.
  - cbn [map] in *. rewrite !join_cons2.
    rewrite bind_predicate by exact Hc.
    rewrite (bind_values_free show " AND ") by reflexivity.
    now rewrite IH.
Qed.

(** The text of a builder that only received conditions. *)
Lemma toSQL_text_where tableName ps l :
  toSQL_text (set_whereConditions ps (fst (new tableName l)))
    = "SELECT * FROM " +:+ tableName +:+ where_part ps.
Proof.
  unfold toSQL_text, add_joins, add_where, add_clause. cbn.
  destruct ps as [|p ps]; cbn.
  - now rewrite sapp_nil_r.
  - now rewrite !sapp_assoc.
Qed.

Lemma new_allocated tableName h :
  allocated (fst (new tableName h)) (snd (new tableName h)).
Proof. unfold allocated. cbn. rewrite length_app. cbn. lia. Qed.

Lemma new_read tableName h :
  read (_whereValues (fst (new tableName h))) (snd (new tableName h)) = [].
Proof. cbn. apply read_alloc_new. Qed.

(** [toSQL] hands out the elements of the builder's array. *)
Lemma rendered_after_calls tableName cs h :
  rendered_after tableName cs h
    = (toSQL_text (fst (calls cs (fst (new tableName h)) (snd (new tableName h)))),
       read (_whereValues (fst (calls cs (fst (new tableName h)) (snd (new tableName h)))))
            (snd (calls cs (fst (new tableName h)) (snd (new tableName h))))).
Proof.
  unfold rendered_after. destruct (new tableName h) as [q0 h0]. cbn [fst snd].
  destruct (calls cs q0 h0) as [q h1]. cbn [fst snd].
  unfold toSQL, alloc. cbn [sql values]. now rewrite read_alloc_new.
Qed.

Lemma rendered_after_where tableName cs h :
  rendered_after tableName (map where_call cs) h
    = ("SELECT * FROM " +:+ tableName +:+ where_part (map predicate cs),
       map w_value cs).
Proof.
  rewrite rendered_after_calls.
  destruct (calls_where cs _ _ (new_allocated tableName h)) as (Hc & Hv & _).
  rewrite Hc. cbn [_whereValues set_whereConditions].
  rewrite Hv, new_read. f_equal.
  apply (toSQL_text_where tableName (map predicate cs) h).
Qed.

(** C1 (as amended).  On a builder made for a table whose name holds no
    [?], after any list of [where] calls whose columns and operators
    hold no [?]: the text [toSQL] renders has as many [?] as the array
    it returns has elements; the elements are the values of the calls,
    in the order of the calls; and binding the k-th [?] to the k-th
    element puts every value in the predicate of its own call. *)
Theorem where_values_match_placeholders
    (tableName : string) (cs : list WhereCall) (h : Heap) :
  free_of_placeholder tableName ->
  Forall free_call cs ->
  Str.count_char "?" (fst (rendered_after tableName (map where_call cs) h))
    = length (snd (rendered_after tableName (map where_call cs) h))
  /\ snd (rendered_after tableName (map where_call cs) h) = map w_value cs
  /\ forall show,
       bind_values show
         (fst (rendered_after tableName (map where_call cs) h))
         (snd (rendered_after tableName (map where_call cs) h))
       = "SELECT * FROM " +:+ tableName +:+
         where_part (map (bound_predicate show) cs).
Proof.
  intros Ht Hcs. rewrite rendered_after_where. cbn [fst snd].
  split; [|split; [reflexivity|]].
  - rewrite !count_char_app, Ht, length_map.
    destruct cs as [|c cs]; [reflexivity|].
    cbn [map where_part]. rewrite count_char_app.
    change (predicate c :: map predicate cs) with (map predicate (c :: cs)).
    rewrite join_predicates_count by exact Hcs. reflexivity.
  - intros show.
    rewrite (bind_values_free show "SELECT * FROM ") by reflexivity.
    rewrite bind_values_free by exact Ht.
    do 2 f_equal.
    destruct cs as [|c cs]; [reflexivity|].
    cbn [map where_part].
    rewrite (bind_values_free show " WHERE ") by reflexivity.
    f_equal.
    apply (bind_join_predicates show (c :: cs) Hcs).
Qed.

Lemma where_values_match_placeholders_witness :
  Str.count_char "?"
    (fst (rendered_after "users"
       (map where_call
          [ {| w_column := "age"; w_operator := ">"; w_value := JsNumber 18 |};
            {| w_column := "name"; w_operator := "LIKE";
               w_value := JsString "A%" |} ]) []))
  = 2.
Proof.
  pose proof (where_values_match_placeholders "users"
    [ {| w_column := "age"; w_operator := ">"; w_value := JsNumber 18 |};
      {| w_column := "name"; w_operator := "LIKE";
         w_value := JsString "A%" |} ] []) as H.
  destruct H as (Hn & Hv & _).
  - reflexivity.
  - repeat constructor.
  - rewrite Hn, Hv. reflexivity.
Defined.

(** C1 as the specification words it fails: the columns and operators
    of the calls are not all the text that is rendered.  A builder made
    for the table [t?], with no call at all, renders one [?] and returns
    no value. *)
Lemma where_placeholders_counterexample :
  Forall free_call []
  /\ rendered_after "t?" (map where_call []) [] = ("SELECT * FROM t?", [])
  /\ Str.count_char "?" (fst (rendered_after "t?" (map where_call []) []))
     <> length (snd (rendered_after "t?" (map where_call []) [])).
Proof.
  split; [constructor|]. split; [reflexivity|].
  vm_compute. discriminate.
Qed.

(** C2.  On a builder that holds the conditions [init ++ [lastc]],
    [orWhere] takes [lastc] away and puts [lastc OR column operator ?]
    in its place, leaving [init] as it was, and pushes the value; on a
    builder with no condition it does what [where] does.  After
    [where('age','>',18)], [orWhere('status','=',v)] leaves the one
    condition [age > ? OR status = ?]. *)
Theorem orWhere_binds_to_last
    (q : t) (h : Heap) (init : list string)
    (lastc column operator tableName : string) (value : JsValue) :
  orWhere column operator value (set_whereConditions (init ++ [lastc]) q) h
    = (set_whereConditions
         (init ++ [lastc +:+ " OR " +:+ column +:+ " " +:+ operator +:+ " ?"]) q,
       push (_whereValues q) [value] h)
  /\ orWhere column operator value (set_whereConditions [] q) h
     = where_ column operator value (set_whereConditions [] q) h
  /\ _whereConditions
       (fst (calls [where_ "age" ">" (JsNumber 18);
                    orWhere "status" "=" value]
               (fst (new tableName h)) (snd (new tableName h))))
     = ["age > ? OR status = ?"]
  /\ rendered_after "users"
       [where_ "age" ">" (JsNumber 18); orWhere "status" "=" value] h
     = ("SELECT * FROM users WHERE age > ? OR status = ?",
        [JsNumber 18; value]).
Proof.
  repeat split.
  - unfold orWhere. cbn [_whereConditions set_whereConditions _whereValues].
    rewrite length_app, Nat.add_comm. cbn [length Nat.add Nat.ltb Nat.leb].
    rewrite List.last_last, List.removelast_last. reflexivity.
  - rewrite rendered_after_calls. cbn [calls andThen new alloc fst snd].
    unfold where_, orWhere. cbn. f_equal.
    rewrite !read_push by (rewrite ?length_push, length_app; cbn; lia).
    now rewrite read_alloc_new.
Qed.

(** C3.  With an empty list of values [whereIn] pushes the condition
    [1 = 0] and no value, and [whereNotIn] changes neither the
    conditions nor the values, whatever the column. *)
Theorem whereIn_whereNotIn_empty
    (column tableName : string) (q : t) (h : Heap) :
  whereIn column [] q h
    = (set_whereConditions (_whereConditions q ++ ["1 = 0"]) q, h)
  /\ whereNotIn column [] q h = (q, h)
  /\ rendered_after tableName [whereIn column []] h
     = ("SELECT * FROM " +:+ tableName +:+ " WHERE 1 = 0", [])
  /\ rendered_after tableName [whereNotIn column []] h
     = ("SELECT * FROM " +:+ tableName, []).
Proof.
  repeat split.
  - rewrite rendered_after_calls. cbn [calls andThen whereIn length Nat.eqb].
    cbn [fst snd].
    rewrite (new_read tableName h : read (_whereValues (push_condition _ _)) _ = []).
    reflexivity.
  - rewrite rendered_after_calls. cbn [calls andThen whereNotIn length Nat.eqb].
    cbn [fst snd]. rewrite new_read. reflexivity.
Qed.

(** Every call keeps the builder's array where it is, and allocates
    nothing. *)
Lemma call_allocated o q h :
  _whereValues (fst (call o q h)) = _whereValues q
  /\ length (snd (call o q h)) = length h.
Proof.
  destruct o; cbn [call];
    unfold whereIn, whereNotIn, orWhere, paginate, andThen, limit, offset;
    try destruct (Nat.eqb _ _); try destruct (Nat.ltb _ _); cbn [fst snd];
    (split; [reflexivity | first [reflexivity | apply length_push]]).
Qed.

(** The builders the interface can produce hold an allocated array. *)
Lemma reachable_allocated ops : forall q h,
  allocated q h ->
  allocated (fst (calls (map call ops) q h)) (snd (calls (map call ops) q h)).
Proof.
  induction ops as [|o ops IH]; intros q h Hq; [exact Hq|].
  cbn [map]. rewrite calls_cons. apply IH.
  destruct (call_allocated o q h) as [Hl Hh].
  unfold allocated in *. now rewrite Hl, Hh.
Qed.

Lemma add_joins_part q text :
  add_joins q text = text +:+ joins_part (_joins q).
Proof.
  unfold add_joins, joins_part. destruct (_joins q); cbn [length Nat.ltb Nat.leb].
  - now rewrite sapp_nil_r.
  - reflexivity.
Qed.

Lemma add_where_part q text :
  add_where q text = text +:+ where_part (_whereConditions q).
Proof.
  unfold add_where, where_part.
  destruct (_whereConditions q); cbn [length Nat.ltb Nat.leb].
  - now rewrite sapp_nil_r.
  - reflexivity.
Qed.

Lemma add_clause_part clause text :
  add_clause clause text = text +:+ clause_part clause.
Proof.
  unfold add_clause, clause_part. destruct clause; cbn [Str.truthy].
  - now rewrite sapp_nil_r.
  - reflexivity.
Qed.

Lemma toSQL_text_parts q :
  toSQL_text q
    = "SELECT " +:+ distinct_part (_distinct q) +:+
      Str.join ", " (_selectColumns q) +:+ " FROM " +:+ _tableName q +:+
      joins_part (_joins q) +:+ where_part (_whereConditions q) +:+
      clause_part (_groupByClause q) +:+ clause_part (_havingClause q) +:+
      clause_part (_orderByClause q) +:+ clause_part (_limitClause q) +:+
      clause_part (_offsetClause q).
Proof.
  unfold toSQL_text.
  rewrite !add_clause_part, add_where_part, add_joins_part.
  destruct (_distinct q); cbn [distinct_part]; now rewrite !sapp_assoc.
Qed.

Lemma toCountSQL_text_parts q :
  toCountSQL_text q
    = "SELECT COUNT(*) as count FROM " +:+ _tableName q +:+
      joins_part (_joins q) +:+ where_part (_whereConditions q) +:+
      clause_part (_groupByClause q) +:+ clause_part (_havingClause q).
Proof.
  unfold toCountSQL_text.
  rewrite !add_clause_part, add_where_part, add_joins_part.
  now rewrite !sapp_assoc.
Qed.

(** C4 (as amended).  [toSQL] renders [SELECT], [DISTINCT] if asked,
    the columns, [FROM] and the table, then the joins, [WHERE],
    [GROUP BY], [HAVING], [ORDER BY], [LIMIT] and [OFFSET] that are
    present, in this order; [toCountSQL] renders
    "SELECT COUNT(*) as count FROM " and the table, then the joins,
    [WHERE], [GROUP BY] and [HAVING] that are present, and nothing of the
    columns, [ORDER BY], [LIMIT] or [OFFSET].  Both return a newly
    allocated array with the elements of the builder's own: whatever is
    done to the array returned, the builder's array keeps its elements. *)
Theorem toSQL_clause_order_and_copy (q : t) (h : Heap) :
  allocated q h ->
  toSQL_text q
    = "SELECT " +:+ distinct_part (_distinct q) +:+
      Str.join ", " (_selectColumns q) +:+ " FROM " +:+ _tableName q +:+
      joins_part (_joins q) +:+ where_part (_whereConditions q) +:+
      clause_part (_groupByClause q) +:+ clause_part (_havingClause q) +:+
      clause_part (_orderByClause q) +:+ clause_part (_limitClause q) +:+
      clause_part (_offsetClause q)
  /\ toCountSQL_text q
    = "SELECT COUNT(*) as count FROM " +:+ _tableName q +:+
      joins_part (_joins q) +:+ where_part (_whereConditions q) +:+
      clause_part (_groupByClause q) +:+ clause_part (_havingClause q)
  /\ sql (fst (toSQL q h)) = toSQL_text q
  /\ sql (fst (toCountSQL q h)) = toCountSQL_text q
  /\ returns_copy toSQL q h
  /\ returns_copy toCountSQL q h.
Proof.
  intros Hq. split; [|split; [|split; [reflexivity|split; [reflexivity|]]]].
  - apply toSQL_text_parts.
  - apply toCountSQL_text_parts.
  - unfold allocated in Hq.
    assert (Hcopy : forall text,
      returns_copy
        (fun q h => let (l, h') := alloc (read (_whereValues q) h) h in
                    ({| sql := text q; values := l |}, h')) q h).
    { intros text. unfold returns_copy, alloc. cbn [fst snd values].
      repeat split.
      - lia.
      - lia.
      - apply read_alloc_new.
      - now apply read_alloc_old.
      - intros vs. unfold mutate, read.
        rewrite list_lookup_insert_ne by lia.
        now rewrite lookup_app_l by lia. }
    split; [apply (Hcopy toSQL_text) | apply (Hcopy toCountSQL_text)].
Qed.

Lemma toSQL_clause_order_and_copy_witness :
  read 0
    (mutate
       (values (fst (toSQL (fst (calls [where_ "age" ">" (JsNumber 18)]
                                    (fst (new "users" []))
                                    (snd (new "users" []))))
                       (snd (calls [where_ "age" ">" (JsNumber 18)]
                               (fst (new "users" []))
                               (snd (new "users" [])))))))
       [JsNull; JsNull]
       (snd (toSQL (fst (calls [where_ "age" ">" (JsNumber 18)]
                           (fst (new "users" [])) (snd (new "users" []))))
                   (snd (calls [where_ "age" ">" (JsNumber 18)]
                           (fst (new "users" [])) (snd (new "users" [])))))))
  = [JsNumber 18].
Proof.
  pose proof (toSQL_clause_order_and_copy
    (fst (calls [where_ "age" ">" (JsNumber 18)]
            (fst (new "users" [])) (snd (new "users" []))))
    (snd (calls [where_ "age" ">" (JsNumber 18)]
            (fst (new "users" [])) (snd (new "users" []))))) as H.
  destruct H as (_ & _ & H).
  - vm_compute. lia.
  - destruct H as (_ & _ & (_ & _ & _ & _ & Hm) & _).
    exact (Hm [JsNull; JsNull]).
Defined.

(** C4 as the specification words it fails on the letter case of one
    keyword: the count query is rendered with [as], not [AS]. *)
Lemma toCountSQL_text_counterexample :
  sql (fst (toCountSQL (fst (new "users" [])) (snd (new "users" []))))
    = "SELECT COUNT(*) as count FROM users"
  /\ sql (fst (toCountSQL (fst (new "users" [])) (snd (new "users" []))))
    <> "SELECT COUNT(*) AS count FROM users".
Proof. split; [reflexivity|]. vm_compute. discriminate. Qed.

End QueryBuilderFacts.

(** ** TableBuilder *)

Module TableBuilderFacts.

Import TableBuilder StrFacts.

Lemma call_modifier_fragment m : call_modifier m = modifier (fragment m).
Proof. now destruct m. Qed.

Lemma chain_cons m ms s :
  chain (m :: ms) s
    = match m s with
      | (Returned _, s') => chain ms s'
      | (Thrown e, s') => (Thrown e, s')
      end.
Proof. reflexivity. Qed.

Lemma definition_parts col :
  definition col = name col +:+ " " +:+ type col +:+ modifiers_part (modifiers col).
Proof.
  unfold definition, modifiers_part.
  destruct (modifiers col); cbn [length Nat.ltb Nat.leb].
  - now rewrite sapp_nil_r.
  - now rewrite !sapp_assoc.
Qed.

(** Modifier calls made while [c] is the current column, the last of
    [_columns], push their fragments on [c] in the order of the calls. *)
Lemma chain_modifiers ms : forall tn cols c cons,
  chain (map call_modifier ms)
    {| _tableName := tn; _columns := cols ++ [c]; _constraints := cons;
       _currentColumn := Some (length cols) |}
  = (Returned tt,
     {| _tableName := tn;
        _columns :=
          cols ++ [{| name := name c; type := type c;
                      modifiers := modifiers c ++ map fragment ms |}];
        _constraints := cons;
        _currentColumn := Some (length cols) |}).
Proof.
  induction ms as [|m ms IH]; intros tn cols c cons.
  - cbn. rewrite List.app_nil_r. now destruct c.
  - cbn [map]. rewrite chain_cons, call_modifier_fragment.
    unfold modifier at 1.
    cbn [_currentColumn _columns _tableName _constraints].
    assert (E : alter (push_modifier (fragment m)) (length cols) (cols ++ [c])
                = cols ++ [push_modifier (fragment m) c]).
    { rewrite <- (Nat.add_0_r (length cols)) at 1. now rewrite alter_app_r. }
    rewrite E, IH. unfold push_modifier.
    cbn [name type modifiers map]. now rewrite <- List.app_assoc.
Qed.

(** C6.  [build] renders every column as its name, a space and its
    type, followed by its modifiers with a space before each; it leaves
    the builder as it was, and a second [build] returns what the first
    returned.  The modifiers of a column are in the order of the calls:
    a column declared as [c] on which the modifier calls [ms] are then
    made is rendered with the fragments of [ms] in that order, after the
    modifiers [c] was declared with. *)
Theorem build_renders_in_call_order
    (s : t) (c : ColumnBuilder) (ms : list Modifier) :
  fst (build s)
    = Returned
        {| columns :=
             map (fun col => name col +:+ " " +:+ type col +:+
                             modifiers_part (modifiers col)) (_columns s);
           constraints := _constraints s |}
  /\ snd (build s) = s
  /\ fst (build (snd (build s))) = fst (build s)
  /\ fst ((declare c ;;; chain (map call_modifier ms) ;;; build) s)
     = Returned
         {| columns :=
              map definition (_columns s) ++
              [name c +:+ " " +:+ type c +:+
               modifiers_part (modifiers c ++ map fragment ms)];
            constraints := _constraints s |}.
Proof.
  repeat split.
  - unfold build. cbn [fst]. do 2 f_equal.
    apply map_ext. intros col. apply definition_parts.
  - unfold bind at 1. unfold declare at 1.
    unfold bind at 1. rewrite chain_modifiers.
    unfold build. cbn [fst _columns _constraints]. do 2 f_equal.
    rewrite map_app. cbn [map]. f_equal. f_equal.
    now rewrite definition_parts.
Qed.

Lemma modifier_no_column m s :
  _currentColumn s = None ->
  call_modifier m s = (Thrown no_column_selected, s).
Proof.
  intros Hs. rewrite call_modifier_fragment. unfold modifier. now rewrite Hs.
Qed.

(** A constraint call returns, and touches neither the columns nor the
    current column. *)
Lemma call_constraint_returns c s :
  fst (call_constraint c s) = Returned tt
  /\ _currentColumn (snd (call_constraint c s)) = _currentColumn s
  /\ _columns (snd (call_constraint c s)) = _columns s.
Proof.
  destruct c; cbn [call_constraint];
    unfold references, onDelete, onUpdate, on_action;
    try destruct (lastConstraint s) as [lc|];
    try destruct (Str.truthy lc && _); now repeat split.
Qed.

Lemma chain_constraints_returns cs : forall s,
  fst (chain (map call_constraint cs) s) = Returned tt
  /\ _currentColumn (snd (chain (map call_constraint cs) s)) = _currentColumn s
  /\ _columns (snd (chain (map call_constraint cs) s)) = _columns s.
Proof.
  induction cs as [|c cs IH]; intros s; [now repeat split|].
  cbn [map]. rewrite chain_cons.
  destruct (call_constraint_returns c s) as (Hr & Hc & Hl).
  destruct (call_constraint c s) as [[[]|e] s']; cbn [fst snd] in *;
    [|discriminate].
  destruct (IH s') as (Hr' & Hc' & Hl').
  now rewrite Hr', Hc', Hl', Hc, Hl.
Qed.

(** C7.  On a builder that was just made, and on which constraint calls
    but no column-declaring call were made since, every modifier call
    throws the error [No column selected] and leaves the builder as it
    was. *)
Theorem modifier_before_column_throws
    (tableName : string) (pre : list ConstraintCall) (m : Modifier) :
  call_modifier m (new tableName) = (Thrown no_column_selected, new tableName)
  /\ fst (call_modifier m (snd (chain (map call_constraint pre) (new tableName))))
     = Thrown (Error "No column selected. Call a column type method first.")
  /\ snd (call_modifier m (snd (chain (map call_constraint pre) (new tableName))))
     = snd (chain (map call_constraint pre) (new tableName)).
Proof.
  split; [now apply modifier_no_column|].
  destruct (chain_constraints_returns pre (new tableName)) as (_ & Hc & _).
  rewrite (modifier_no_column m _ Hc). now split.
Qed.

Lemma lastConstraint_snoc s init lc :
  _constraints s = init ++ [lc] -> lastConstraint s = Some lc.
Proof.
  intros E. unfold lastConstraint. rewrite E, length_app, Nat.add_comm.
  cbn [length Nat.add]. apply list_lookup_middle. reflexivity.
Qed.

Lemma lastConstraint_inv s lc :
  lastConstraint s = Some lc -> exists init, _constraints s = init ++ [lc].
Proof.
  unfold lastConstraint.
  destruct (_constraints s) as [|x l] using rev_ind; [discriminate|].
  rewrite length_app, Nat.add_comm. cbn [length Nat.add].
  rewrite list_lookup_middle by reflexivity.
  intros [= ->]. now exists l.
Qed.

Lemma set_lastConstraint_snoc s init lc x :
  _constraints s = init ++ [lc] ->
  set_lastConstraint x s = set_constraints (init ++ [x]) s.
Proof.
  intros E. unfold set_lastConstraint. f_equal.
  rewrite E, length_app, Nat.add_sub.
  rewrite <- (Nat.add_0_r (length init)) at 1. now rewrite insert_app_r.
Qed.

Lemma startsWith_truthy lc pre :
  Str.truthy pre = true -> Str.startsWith lc pre = true -> Str.truthy lc = true.
Proof. destruct pre; [discriminate|]. now destruct lc. Qed.

Lemma includes_truthy lc sub :
  Str.truthy sub = true -> Str.includes lc sub = true -> Str.truthy lc = true.
Proof. destruct sub; [discriminate|]. now destruct lc. Qed.

(** The two guards, seen on the list of constraints. *)
Lemma references_amends s tableColumn init lc :
  _constraints s = init ++ [lc] ->
  Str.startsWith lc "FOREIGN KEY" = true ->
  references tableColumn s
    = (Returned tt, set_constraints (init ++ [referenced lc tableColumn]) s).
Proof.
  intros E Hg. unfold references.
  rewrite (lastConstraint_snoc s init lc E), Hg.
  rewrite (startsWith_truthy lc "FOREIGN KEY" eq_refl Hg). cbn [andb].
  now rewrite (set_lastConstraint_snoc s init lc _ E).
Qed.

Lemma references_dropped s tableColumn :
  (forall init lc, _constraints s = init ++ [lc] ->
                   Str.startsWith lc "FOREIGN KEY" = false) ->
  references tableColumn s = (Returned tt, s).
Proof.
  intros Hg. unfold references.
  destruct (lastConstraint s) as [lc|] eqn:E; [|reflexivity].
  destruct (lastConstraint_inv s lc E) as [init Hi].
  now rewrite (Hg init lc Hi), andb_false_r.
Qed.

Lemma on_action_amends s event action init lc :
  _constraints s = init ++ [lc] ->
  Str.includes lc "REFERENCES" = true ->
  on_action event action s
    = (Returned tt,
       set_constraints
         (init ++ [lc +:+ " ON " +:+ event +:+ " " +:+ action]) s).
Proof.
  intros E Hg. unfold on_action.
  rewrite (lastConstraint_snoc s init lc E), Hg.
  rewrite (includes_truthy lc "REFERENCES" eq_refl Hg). cbn [andb].
  now rewrite (set_lastConstraint_snoc s init lc _ E).
Qed.

Lemma on_action_dropped s event action :
  (forall init lc, _constraints s = init ++ [lc] ->
                   Str.includes lc "REFERENCES" = false) ->
  on_action event action s = (Returned tt, s).
Proof.
  intros Hg. unfold on_action.
  destruct (lastConstraint s) as [lc|] eqn:E; [|reflexivity].
  destruct (lastConstraint_inv s lc E) as [init Hi].
  now rewrite (Hg init lc Hi), andb_false_r.
Qed.

(** C8.  [references] rewrites the last constraint when it starts with
    [FOREIGN KEY], and only then; [onDelete] and [onUpdate] rewrite it
    when it contains [REFERENCES], and only then.  When the guard does
    not hold, for a last constraint of another kind or for no
    constraint at all, the call returns and the builder, its
    constraints included, is as it was. *)
Theorem foreign_key_calls_guarded (s : t) (tableColumn action : string) :
  (forall init lc,
     _constraints s = init ++ [lc] ->
     Str.startsWith lc "FOREIGN KEY" = true ->
     references tableColumn s
       = (Returned tt,
          set_constraints (init ++ [referenced lc tableColumn]) s))
  /\ ((forall init lc, _constraints s = init ++ [lc] ->
                       Str.startsWith lc "FOREIGN KEY" = false) ->
      references tableColumn s = (Returned tt, s))
  /\ (forall init lc,
        _constraints s = init ++ [lc] ->
        Str.includes lc "REFERENCES" = true ->
        onDelete action s
          = (Returned tt,
             set_constraints (init ++ [lc +:+ " ON DELETE " +:+ action]) s)
        /\ onUpdate action s
          = (Returned tt,
             set_constraints (init ++ [lc +:+ " ON UPDATE " +:+ action]) s))
  /\ ((forall init lc, _constraints s = init ++ [lc] ->
                       Str.includes lc "REFERENCES" = false) ->
      onDelete action s = (Returned tt, s)
      /\ onUpdate action s = (Returned tt, s)).
Proof.
  split; [|split; [|split]].
  - intros init lc. apply references_amends.
  - apply references_dropped.
  - intros init lc E Hg. split; now apply on_action_amends.
  - intros Hg. split; now apply on_action_dropped.
Qed.

(** [onDelete] before [references], and [references] with no
    constraint: both are dropped. *)
Lemma foreign_key_calls_guarded_witness :
  onDelete "CASCADE" (snd (foreignKey "user_id" (new "posts")))
    = (Returned tt, snd (foreignKey "user_id" (new "posts")))
  /\ references "users.id" (new "posts") = (Returned tt, new "posts")
  /\ references "users.id" (snd (foreignKey "user_id" (new "posts")))
     = (Returned tt,
        set_constraints ["FOREIGN KEY (user_id) REFERENCES users(id)"]
          (new "posts")).
Proof.
  split; [|split].
  - apply (foreign_key_calls_guarded
             (snd (foreignKey "user_id" (new "posts"))) "users.id" "CASCADE").
    intros init lc E.
    destruct init as [|x init]; cbn in E.
    + injection E as <-. reflexivity.
    + destruct init; discriminate.
  - apply (foreign_key_calls_guarded (new "posts") "users.id" "CASCADE").
    intros init lc E. destruct init; discriminate.
  - apply (proj1 (foreign_key_calls_guarded
                    (snd (foreignKey "user_id" (new "posts")))
                    "users.id" "CASCADE") [] "FOREIGN KEY (user_id)");
      reflexivity.
Defined.

End TableBuilderFacts.

(** ** SQLiteTool *)

Module SQLiteToolFacts.

Import SQLiteTool StrFacts.

Section Transaction.

Context {World Row T : Type}.
Variable self : t World Row.
Variable db : Database World Row.
Hypothesis Hconnected : connected self db.

Lemma ensureConnected_returns w : _ensureConnected self w = (Returned tt, w).
Proof.
  destruct Hconnected as [Hc Hd]. unfold _ensureConnected.
  now rewrite Hc, Hd.
Qed.

Lemma on_db_connected {A} m (f : Database World Row -> M World A) :
  on_db self m f = f db.
Proof. destruct Hconnected as [_ Hd]. unfold on_db. now rewrite Hd. Qed.

(** [transaction] on a connected tool, step by step. *)
Lemma transaction_steps (callback : M World T) options w :
  transaction self callback options w
    = match exec db (begin_statement options) w with
      | (Returned _, w1) =>
          match callback w1 with
          | (Returned r, w2) =>
              match exec db "COMMIT" w2 with
              | (Returned _, w3) => (Returned r, w3)
              | (Thrown e, wf) =>
                  match exec db "ROLLBACK" wf with
                  | (Returned _, w') => (Thrown e, w')
                  | (Thrown e', w') => (Thrown e', w')
                  end
              end
          | (Thrown e, wf) =>
              match exec db "ROLLBACK" wf with
              | (Returned _, w') => (Thrown e, w')
              | (Thrown e', w') => (Thrown e', w')
              end
          end
      | (Thrown e, wf) =>
          match exec db "ROLLBACK" wf with
          | (Returned _, w') => (Thrown e, w')
          | (Thrown e', w') => (Thrown e', w')
          end
      end.
Proof.
  unfold transaction, try_catch, bind.
  rewrite ensureConnected_returns, !on_db_connected.
  fold (begin_statement options).
  destruct (exec db (begin_statement options) w) as [[[]|e] w1];
    [|now destruct (exec db "ROLLBACK" w1) as [[[]|e'] w']].
  destruct (callback w1) as [[r|e] w2];
    [|now destruct (exec db "ROLLBACK" w2) as [[[]|e'] w']].
  destruct (exec db "COMMIT" w2) as [[[]|e] w3]; [reflexivity|].
  now destruct (exec db "ROLLBACK" w3) as [[[]|e'] w'].
Qed.

End Transaction.

(** C5.  On a connected tool: when [BEGIN], the callback and [COMMIT]
    all return, [transaction] returns what the callback returned, in
    the world [COMMIT] left; when one of the three throws [e],
    [ROLLBACK] is executed in the world of the failure, and
    [transaction] throws [e] if [ROLLBACK] returns, and what [ROLLBACK]
    throws if it throws.  Without an isolation in the options the
    transaction is opened as [DEFERRED]. *)
Theorem transaction_commits_or_rolls_back
    {World Row T : Type} (self : t World Row) (db : Database World Row)
    (callback : M World T) (options : TransactionOptions) (w : World) :
  connected self db ->
  (forall w1 r w2 w3,
     exec db (begin_statement options) w = (Returned tt, w1) ->
     callback w1 = (Returned r, w2) ->
     exec db "COMMIT" w2 = (Returned tt, w3) ->
     transaction self callback options w = (Returned r, w3))
  /\ (forall e wf,
        FailsAt db callback options w e wf ->
        (forall w', exec db "ROLLBACK" wf = (Returned tt, w') ->
                    transaction self callback options w = (Thrown e, w'))
        /\ (forall e' w', exec db "ROLLBACK" wf = (Thrown e', w') ->
                          transaction self callback options w = (Thrown e', w')))
  /\ begin_statement {| isolation := None |} = "BEGIN DEFERRED TRANSACTION".
Proof.
  intros Hc. split; [|split; [|reflexivity]].
  - intros w1 r w2 w3 Hb Hk Hm.
    now rewrite (transaction_steps self db Hc), Hb, Hk, Hm.
  - intros e wf Hf.
    split; [intros w' Hr | intros e' w' Hr];
      rewrite (transaction_steps self db Hc);
      destruct Hf as [Hb | w1 Hb Hk | w1 w2 r Hb Hk Hm];
      now rewrite ?Hb, ?Hk, ?Hm, Hr.
Qed.

(** A callback that returns 7 while [COMMIT] is refused: the refusal of
    [COMMIT] is thrown after [ROLLBACK]; when [ROLLBACK] is refused
    too, its refusal is thrown. *)
Lemma transaction_commits_or_rolls_back_witness :
  transaction (Recording.tool ["COMMIT"] 0) (ret 7%Z)
    {| isolation := None |} []
    = (Thrown (Recording.refused "COMMIT"),
       ["BEGIN DEFERRED TRANSACTION"; "COMMIT"; "ROLLBACK"])
  /\ transaction (Recording.tool ["COMMIT"; "ROLLBACK"] 0) (ret 7%Z)
       {| isolation := None |} []
     = (Thrown (Recording.refused "ROLLBACK"),
        ["BEGIN DEFERRED TRANSACTION"; "COMMIT"; "ROLLBACK"])
  /\ transaction (Recording.tool [] 0) (ret 7%Z) {| isolation := None |} []
     = (Returned 7%Z, ["BEGIN DEFERRED TRANSACTION"; "COMMIT"]).
Proof.
  split; [|split].
  - refine (proj1 (proj1 (proj2
      (transaction_commits_or_rolls_back
         (Recording.tool ["COMMIT"] 0) (Recording.database ["COMMIT"] 0)
         (ret 7%Z) {| isolation := None |} [] (conj eq_refl eq_refl)))
      (Recording.refused "COMMIT")
      ["BEGIN DEFERRED TRANSACTION"; "COMMIT"] _) _ _).
    + apply (CommitFails _ _ _ _ _ _
               ["BEGIN DEFERRED TRANSACTION"] ["BEGIN DEFERRED TRANSACTION"]
               7%Z); reflexivity.
    + reflexivity.
  - refine (proj2 (proj1 (proj2
      (transaction_commits_or_rolls_back
         (Recording.tool ["COMMIT"; "ROLLBACK"] 0)
         (Recording.database ["COMMIT"; "ROLLBACK"] 0)
         (ret 7%Z) {| isolation := None |} [] (conj eq_refl eq_refl)))
      (Recording.refused "COMMIT")
      ["BEGIN DEFERRED TRANSACTION"; "COMMIT"] _) _ _ _).
    + apply (CommitFails _ _ _ _ _ _
               ["BEGIN DEFERRED TRANSACTION"] ["BEGIN DEFERRED TRANSACTION"]
               7%Z); reflexivity.
    + reflexivity.
  - refine (proj1
      (transaction_commits_or_rolls_back
         (Recording.tool [] 0) (Recording.database [] 0)
         (ret 7%Z) {| isolation := None |} [] (conj eq_refl eq_refl))
      ["BEGIN DEFERRED TRANSACTION"] 7%Z ["BEGIN DEFERRED TRANSACTION"]
      _ _ _ _); reflexivity.
Defined.

(** [Math.ceil(a / b)] for a positive [b] is the least integer whose
    product with [b] reaches [a]. *)
(** The quotients of the embedding are those the kernel's binary64
    division gives, on pairs that round down, round up, fall on a tie,
    or are subnormal. *)
Lemma quotients_as_primitive_division :
  forallb (fun p => Binary64.as_primitive_division (fst p) (snd p))
    [ (25, 10); (1, 3); (2, 3); (10, 4); (7, 1); (1, 10); (1, 1024);
      (9007199254740991, 2); (9007199254740991, 3);
      (9007199254740991, 9007199254740990);
      (13510798882111492, 3); (2 ^ 53 + 2, 4); (2 ^ 53 + 6, 4);
      (2 ^ 60, 7); (1, 2 ^ 1023); (3, 2 ^ 1023);
      (2 ^ 1024 - 2 ^ 971, 3) ]%Z
  = true.
Proof. vm_compute. reflexivity. Qed.

Lemma pow2_of_nonneg k : (0 <= k)%Z -> Binary64.pow2 k = (2 ^ k)%Z.
Proof. intros H. unfold Binary64.pow2. now rewrite Z.max_r. Qed.

Lemma pow2_of_nonpos k : (k <= 0)%Z -> Binary64.pow2 k = 1%Z.
Proof. intros H. unfold Binary64.pow2. now rewrite Z.max_l. Qed.

(** The quotient is not below two to its exponent. *)
Lemma exponent_below a b :
  (0 < a)%Z -> (0 < b)%Z ->
  (b * Binary64.pow2 (Binary64.exponent a b)
   <= a * Binary64.pow2 (- Binary64.exponent a b))%Z.
Proof.
  intros Ha Hb. unfold Binary64.exponent.
  destruct (Z.log2_spec a Ha) as [La Ua].
  destruct (Z.log2_spec b Hb) as [Lb Ub].
  pose proof (Z.log2_nonneg a) as Na. pose proof (Z.log2_nonneg b) as Nb.
  set (la := Z.log2 a) in *. set (lb := Z.log2 b) in *.
  destruct (Z.leb_spec (b * Binary64.pow2 (la - lb))
              (a * Binary64.pow2 (- (la - lb)))); [assumption|].
  destruct (Z.le_gt_cases 1 (la - lb)) as [Hd|Hd].
  - rewrite (pow2_of_nonneg (la - lb - 1)), (pow2_of_nonpos (- (la - lb - 1)))
      by lia.
    assert (E : (2 ^ Z.succ lb * 2 ^ (la - lb - 1) = 2 ^ la)%Z).
    { rewrite <- Z.pow_add_r by lia. f_equal. lia. }
    assert (0 < 2 ^ (la - lb - 1))%Z by (apply Z.pow_pos_nonneg; lia).
    nia.
  - rewrite (pow2_of_nonpos (la - lb - 1)), (pow2_of_nonneg (- (la - lb - 1)))
      by lia.
    assert (E : (2 ^ la * 2 ^ (- (la - lb - 1)) = 2 ^ Z.succ lb)%Z).
    { rewrite <- Z.pow_add_r by lia. f_equal. lia. }
    assert (0 < 2 ^ (- (la - lb - 1)))%Z by (apply Z.pow_pos_nonneg; lia).
    nia.
Qed.

Lemma exponent_range a b :
  (0 < a < 2 ^ 53)%Z -> (0 < b < 2 ^ 53)%Z ->
  (-53 <= Binary64.exponent a b <= 52)%Z.
Proof.
  intros Ha Hb. unfold Binary64.exponent.
  pose proof (Z.log2_nonneg a). pose proof (Z.log2_nonneg b).
  assert (Z.log2 a < 53)%Z by (apply Z.log2_lt_pow2; lia).
  assert (Z.log2 b < 53)%Z by (apply Z.log2_lt_pow2; lia).
  destruct (_ <=? _)%Z; lia.
Qed.

(** Rounding gives the floor of the quotient when the remainder is at
    most half the divisor, and one more when it is at least half. *)
Lemma nearest_even_cases n d :
  (0 < d)%Z ->
  (Binary64.nearest_even n d = n / d /\ 2 * (n mod d) <= d)%Z
  \/ (Binary64.nearest_even n d = n / d + 1 /\ d <= 2 * (n mod d))%Z.
Proof.
  intros Hd. unfold Binary64.nearest_even.
  destruct (Z.ltb_spec (2 * (n mod d)) d); [left; lia|].
  destruct (Z.ltb_spec d (2 * (n mod d))); [right; lia|].
  destruct (Z.even (n / d)); [left|right]; lia.
Qed.

(** The quotient is below two to its exponent plus one. *)
Lemma exponent_above a b :
  (0 < a)%Z -> (0 < b)%Z ->
  (a * Binary64.pow2 (- (Binary64.exponent a b + 1))
   < b * Binary64.pow2 (Binary64.exponent a b + 1))%Z.
Proof.
  intros Ha Hb. unfold Binary64.exponent.
  destruct (Z.log2_spec a Ha) as [La Ua].
  destruct (Z.log2_spec b Hb) as [Lb Ub].
  pose proof (Z.log2_nonneg a) as Na. pose proof (Z.log2_nonneg b) as Nb.
  set (la := Z.log2 a) in *. set (lb := Z.log2 b) in *.
  destruct (Z.leb_spec (b * Binary64.pow2 (la - lb))
              (a * Binary64.pow2 (- (la - lb)))) as [_|Hlt].
  - destruct (Z.le_gt_cases 0 (la - lb + 1)) as [Hd|Hd].
    + rewrite (pow2_of_nonneg (la - lb + 1)), (pow2_of_nonpos (- (la - lb + 1)))
        by lia.
      assert (E : (2 ^ lb * 2 ^ (la - lb + 1) = 2 ^ Z.succ la)%Z).
      { rewrite <- Z.pow_add_r by lia. f_equal. lia. }
      assert (0 < 2 ^ (la - lb + 1))%Z by (apply Z.pow_pos_nonneg; lia).
      nia.
    + rewrite (pow2_of_nonpos (la - lb + 1)), (pow2_of_nonneg (- (la - lb + 1)))
        by lia.
      assert (E : (2 ^ Z.succ la * 2 ^ (- (la - lb + 1)) = 2 ^ lb)%Z).
      { rewrite <- Z.pow_add_r by lia. f_equal. lia. }
      assert (0 < 2 ^ (- (la - lb + 1)))%Z by (apply Z.pow_pos_nonneg; lia).
      nia.
  - replace (la - lb - 1 + 1)%Z with (la - lb)%Z by lia. lia.
Qed.

(** The integer [nearest_even] gives is within a half of the quotient,
    and even when it is a half away. *)
Lemma nearest_even_spec n d :
  (0 < d)%Z ->
  (2 * Z.abs (Binary64.nearest_even n d * d - n) <= d)%Z
  /\ ((2 * Z.abs (Binary64.nearest_even n d * d - n))%Z = d ->
      Z.even (Binary64.nearest_even n d) = true).
Proof.
  intros Hd. unfold Binary64.nearest_even.
  pose proof (Z.div_mod n d ltac:(lia)) as E.
  pose proof (Z.mod_pos_bound n d ltac:(lia)) as B.
  set (q := (n / d)%Z) in *. set (r := (n mod d)%Z) in *.
  destruct (Z.ltb_spec (2 * r) d); [split; nia|].
  destruct (Z.ltb_spec d (2 * r)); [split; nia|].
  destruct (Z.even q) eqn:Eq; split; try nia; intros _; [exact Eq|].
  rewrite Z.even_add, Eq. reflexivity.
Qed.

(** The significand of the quotient of two safe integers has 53 bits. *)
Lemma significand_bits a b :
  (0 < a < 2 ^ 53)%Z -> (0 < b < 2 ^ 53)%Z ->
  (2 ^ 52 <= Binary64.significand a b <= 2 ^ 53)%Z.
Proof.
  intros Ha Hb.
  pose proof (exponent_range a b Ha Hb) as He.
  pose proof (exponent_below a b ltac:(lia) ltac:(lia)) as Hlow.
  pose proof (exponent_above a b ltac:(lia) ltac:(lia)) as Hhigh.
  unfold Binary64.significand, Binary64.ulp.
  set (e := Binary64.exponent a b) in *.
  rewrite (Z.max_l (e - 52) (-1074)) by lia.
  rewrite (pow2_of_nonpos (e - 52)) by lia.
  rewrite (pow2_of_nonneg (- (e - 52))) by lia.
  rewrite Z.mul_1_r.
  set (P := (2 ^ (- (e - 52)))%Z).
  assert (HP : (0 < P)%Z) by (apply Z.pow_pos_nonneg; lia).
  assert (Hl : (2 ^ 52 * b <= a * P)%Z).
  { destruct (Z.le_gt_cases 0 e) as [H0|H0].
    - rewrite (pow2_of_nonneg e), (pow2_of_nonpos (- e)) in Hlow by lia.
      assert (E : (2 ^ 52 = 2 ^ e * P)%Z).
      { unfold P. rewrite <- Z.pow_add_r by lia. f_equal. lia. }
      assert (0 < 2 ^ e)%Z by (apply Z.pow_pos_nonneg; lia).
      nia.
    - rewrite (pow2_of_nonpos e), (pow2_of_nonneg (- e)) in Hlow by lia.
      assert (E : (2 ^ 52 * 2 ^ (- e) = P)%Z).
      { unfold P. rewrite <- Z.pow_add_r by lia. f_equal. lia. }
      nia. }
  assert (Hu : (a * P < 2 ^ 53 * b)%Z).
  { destruct (Z.le_gt_cases 0 (e + 1)) as [H0|H0].
    - rewrite (pow2_of_nonneg (e + 1)), (pow2_of_nonpos (- (e + 1))) in Hhigh
        by lia.
      assert (E : (2 ^ 53 = 2 ^ (e + 1) * P)%Z).
      { unfold P. rewrite <- Z.pow_add_r by lia. f_equal. lia. }
      nia.
    - rewrite (pow2_of_nonpos (e + 1)), (pow2_of_nonneg (- (e + 1))) in Hhigh
        by lia.
      assert (E : (2 ^ 53 * 2 ^ (- (e + 1)) = P)%Z).
      { unfold P. rewrite <- Z.pow_add_r by lia. f_equal. lia. }
      nia. }
  pose proof (Z.div_mod (a * P) b ltac:(lia)) as Ediv.
  pose proof (Z.mod_pos_bound (a * P) b ltac:(lia)) as Bmod.
  destruct (nearest_even_cases (a * P) b ltac:(lia)) as [[-> _]|[-> _]];
    set (q := (a * P / b)%Z) in *; set (r := ((a * P) mod b)%Z) in *.
  all: assert (2 ^ 52 <= q)%Z by (apply Z.div_le_lower_bound; lia).
  all: assert (q < 2 ^ 53)%Z by (apply Z.div_lt_upper_bound; lia).
  all: lia.
Qed.

(** The quotient of two safe integers above zero is correctly rounded:
    [m * 2 ^ (- k)] has a significand [m] of 53 bits, is at most half a
    unit of its last place away from [a / b], and has an even
    significand when it is exactly half a unit away. *)
Lemma quotient_correctly_rounded a b :
  (0 < a < 2 ^ 53)%Z -> (0 < b < 2 ^ 53)%Z ->
  let m := Binary64.significand a b in
  let k := (- Binary64.ulp a b)%Z in
  (0 <= k)%Z
  /\ (2 ^ 52 <= m <= 2 ^ 53)%Z
  /\ (2 * Z.abs (m * b - a * 2 ^ k) <= b)%Z
  /\ ((2 * Z.abs (m * b - a * 2 ^ k))%Z = b -> Z.even m = true).
Proof.
  intros Ha Hb m k.
  pose proof (significand_bits a b Ha Hb) as Hbits. fold m in Hbits.
  pose proof (exponent_range a b Ha Hb) as He.
  subst m k. unfold Binary64.significand, Binary64.ulp in *.
  set (e := Binary64.exponent a b) in *.
  rewrite (Z.max_l (e - 52) (-1074)) in * by lia.
  rewrite (pow2_of_nonpos (e - 52)) in * by lia.
  rewrite (pow2_of_nonneg (- (e - 52))) in * by lia.
  rewrite Z.mul_1_r in *.
  split; [lia|]. split; [exact Hbits|].
  apply nearest_even_spec. lia.
Qed.






Lemma keeps_paging_skip : keeps_paging skip.
Proof. now intros q h. Qed.

Lemma keeps_paging_calls cs :
  Forall keeps_paging cs -> keeps_paging (QueryBuilder.calls cs).
Proof.
  induction 1 as [|c cs Hc _ IH]; intros q h; [now split|].
  rewrite QueryBuilderFacts.calls_cons.
  destruct (IH (fst (c q h)) (snd (c q h))) as [Hl Ho].
  destruct (Hc q h) as [Hl' Ho']. now rewrite Hl, Ho.
Qed.

Lemma keeps_paging_condition entry : keeps_paging (condition_call entry).
Proof.
  destruct entry as [key [vs|c|v]]; intros q h; cbn [condition_call];
    [|now split..].
  unfold QueryBuilder.whereIn. now destruct (Nat.eqb (length vs) 0).
Qed.

(** With a limit that is absent or zero, the calls [find] makes are
    those it makes without limit and offset, and none of them writes
    the two clauses. *)
Lemma find_calls_without_limit conditions options :
  limit options = None \/ limit options = Some 0%Z ->
  find_calls conditions options = find_calls conditions (without_paging options)
  /\ Forall keeps_paging (find_calls conditions options).
Proof.
  intros Hl. unfold find_calls.
  assert (E : if_number (limit options)
                (fun l => QueryBuilder.andThen (QueryBuilder.limit l)
                            (if_number (offset options) QueryBuilder.offset))
              = skip) by (destruct Hl as [-> | ->]; reflexivity).
  rewrite E. split; [reflexivity|].
  repeat match goal with |- Forall _ (_ :: _) => constructor end;
    [..|constructor].
  - destruct (columns options); [now intros q h | apply keeps_paging_skip].
  - apply keeps_paging_calls, Forall_map, Forall_forall.
    intros entry _. apply keeps_paging_condition.
  - destruct (orderBy options) as [[x|xs]|]; cbn [if_columns];
      try destruct (Str.truthy x); now intros q h.
  - apply keeps_paging_skip.
  - destruct (groupBy options) as [[x|xs]|]; cbn [if_columns];
      try destruct (Str.truthy x); now intros q h.
  - destruct (having options) as [x|]; cbn [if_string];
      try destruct (Str.truthy x); now intros q h.
Qed.

(** C10.  When [options.limit] is absent or zero, [find] builds the
    query it builds for the same options without limit and offset,
    whatever [options.offset] is: the builder has neither a [LIMIT]
    nor an [OFFSET] clause, and the text ends with the [ORDER BY]
    part. *)
Theorem find_offset_needs_limit
    (tableName : string) (conditions : QueryConditions)
    (options : FindOptions) :
  limit options = None \/ limit options = Some 0%Z ->
  find_query tableName conditions options
    = find_query tableName conditions (without_paging options)
  /\ QueryBuilder._limitClause
       (fst (find_builder tableName conditions options)) = EmptyString
  /\ QueryBuilder._offsetClause
       (fst (find_builder tableName conditions options)) = EmptyString
  /\ fst (find_query tableName conditions options)
     = QueryBuilder.text_without_paging
         (fst (find_builder tableName conditions options)).
Proof.
  intros Hl.
  destruct (find_calls_without_limit conditions options Hl) as [Hc Hk].
  assert (Hclauses :
    QueryBuilder._limitClause
      (fst (find_builder tableName conditions options)) = EmptyString
    /\ QueryBuilder._offsetClause
      (fst (find_builder tableName conditions options)) = EmptyString).
  { unfold find_builder. cbn [QueryBuilder.new alloc].
    apply (keeps_paging_calls _ Hk). }
  destruct Hclauses as [HL HO].
  split; [|split; [exact HL|split; [exact HO|]]].
  - unfold find_query, find_builder. now rewrite Hc.
  - unfold find_query.
    destruct (find_builder tableName conditions options) as [q h] eqn:E.
    cbn [fst] in *. unfold QueryBuilder.toSQL, alloc. cbn [fst QueryBuilder.sql].
    rewrite QueryBuilderFacts.toSQL_text_parts, HL, HO.
    unfold QueryBuilder.text_without_paging.
    cbn [QueryBuilder.clause_part]. now rewrite !sapp_nil_r.
Qed.

(** An offset without a limit is not rendered; with a limit it is. *)
Lemma find_offset_needs_limit_witness :
  find_query "users" []
    {| limit := None; offset := Some 20%Z; orderBy := None;
       direction := None; groupBy := None; having := None;
       distinct := None; columns := None |}
    = ("SELECT * FROM users", [])
  /\ find_query "users" []
       {| limit := Some 10%Z; offset := Some 20%Z; orderBy := None;
          direction := None; groupBy := None; having := None;
          distinct := None; columns := None |}
     = ("SELECT * FROM users LIMIT 10 OFFSET 20", []).
Proof.
  split; [|reflexivity].
  rewrite (proj1 (find_offset_needs_limit "users" []
    {| limit := None; offset := Some 20%Z; orderBy := None;
       direction := None; groupBy := None; having := None;
       distinct := None; columns := None |} (or_introl eq_refl))).
  reflexivity.
Defined.

End SQLiteToolFacts.

(** ** QueryBuilder: the whole fluent interface *)

Module QueryBuilderOpsFacts.

Import QueryBuilder QueryBuilderOps StrFacts HeapFacts QueryBuilderFacts.

(** What one call does to the builder's array. *)
Lemma call_read o q h :
  allocated q h ->
  read (_whereValues q) (snd (call o q h))
    = read (_whereValues q) h ++ op_values o.
Proof.
  intros Hq. unfold allocated in Hq.
  destruct o; cbn [call op_values];
    unfold where_, whereRaw, whereIn, whereNotIn, whereNull, whereNotNull,
      whereBetween, whereLike, whereNotLike, orWhere, join, select, distinct,
      orderBy, groupBy, having, paginate, andThen, limit, offset;
    cbn [fst snd];
    try (now rewrite List.app_nil_r);
    try (now apply read_push).
  - destruct values0; cbn [length Nat.eqb fst snd];
      [now rewrite List.app_nil_r | now apply read_push].
  - destruct values0; cbn [length Nat.eqb fst snd];
      [now rewrite List.app_nil_r | now apply read_push].
Qed.

Lemma calls_read ops : forall q h,
  allocated q h ->
  read (_whereValues q) (snd (calls (map call ops) q h))
    = read (_whereValues q) h ++ flat_map op_values ops.
Proof.
  induction ops as [|o ops IH]; intros q h Hq.
  - cbn. now rewrite List.app_nil_r.
  - cbn [map flat_map]. rewrite calls_cons.
    destruct (call_allocated o q h) as [Hl Hh].
    assert (Hq' : allocated (fst (call o q h)) (snd (call o q h))).
    { unfold allocated in *. now rewrite Hl, Hh. }
    rewrite <- Hl at 1. rewrite (IH _ _ Hq'), Hl, call_read by exact Hq.
    now rewrite <- List.app_assoc.
Qed.

Lemma calls_whereValues ops : forall q h,
  _whereValues (fst (calls (map call ops) q h)) = _whereValues q.
Proof.
  induction ops as [|o ops IH]; intros q h; [reflexivity|].
  cbn [map]. rewrite calls_cons, IH. apply call_allocated.
Qed.

Lemma count_rendered_after_calls tableName cs h :
  count_rendered_after tableName cs h
    = (toCountSQL_text (fst (calls cs (fst (new tableName h)) (snd (new tableName h)))),
       read (_whereValues (fst (calls cs (fst (new tableName h)) (snd (new tableName h)))))
            (snd (calls cs (fst (new tableName h)) (snd (new tableName h))))).
Proof.
  unfold count_rendered_after. destruct (new tableName h) as [q0 h0].
  cbn [fst snd]. destruct (calls cs q0 h0) as [q h1]. cbn [fst snd].
  unfold toCountSQL, alloc. cbn [sql values]. now rewrite read_alloc_new.
Qed.

Lemma rendered_values tableName ops h :
  snd (rendered_after tableName (map call ops) h) = flat_map op_values ops.
Proof.
  rewrite rendered_after_calls. cbn [snd]. rewrite calls_whereValues.
  now rewrite (calls_read ops _ _ (new_allocated tableName h)), new_read.
Qed.

(** X1.  Whatever calls are made on a new builder, the array [toSQL] and
    [toCountSQL] return holds the values given to the calls, in the order
    of the calls, not in the order of the clauses: the values of a
    [having] made before a [where] come first. *)
Theorem values_in_call_order (tableName : string) (ops : list Op) (h : Heap) :
  snd (rendered_after tableName (map call ops) h) = flat_map op_values ops
  /\ snd (count_rendered_after tableName (map call ops) h)
     = flat_map op_values ops.
Proof.
  rewrite rendered_after_calls, count_rendered_after_calls. cbn [snd].
  rewrite calls_whereValues.
  rewrite (calls_read ops _ _ (new_allocated tableName h)), new_read.
  now split.
Qed.

Lemma marks_of_app a b : marks_of (a ++ b) = marks_of a + marks_of b.
Proof. unfold marks_of. now rewrite map_app, list_sum_app. Qed.

Lemma marks_of_free l : Forall free_of_placeholder l -> marks_of l = 0.
Proof.
  induction 1 as [|x l Hx _ IH]; [reflexivity|].
  unfold marks_of in *. simpl. unfold free_of_placeholder in Hx.
  now rewrite Hx, IH.
Qed.

Lemma count_join c sep l :
  Str.count_char c sep = 0 ->
  Str.count_char c (Str.join sep l) = list_sum (map (Str.count_char c) l).
Proof.
  intros Hsep. induction l as [|x l IH]; [reflexivity|].
  destruct l as [|y l].
  - change (Str.join sep [x]) with x. simpl. lia.
  - rewrite join_cons2, !count_char_app, Hsep, IH. simpl. lia.
Qed.

















End QueryBuilderOpsFacts.

Module QueryBuilderHavingFacts.

Import QueryBuilder QueryBuilderOps StrFacts QueryBuilderFacts.

(** X3.  A second [having] replaces the clause of the first but not its
    values: the text holds the second condition only, the array the
    values of both calls. *)
Theorem having_again_keeps_values
    (tableName c1 c2 : string) (vs1 vs2 : list JsValue) (h : Heap) :
  rendered_after tableName [having c1 vs1; having c2 vs2] h
    = ("SELECT * FROM " +:+ tableName +:+ " HAVING " +:+ c2, vs1 ++ vs2).
Proof.
  pose proof (QueryBuilderOpsFacts.rendered_values tableName
                [Having c1 vs1; Having c2 vs2] h) as Hv.
  cbn [map call flat_map op_values] in Hv. rewrite List.app_nil_r in Hv.
  rewrite (surjective_pairing (rendered_after _ _ _)), Hv.
  now rewrite rendered_after_calls.
Qed.

End QueryBuilderHavingFacts.

(** ** WhereBuilder *)

Module WhereBuilderFacts.

Import WhereBuilder StrFacts.

Lemma calls_conditions cs : forall b,
  _conditions (calls cs b) = _conditions b ++ flat_map words cs
  /\ _values (calls cs b) = _values b ++ flat_map call_values cs.
Proof.
  induction cs as [|c cs IH]; intros b.
  - cbn. now rewrite !List.app_nil_r.
  - cbn [calls flat_map]. destruct (IH (call c b)) as [Hc Hv].
    rewrite Hc, Hv. destruct c; cbn; now rewrite <- !List.app_assoc.
Qed.

(** X4.  [build] joins with one space the words the calls pushed, in
    order: [and] pushes its predicate and no keyword, so that a chain of
    [and] calls gives the predicates with a space between them, and [or]
    pushes the word [OR] before its predicate, also as the first call.
    The values are those of the calls, in order. *)
Theorem build_joins_words (cs : list Call) (ws : list QueryBuilder.WhereCall) :
  build (calls cs new)
    = {| clause := Str.join " " (flat_map words cs);
         values := flat_map call_values cs |}
  /\ clause
       (build (calls
          (map (fun w => And (QueryBuilder.w_column w)
                             (QueryBuilder.w_operator w)
                             (QueryBuilder.w_value w)) ws) new))
     = Str.join " " (map QueryBuilder.predicate ws).
Proof.
  split.
  - destruct (calls_conditions cs new) as [Hc Hv].
    unfold build. now rewrite Hc, Hv.
  - destruct (calls_conditions
                (map (fun w => And (QueryBuilder.w_column w)
                                   (QueryBuilder.w_operator w)
                                   (QueryBuilder.w_value w)) ws) new)
      as [Hc _].
    unfold build. cbn [clause]. rewrite Hc. cbn [new _conditions app].
    f_equal. clear Hc. induction ws as [|w ws IH]; [reflexivity|].
    cbn [map flat_map words]. rewrite IH. reflexivity.
Qed.

Lemma words_marks c :
  balanced c ->
  QueryBuilderOps.marks_of (words c) = length (call_values c).
Proof.
  unfold QueryBuilderOps.marks_of.
  destruct c as [c o v|c o v|c vs]; cbn [balanced words call_values].
  - intros [Hc Ho]. simpl. rewrite !count_char_app, Hc, Ho. reflexivity.
  - intros [Hc Ho]. simpl. rewrite !count_char_app, Hc, Ho. reflexivity.
  - intros Hc. simpl. lia.
Qed.

(** X5.  When the columns and operators of the calls hold no [?] and
    each raw condition holds one [?] for each of its values, the clause
    [build] returns holds as many [?] as there are values. *)
Theorem build_placeholders_match_values (cs : list Call) :
  Forall balanced cs ->
  Str.count_char "?" (clause (build (calls cs new)))
    = length (values (build (calls cs new))).
Proof.
  intros Hb. destruct (calls_conditions cs new) as [Hc Hv].
  unfold build. cbn [clause values]. rewrite Hc, Hv. cbn [new _conditions _values app].
  rewrite QueryBuilderOpsFacts.count_join by reflexivity.
  fold (QueryBuilderOps.marks_of (flat_map words cs)).
  induction Hb as [|c cs Hc' _ IH]; [reflexivity|].
  cbn [flat_map].
  rewrite QueryBuilderOpsFacts.marks_of_app, length_app, IH.
  - now rewrite words_marks.
  - apply calls_conditions.
  - apply calls_conditions.
Qed.

Lemma build_placeholders_match_values_witness :
  Str.count_char "?"
    (clause (build (calls [ And "age" ">" (JsNumber 18);
                            Or "role" "=" (JsString "admin");
                            Raw "score BETWEEN ? AND ?"
                                [JsNumber 1; JsNumber 5] ] new)))
  = 4.
Proof.
  rewrite (build_placeholders_match_values
             [ And "age" ">" (JsNumber 18);
               Or "role" "=" (JsString "admin");
               Raw "score BETWEEN ? AND ?" [JsNumber 1; JsNumber 5] ]).
  - reflexivity.
  - repeat constructor.
Defined.

End WhereBuilderFacts.

(** ** TableBuilder: columns, modifiers and foreign keys together *)

Module TableBuilderCallsFacts.

Import TableBuilder TableBuilderCalls StrFacts TableBuilderFacts.

Lemma modifiers_part_snoc ms m :
  modifiers_part (ms ++ [m]) = modifiers_part ms +:+ " " +:+ m.
Proof.
  destruct ms as [|x ms]; [reflexivity|].
  change ((x :: ms) ++ [m]) with (x :: (ms ++ [m])).
  cbn [modifiers_part].
  change (x :: ms ++ [m]) with ((x :: ms) ++ [m]).
  rewrite join_snoc by discriminate. now rewrite !sapp_assoc.
Qed.

Lemma definition_push_modifier m c :
  definition (push_modifier m c) = definition c +:+ " " +:+ m.
Proof.
  rewrite !definition_parts. cbn [push_modifier name type modifiers].
  now rewrite modifiers_part_snoc, !sapp_assoc.
Qed.

Lemma alter_last {A} (f : A -> A) l x :
  alter f (length l) (l ++ [x]) = l ++ [f x].
Proof. rewrite <- (Nat.add_0_r (length l)) at 1. now rewrite alter_app_r. Qed.

Lemma pointing_snoc s cols c :
  pointing s -> _columns s = cols ++ [c] ->
  _currentColumn s = Some (length cols).
Proof.
  unfold pointing. intros Hp E. rewrite Hp, E, length_app, Nat.add_comm.
  reflexivity.
Qed.

(** A modifier call on a builder whose current column is its last one. *)
Lemma modifier_on_last m s cols c :
  pointing s -> _columns s = cols ++ [c] ->
  modifier m s
    = (Returned tt,
       {| _tableName := _tableName s;
          _columns := cols ++ [push_modifier m c];
          _constraints := _constraints s;
          _currentColumn := _currentColumn s |}).
Proof.
  intros Hp E. unfold modifier.
  rewrite (pointing_snoc s cols c Hp E), E, alter_last. reflexivity.
Qed.

Lemma modifier_pointing m s : pointing s -> pointing (snd (modifier m s)).
Proof.
  unfold pointing, modifier. intros Hp.
  destruct (_currentColumn s) as [i|] eqn:E; cbn [snd _currentColumn _columns].
  - now rewrite length_alter.
  - now rewrite E.
Qed.

Lemma declare_pointing c s : pointing (snd (declare c s)).
Proof.
  unfold pointing, declare. cbn. now rewrite length_app, Nat.add_comm.
Qed.

Lemma call_pointing c s : pointing s -> pointing (snd (call c s)).
Proof.
  intros Hp. destruct c as [c|m|c]; cbn [call].
  - destruct c; cbn [call_column]; try apply declare_pointing.
    unfold date, bind. cbn [declare].
    apply (modifier_pointing _ (snd (declare (plain n "TEXT") s))).
    apply declare_pointing.
  - rewrite call_modifier_fragment. now apply modifier_pointing.
  - destruct (call_constraint_returns c s) as (_ & Hc & Hl).
    unfold pointing. now rewrite Hc, Hl.
Qed.

Lemma after_pointing cs : forall s, pointing s -> pointing (after cs s).
Proof.
  induction cs as [|c cs IH]; intros s Hp; [exact Hp|].
  cbn [after]. apply IH. now apply call_pointing.
Qed.

(** X6.  For calls whose values the embedding holds ([null],
    [undefined], booleans, safe integers, strings, valid dates, objects
    with a [toString]: those [_escapeValue] returns a text for, written
    as here).  Whatever such calls were made on a new builder, columns,
    modifiers and constraints in any order, failed modifier calls
    included: a modifier call throws exactly when no column was
    declared, and leaves the builder as it was; otherwise it returns,
    and of what [build] renders only the last column changes, by the
    fragment of the modifier added at its end. *)
Theorem modifier_amends_last_column_only
    (tableName : string) (cs : list Call) (m : Modifier) :
  Forall exact_call cs ->
  exact_modifier m ->
  (built_columns (after cs (new tableName)) = [] ->
   call_modifier m (after cs (new tableName))
     = (Thrown no_column_selected, after cs (new tableName)))
  /\ (forall init lastc,
        built_columns (after cs (new tableName)) = init ++ [lastc] ->
        fst (call_modifier m (after cs (new tableName))) = Returned tt
        /\ built_columns (snd (call_modifier m (after cs (new tableName))))
           = init ++ [lastc +:+ " " +:+ fragment m]
        /\ _constraints (snd (call_modifier m (after cs (new tableName))))
           = _constraints (after cs (new tableName))).
Proof.
  intros _ _.
  assert (Hp : pointing (after cs (new tableName)))
    by (apply after_pointing; reflexivity).
  set (s := after cs (new tableName)) in *. split.
  - intros E. apply modifier_no_column. unfold pointing in Hp.
    unfold built_columns in E. apply map_eq_nil in E. now rewrite Hp, E.
  - intros init lastc E. unfold built_columns in E.
    destruct (_columns s) as [|c cols _] eqn:Ec using rev_ind.
    { destruct init; discriminate. }
    rewrite map_app in E. cbn [map] in E.
    apply app_inj_tail in E as [Ei El].
    rewrite call_modifier_fragment, (modifier_on_last _ s cols c Hp Ec).
    cbn [fst snd _constraints]. unfold built_columns. cbn [_columns].
    rewrite map_app. cbn [map].
    now rewrite definition_push_modifier, Ei, El.
Qed.

Lemma modifier_amends_last_column_only_witness :
  call_modifier (Default (JsNumber 0)) (new "users")
    = (Thrown no_column_selected, new "users")
  /\ built_columns
       (snd (call_modifier (Default (JsNumber 0))
               (after [AddColumn (Id None); Modify Unique;
                       AddColumn (String_ "name" (Some 40%Z))] (new "users"))))
     = ["id INTEGER PRIMARY KEY AUTOINCREMENT UNIQUE";
        "name TEXT(40) DEFAULT 0"].
Proof.
  assert (S0 : exact_modifier (Default (JsNumber 0)))
    by (cbn; unfold safe_integer; lia).
  split.
  - apply (proj1 (modifier_amends_last_column_only "users" []
                    (Default (JsNumber 0)) (List.Forall_nil _) S0)).
    reflexivity.
  - refine (proj1 (proj2 (proj2 (modifier_amends_last_column_only "users"
             [AddColumn (Id None); Modify Unique;
              AddColumn (String_ "name" (Some 40%Z))]
             (Default (JsNumber 0)) _ S0)
           ["id INTEGER PRIMARY KEY AUTOINCREMENT UNIQUE"] "name TEXT(40)" _))).
    + repeat match goal with |- Forall _ (_ :: _) => constructor end;
        [..|constructor]; cbn; unfold safe_integer; try lia; exact I.
    + reflexivity.
Defined.

Lemma call_lengths c s :
  length (_columns (snd (call c s)))
    = length (_columns s) + (if declares c then 1 else 0)
  /\ length (_constraints (snd (call c s)))
    = length (_constraints s) + (if adds_constraint c then 1 else 0).
Proof.
  destruct c as [c|m|c]; cbn [call declares adds_constraint].
  - destruct c; cbn [call_column];
      unfold id, string_, text, string_, integer, real, boolean, blob, date,
        timestamp, numeric, json, bind, declare, default_, modifier;
      cbn -[alter];
      rewrite ?length_alter, length_app; cbn [length]; try lia.
  - rewrite call_modifier_fragment. unfold modifier.
    destruct (_currentColumn s); cbn [snd _columns _constraints];
      rewrite ?length_alter; try lia.
  - destruct c; cbn [call_constraint];
      unfold foreignKey, primary, uniqueConstraint, checkConstraint,
        push_constraint, references, onDelete, onUpdate, on_action,
        set_lastConstraint;
      try destruct (lastConstraint s) as [lc|];
      try destruct (Str.truthy lc && _);
      cbn [snd _columns _constraints set_constraints];
      rewrite ?length_insert, ?length_app; cbn [length]; try lia.
Qed.

Lemma after_lengths cs : forall s,
  length (_columns (after cs s))
    = length (_columns s) + length (List.filter declares cs)
  /\ length (_constraints (after cs s))
    = length (_constraints s) + length (List.filter adds_constraint cs).
Proof.
  induction cs as [|c cs IH]; intros s; [cbn; lia|].
  cbn [after]. destruct (IH (snd (call c s))) as [Hc Hk].
  destruct (call_lengths c s) as [Hc' Hk'].
  rewrite Hc, Hk, Hc', Hk'. cbn [List.filter].
  destruct (declares c), (adds_constraint c); cbn [length]; lia.
Qed.

(** X7.  After any calls on a new builder, [build] returns one column for
    each column-declaring call and one constraint for each call of
    [foreignKey], [primary], [uniqueConstraint] and [checkConstraint]:
    modifiers add no column, and [references], [onDelete] and [onUpdate]
    add and remove no constraint, whether their guard holds or not. *)
Theorem build_counts_calls (tableName : string) (cs : list Call) :
  length (built_columns (after cs (new tableName)))
    = length (List.filter declares cs)
  /\ length (_constraints (after cs (new tableName)))
    = length (List.filter adds_constraint cs).
Proof.
  unfold built_columns. rewrite length_map.
  destruct (after_lengths cs (new tableName)) as [Hc Hk].
  now rewrite Hc, Hk.
Qed.

Lemma rev_app_rev_app s : forall a b,
  String.rev_app (String.rev_app s a) b = String.rev_app a (s +:+ b).
Proof.
  induction s as [|x s IH]; intros a b; [reflexivity|].
  cbn [String.rev_app]. now rewrite IH.
Qed.

Lemma rev_rev_app s : String.rev (String.rev_app s EmptyString) = s.
Proof.
  unfold String.rev. rewrite rev_app_rev_app. cbn [String.rev_app].
  apply sapp_nil_r.
Qed.

Lemma split_go_free c s : forall cur rest,
  Str.count_char c s = 0 ->
  Str.split_go c cur (s +:+ rest) = Str.split_go c (String.rev_app s cur) rest.
Proof.
  induction s as [|x s IH]; intros cur rest Hs; [reflexivity|].
  rewrite sapp_cons. cbn [Str.count_char Str.split_go String.rev_app] in *.
  destruct (Ascii.eqb x c); [discriminate|]. now apply IH.
Qed.

(** [split] on a text with no separator, and up to the first separator. *)
Lemma split_free c s : Str.count_char c s = 0 -> Str.split c s = [s].
Proof.
  intros Hs. unfold Str.split.
  rewrite <- (sapp_nil_r s) at 1. rewrite split_go_free by exact Hs.
  cbn [Str.split_go]. now rewrite rev_rev_app.
Qed.

Lemma split_first c s rest :
  Str.count_char c s = 0 ->
  Str.split c (s +:+ String c rest) = s :: Str.split c rest.
Proof.
  intros Hs. unfold Str.split. rewrite split_go_free by exact Hs.
  cbn [Str.split_go]. now rewrite Ascii.eqb_refl, rev_rev_app.
Qed.

Lemma includes_app x y sub :
  String.prefix sub y = true -> Str.includes (x +:+ y) sub = true.
Proof.
  intros Hy. induction x as [|a x IH].
  - rewrite sapp_nil_l. destruct y as [|b y]; cbn [Str.includes]; now rewrite Hy.
  - rewrite sapp_cons. cbn [Str.includes]. rewrite IH. apply orb_true_r.
Qed.

(** X8.  [foreignKey], [references], [onDelete] and [onUpdate], called in
    this order with a reference [table.column] whose two parts hold no
    dot, add one constraint to those of the builder:
    [FOREIGN KEY (c) REFERENCES table(column) ON DELETE a ON UPDATE b]. *)
Theorem foreign_key_chain
    (s : t) (columnName table column onDel onUpd : string) :
  dotfree table -> dotfree column ->
  chain [ foreignKey columnName;
          references (table +:+ "." +:+ column);
          onDelete onDel; onUpdate onUpd ] s
    = (Returned tt,
       set_constraints
         (_constraints s ++
          [ "FOREIGN KEY (" +:+ columnName +:+ ") REFERENCES " +:+ table +:+
            "(" +:+ column +:+ ") ON DELETE " +:+ onDel +:+
            " ON UPDATE " +:+ onUpd ]) s).
Proof.
  intros Ht Hc.
  assert (Hsplit : Str.split "." (table +:+ "." +:+ column) = [table; column]).
  { change ("." +:+ column) with (String "."%char column).
    rewrite split_first by exact Ht. now rewrite split_free by exact Hc. }
  set (fk := "FOREIGN KEY (" +:+ columnName +:+ ")").
  set (rf := fk +:+ " REFERENCES " +:+ table +:+ "(" +:+ column +:+ ")").
  set (rd := rf +:+ " ON DELETE " +:+ onDel).
  set (ru := rd +:+ " ON UPDATE " +:+ onUpd).
  set (cs := _constraints s).
  assert (E1 : foreignKey columnName s
               = (Returned tt, set_constraints (cs ++ [fk]) s)) by reflexivity.
  assert (E2 : references (table +:+ "." +:+ column)
                 (set_constraints (cs ++ [fk]) s)
               = (Returned tt, set_constraints (cs ++ [rf]) s)).
  { rewrite (references_amends (set_constraints (cs ++ [fk]) s) _ cs fk
               eq_refl eq_refl).
    unfold referenced. now rewrite Hsplit. }
  assert (Hrf : forall tail, Str.includes (rf +:+ tail) "REFERENCES" = true).
  { intros tail. unfold rf. rewrite !sapp_assoc.
    change (" REFERENCES " +:+ table +:+ "(" +:+ column +:+ ")" +:+ tail)
      with (" " +:+ "REFERENCES " +:+ table +:+ "(" +:+ column +:+ ")" +:+ tail).
    rewrite <- (sapp_assoc fk " "). now apply includes_app. }
  assert (E3 : onDelete onDel (set_constraints (cs ++ [rf]) s)
               = (Returned tt, set_constraints (cs ++ [rd]) s)).
  { unfold onDelete.
    rewrite (on_action_amends (set_constraints (cs ++ [rf]) s) _ _ cs rf
               eq_refl); [reflexivity|].
    rewrite <- (sapp_nil_r rf). apply Hrf. }
  assert (E4 : onUpdate onUpd (set_constraints (cs ++ [rd]) s)
               = (Returned tt, set_constraints (cs ++ [ru]) s)).
  { unfold onUpdate.
    rewrite (on_action_amends (set_constraints (cs ++ [rd]) s) _ _ cs rd
               eq_refl); [reflexivity|].
    apply Hrf. }
  rewrite chain_cons, E1, chain_cons, E2, chain_cons, E3, chain_cons, E4.
  cbn [chain]. unfold ret. do 4 f_equal.
  unfold ru, rd, rf, fk. now rewrite !sapp_assoc.
Qed.

Lemma foreign_key_chain_witness :
  _constraints
    (snd (chain [ foreignKey "user_id"; references "users.id";
                  onDelete "CASCADE"; onUpdate "NO ACTION" ] (new "posts")))
  = ["FOREIGN KEY (user_id) REFERENCES users(id) ON DELETE CASCADE ON UPDATE NO ACTION"].
Proof.
  exact (f_equal (fun r => _constraints (snd r))
           (foreign_key_chain (new "posts") "user_id" "users" "id"
              "CASCADE" "NO ACTION" eq_refl eq_refl)).
Defined.

(** X9.  [references] reads its argument by cutting it at every dot and
    keeping the first two pieces: with no dot in the argument the column
    is written [undefined], and what follows a second dot is dropped. *)
Theorem references_splits_at_dots
    (s : t) (init : list string) (lc table column more : string) :
  _constraints s = init ++ [lc] ->
  Str.startsWith lc "FOREIGN KEY" = true ->
  dotfree table -> dotfree column ->
  references table s
    = (Returned tt,
       set_constraints
         (init ++ [lc +:+ " REFERENCES " +:+ table +:+ "(undefined)"]) s)
  /\ references (table +:+ "." +:+ column +:+ "." +:+ more) s
     = (Returned tt,
        set_constraints
          (init ++ [lc +:+ " REFERENCES " +:+ table +:+ "(" +:+ column +:+ ")"])
          s).
Proof.
  intros E Hg Ht Hc. split.
  - rewrite (references_amends s table init lc E Hg). unfold referenced.
    now rewrite split_free by exact Ht.
  - rewrite (references_amends s _ init lc E Hg). unfold referenced.
    change ("." +:+ column +:+ "." +:+ more)
      with (String "."%char (column +:+ String "."%char more)).
    rewrite split_first by exact Ht. rewrite split_first by exact Hc.
    reflexivity.
Qed.

Lemma references_splits_at_dots_witness :
  references "main" (snd (foreignKey "user_id" (new "posts")))
    = (Returned tt,
       set_constraints ["FOREIGN KEY (user_id) REFERENCES main(undefined)"]
         (new "posts"))
  /\ references "main.users.id" (snd (foreignKey "user_id" (new "posts")))
     = (Returned tt,
        set_constraints ["FOREIGN KEY (user_id) REFERENCES main(users)"]
          (new "posts")).
Proof.
  apply (references_splits_at_dots
           (snd (foreignKey "user_id" (new "posts")))
           [] "FOREIGN KEY (user_id)" "main" "users" "id"); reflexivity.
Defined.

(** What a column-declaring call leaves. *)
Lemma call_column_declares c s :
  call_column c s
    = (Returned tt,
       {| _tableName := _tableName s;
          _columns :=
            _columns s ++ [{| name := column_name c; type := column_type c;
                              modifiers := initial_modifiers c |}];
          _constraints := _constraints s;
          _currentColumn := Some (length (_columns s)) |}).
Proof.
  destruct c as [n|n len|n|n|n|n|n|n|n|n|n]; try reflexivity.
  cbn [call_column]. unfold date, bind, declare, default_, modifier.
  cbn [_currentColumn _columns _tableName _constraints].
  now rewrite alter_last.
Qed.

(** X10.  For a length of [string] that is a safe integer when it is
    given, and modifier calls whose values the embedding holds (safe
    integers among the numbers): each column-declaring call adds one
    column, rendered by [build] as its name, its type and its modifiers:
    [id] is an [INTEGER] that starts with [PRIMARY KEY AUTOINCREMENT],
    [date] a [TEXT] that starts with [DEFAULT CURRENT_TIMESTAMP],
    [boolean] and [timestamp] are [INTEGER], [json] is [TEXT], [string]
    with a length [l] that is not zero is [TEXT(l)], with the digits of
    [l].  The modifiers called after it come behind those it starts with
    and replace none of them: [date(n).default(v)] renders two [DEFAULT]
    fragments. *)
Theorem column_call_renders
    (s : t) (c : ColumnCall) (ms : list Modifier) :
  exact_column c ->
  Forall exact_modifier ms ->
  fst ((call_column c ;;; chain (map call_modifier ms) ;;; build) s)
    = Returned
        {| columns :=
             built_columns s ++
             [column_name c +:+ " " +:+ column_type c +:+
              modifiers_part (initial_modifiers c ++ map fragment ms)];
           constraints := _constraints s |}.
Proof.
  intros _ _.
  unfold bind at 1. rewrite call_column_declares.
  unfold bind at 1. rewrite chain_modifiers.
  unfold build, built_columns. cbn [fst _columns _constraints].
  do 2 f_equal. rewrite map_app. cbn [map]. do 2 f_equal.
  rewrite definition_parts. reflexivity.
Qed.

Lemma column_call_renders_witness :
  fst ((call_column (String_ "name" (Some 40%Z)) ;;;
        chain (map call_modifier [NotNull; Default (JsNumber 7)]) ;;;
        build) (new "users"))
    = Returned {| columns := ["name TEXT(40) NOT NULL DEFAULT 7"];
                  constraints := [] |}
  /\ fst ((call_column (Date "seen") ;;;
           chain (map call_modifier [Default (JsString "now")]) ;;;
           build) (new "users"))
    = Returned
        {| columns := ["seen TEXT DEFAULT CURRENT_TIMESTAMP DEFAULT 'now'"];
           constraints := [] |}.
Proof.
  split.
  - refine (column_call_renders (new "users") (String_ "name" (Some 40%Z))
              [NotNull; Default (JsNumber 7)] _ _).
    + cbn. unfold safe_integer. lia.
    + repeat match goal with |- Forall _ (_ :: _) => constructor end;
        [..|constructor]; cbn; unfold safe_integer; try lia; exact I.
  - refine (column_call_renders (new "users") (Date "seen")
              [Default (JsString "now")] _ _).
    + exact I.
    + repeat match goal with |- Forall _ (_ :: _) => constructor end;
        [..|constructor]; exact I.
Defined.

End TableBuilderCallsFacts.

(** ** Quoting of default values *)

Module SqlLiteralFacts.

Import TableBuilder SqlLiteral StrFacts.

Lemma body_double_quotes s : forall rest,
  ends_literal rest ->
  body (Str.double_quotes s +:+ String "'"%char rest) = Some (s, rest).
Proof.
  induction s as [|a s IH]; intros rest Hrest.
  - cbn [Str.double_quotes]. rewrite sapp_nil_l.
    cbn [body]. rewrite Ascii.eqb_refl.
    destruct rest as [|b rest]; [reflexivity|].
    cbn [ends_literal] in Hrest.
    apply Ascii.eqb_neq in Hrest. now rewrite Hrest.
  - cbn [Str.double_quotes].
    destruct (Ascii.eqb a "'") eqn:E.
    + apply Ascii.eqb_eq in E. subst a. rewrite !sapp_cons. cbn [body].
      rewrite !Ascii.eqb_refl, IH by exact Hrest. reflexivity.
    + rewrite sapp_cons. cbn [body]. rewrite E, IH by exact Hrest.
      reflexivity.
Qed.

(** X11.  The text [default] writes for a string other than
    [CURRENT_TIMESTAMP], read back by the rule of SQL string literals,
    gives the string itself and ends where the text written ends,
    whatever quotes the string holds.  [CURRENT_TIMESTAMP] itself is
    written without quotes and is no literal. *)
Theorem escaped_string_reads_back (s rest : string) :
  s <> "CURRENT_TIMESTAMP" ->
  ends_literal rest ->
  read_literal (_escapeValue (JsString s) +:+ rest) = Some (s, rest)
  /\ read_literal (_escapeValue (JsString "CURRENT_TIMESTAMP") +:+ rest)
     = None.
Proof.
  intros Hs Hrest. split; [|reflexivity].
  cbn [_escapeValue]. apply String.eqb_neq in Hs. rewrite Hs.
  rewrite !sapp_assoc. change ("'" +:+ Str.double_quotes s +:+ "'" +:+ rest)
    with (String "'"%char (Str.double_quotes s +:+ String "'"%char rest)).
  cbn [read_literal]. rewrite Ascii.eqb_refl.
  now apply body_double_quotes.
Qed.

Lemma escaped_string_reads_back_witness :
  read_literal (_escapeValue (JsString "it's; DROP TABLE x; --") +:+ " NOT NULL")
    = Some ("it's; DROP TABLE x; --", " NOT NULL").
Proof.
  apply (escaped_string_reads_back "it's; DROP TABLE x; --" " NOT NULL").
  - discriminate.
  - cbn. discriminate.
Defined.

End SqlLiteralFacts.

(** ** SQLiteTool: statements built outside the QueryBuilder *)

Module SQLiteToolOpsFacts.

Import SQLiteTool SQLiteToolOps StrFacts QueryBuilder.

Lemma prepareValue_bindable JSON_stringify v :
  bindable (_prepareValue JSON_stringify v).
Proof. now destruct v. Qed.

Lemma prepared_bindable JSON_stringify vs :
  Forall bindable (map (_prepareValue JSON_stringify) vs).
Proof.
  induction vs as [|v vs IH]; constructor; [apply prepareValue_bindable|exact IH].
Qed.

(** X12.  Of the values the embedding holds ([null], [undefined],
    booleans, integers, strings, valid dates, and objects for which
    [JSON.stringify] returns a text), every one [insert], [update] and
    [delete] hand to the engine is [null], a number or a string:
    [undefined] goes as [null], a boolean as 0 or 1, a date as its ISO
    text, any other object as its JSON text, and [null], a number and a
    string as they are.  So preparing a prepared value changes nothing.
    (A [bigint], a [symbol] and a function, which the program hands over
    as they are, and the values it throws on are not among these.) *)
Theorem written_values_are_scalars
    (JSON_stringify : JsValue -> string) (tableName : string)
    (data conditions : Fields) :
  (Forall bindable (snd (insert_query JSON_stringify tableName data))
   /\ Forall bindable
        (snd (update_query JSON_stringify tableName data conditions))
   /\ Forall bindable
        (snd (delete_query JSON_stringify tableName conditions)))
  /\ (_prepareValue JSON_stringify JsUndefined = JsNull
      /\ (forall b, _prepareValue JSON_stringify (JsBool b)
                    = JsNumber (if b then 1 else 0))
      /\ (forall iso, _prepareValue JSON_stringify (JsDate iso) = JsString iso)
      /\ (forall text, _prepareValue JSON_stringify (JsObject text)
                       = JsString (JSON_stringify (JsObject text)))
      /\ (forall value, bindable value ->
                        _prepareValue JSON_stringify value = value))
  /\ (forall value,
        _prepareValue JSON_stringify (_prepareValue JSON_stringify value)
        = _prepareValue JSON_stringify value).
Proof.
  split; [|split].
  - split; [apply prepared_bindable|]. split.
    + unfold update_query. destruct (Nat.ltb 0 _); cbn [snd];
        [apply Forall_app; split|]; apply prepared_bindable.
    + unfold delete_query. destruct (Nat.ltb 0 _); apply prepared_bindable.
  - split; [reflexivity|]. split; [reflexivity|]. split; [reflexivity|].
    split; [reflexivity|]. intros value Hv. now destruct value.
  - intros value. now destruct value.
Qed.

Lemma written_values_are_scalars_witness :
  snd (insert_query RecordingOps.stringify "users"
         [("name", JsString "Ann"); ("active", JsBool true);
          ("seen", JsDate "2024-01-01T00:00:00.000Z");
          ("nick", JsUndefined); ("tags", JsObject "[object Object]")])
  = [JsString "Ann"; JsNumber 1; JsString "2024-01-01T00:00:00.000Z";
     JsNull; JsString "{}"]
  /\ Forall bindable
       (snd (insert_query RecordingOps.stringify "users"
               [("name", JsString "Ann"); ("active", JsBool true);
                ("seen", JsDate "2024-01-01T00:00:00.000Z");
                ("nick", JsUndefined); ("tags", JsObject "[object Object]")])).
Proof.
  split; [reflexivity|].
  apply (proj1 (proj1 (written_values_are_scalars RecordingOps.stringify "users"
           [("name", JsString "Ann"); ("active", JsBool true);
            ("seen", JsDate "2024-01-01T00:00:00.000Z");
            ("nick", JsUndefined); ("tags", JsObject "[object Object]")]
           []))).
Defined.

Lemma assignments_marks ks :
  Forall free_of_placeholder ks ->
  QueryBuilderOps.marks_of (assignments ks) = length ks.
Proof.
  unfold QueryBuilderOps.marks_of.
  induction 1 as [|k ks Hk _ IH]; [reflexivity|].
  unfold assignments in *. simpl. unfold free_of_placeholder in Hk.
  rewrite IH, count_char_app, Hk. reflexivity.
Qed.

Lemma join_assignments_marks sep ks :
  Str.count_char "?" sep = 0 ->
  Forall free_of_placeholder ks ->
  Str.count_char "?" (Str.join sep (assignments ks)) = length ks.
Proof.
  intros Hsep Hks. rewrite QueryBuilderOpsFacts.count_join by exact Hsep.
  now apply assignments_marks.
Qed.

Lemma question_marks {A} (l : list A) :
  Str.count_char "?" (Str.join ", " (map (fun _ => "?") l)) = length l.
Proof.
  rewrite QueryBuilderOpsFacts.count_join by reflexivity.
  induction l as [|x l IH]; [reflexivity|]. simpl in *. now rewrite IH.
Qed.

(** X13.  [insert] binds one value for each field of the record: when
    the table and the fields have names with no [?], its statement holds
    as many [?] as the record has fields, and the values are the prepared
    values of the fields, in the order of the fields. *)
Theorem insert_placeholders_match_fields
    (JSON_stringify : JsValue -> string) (tableName : string) (data : Fields) :
  free_of_placeholder tableName ->
  Forall free_of_placeholder (keys data) ->
  Str.count_char "?" (fst (insert_query JSON_stringify tableName data))
    = length data
  /\ snd (insert_query JSON_stringify tableName data)
     = map (fun field => _prepareValue JSON_stringify (snd field)) data.
Proof.
  intros Ht Hk. unfold insert_query. cbn [fst snd]. split.
  - rewrite !count_char_app, Ht, question_marks.
    rewrite QueryBuilderOpsFacts.count_join by reflexivity.
    apply QueryBuilderOpsFacts.marks_of_free in Hk.
    unfold QueryBuilderOps.marks_of in Hk. rewrite Hk.
    unfold keys. rewrite length_map. simpl. lia.
  - unfold vals. now rewrite map_map.
Qed.

Lemma insert_placeholders_match_fields_witness :
  Str.count_char "?"
    (fst (insert_query (fun _ => "{}") "users"
            [("name", JsString "Ann"); ("active", JsBool true)]))
  = 2.
Proof.
  apply (insert_placeholders_match_fields (fun _ => "{}") "users"
           [("name", JsString "Ann"); ("active", JsBool true)]).
  - reflexivity.
  - repeat constructor.
Defined.

(** X14.  [update] binds the values of the patch first and those of the
    conditions after them, each prepared: with names that hold no [?]
    its statement holds as many [?] as there are values.  With no
    condition the statement has no [WHERE] at all and binds the values of
    the patch only. *)
Theorem update_placeholders_match_values
    (JSON_stringify : JsValue -> string)
    (tableName : string) (data conditions : Fields) :
  free_of_placeholder tableName ->
  Forall free_of_placeholder (keys data) ->
  Forall free_of_placeholder (keys conditions) ->
  Str.count_char "?"
    (fst (update_query JSON_stringify tableName data conditions))
    = length (snd (update_query JSON_stringify tableName data conditions))
  /\ snd (update_query JSON_stringify tableName data conditions)
     = map (_prepareValue JSON_stringify) (vals data)
       ++ map (_prepareValue JSON_stringify) (vals conditions)
  /\ update_query JSON_stringify tableName data []
     = ("UPDATE " +:+ tableName +:+ " SET " +:+
        Str.join ", " (assignments (keys data)),
        map (_prepareValue JSON_stringify) (vals data)).
Proof.
  intros Ht Hd Hc. split; [|split; [|reflexivity]].
  - unfold update_query. unfold keys, vals in *.
    destruct conditions as [|c conditions];
      cbn [map length Nat.ltb Nat.leb fst snd].
    + rewrite !count_char_app, Ht, join_assignments_marks, !length_map
        by (try reflexivity; exact Hd). simpl. lia.
    + rewrite !count_char_app, Ht, !join_assignments_marks
        by (try reflexivity; assumption).
      rewrite length_app. cbn [length]. rewrite !length_map.
      simpl. lia.
  - unfold update_query. destruct conditions as [|c conditions];
      cbn [keys vals map length Nat.ltb Nat.leb fst snd].
    + now rewrite List.app_nil_r.
    + reflexivity.
Qed.

Lemma update_placeholders_match_values_witness :
  update_query (fun _ => "{}") "users" [("age", JsNumber 31)] [("id", JsNumber 5)]
    = ("UPDATE users SET age = ? WHERE id = ?", [JsNumber 31; JsNumber 5]).
Proof.
  pose proof (update_placeholders_match_values (fun _ => "{}") "users"
                [("age", JsNumber 31)] [("id", JsNumber 5)]
                eq_refl ltac:(repeat constructor) ltac:(repeat constructor))
    as (_ & Hv & _).
  rewrite (surjective_pairing (update_query _ _ _ _)), Hv. reflexivity.
Defined.

(** X15.  [delete] binds the prepared values of its conditions, one [?]
    for each when the names hold no [?]; with no condition it sends
    [DELETE FROM table] with no [WHERE] and no value. *)
Theorem delete_placeholders_match_values
    (JSON_stringify : JsValue -> string)
    (tableName : string) (conditions : Fields) :
  free_of_placeholder tableName ->
  Forall free_of_placeholder (keys conditions) ->
  Str.count_char "?" (fst (delete_query JSON_stringify tableName conditions))
    = length (snd (delete_query JSON_stringify tableName conditions))
  /\ snd (delete_query JSON_stringify tableName conditions)
     = map (_prepareValue JSON_stringify) (vals conditions)
  /\ delete_query JSON_stringify tableName [] = ("DELETE FROM " +:+ tableName, []).
Proof.
  intros Ht Hc. split; [|split; [|reflexivity]].
  - unfold delete_query. unfold keys, vals in *.
    destruct conditions as [|c conditions];
      cbn [map length Nat.ltb Nat.leb fst snd].
    + now rewrite count_char_app, Ht.
    + rewrite !count_char_app, Ht, !join_assignments_marks
        by (try reflexivity; assumption).
      cbn [length]. rewrite !length_map. simpl. lia.
  - unfold delete_query. now destruct conditions.
Qed.

Lemma delete_placeholders_match_values_witness :
  delete_query (fun _ => "{}") "users" [("id", JsNumber 10)]
    = ("DELETE FROM users WHERE id = ?", [JsNumber 10]).
Proof.
  pose proof (delete_placeholders_match_values (fun _ => "{}") "users" [("id", JsNumber 10)]
                eq_refl ltac:(repeat constructor)) as (_ & Hv & _).
  rewrite (surjective_pairing (delete_query _ _ _)), Hv. reflexivity.
Defined.


End SQLiteToolOpsFacts.

(** ** SQLiteTool: the queries of [find], [findOne] and [count] *)

Module FindQueryFacts.

Import SQLiteTool FindQuery QueryBuilder StrFacts HeapFacts QueryBuilderFacts.

Lemma pushes_skip : pushes skip [] [].
Proof. intros q h _. cbn. now rewrite !List.app_nil_r. Qed.

(** A call that writes another field of the builder. *)
Lemma pushes_field (f : QueryBuilder.t -> QueryBuilder.t) :
  (forall q, _whereValues (f q) = _whereValues q) ->
  (forall q, _whereConditions (f q) = _whereConditions q) ->
  pushes (fun q h => (f q, h)) [] [].
Proof.
  intros Hv Hc q h _. cbn [fst snd]. rewrite Hv, Hc, !List.app_nil_r.
  now repeat split.
Qed.

Lemma pushes_andThen c1 c2 ps1 ps2 vs1 vs2 :
  pushes c1 ps1 vs1 -> pushes c2 ps2 vs2 ->
  pushes (andThen c1 c2) (ps1 ++ ps2) (vs1 ++ vs2).
Proof.
  intros H1 H2 q h Hq. unfold andThen.
  destruct (H1 q h Hq) as (Hl1 & Hn1 & Hc1 & Hr1).
  destruct (c1 q h) as [q1 h1]. cbn [fst snd] in *.
  assert (Hq1 : allocated q1 h1) by (unfold allocated in *; now rewrite Hl1, Hn1).
  destruct (H2 q1 h1 Hq1) as (Hl2 & Hn2 & Hc2 & Hr2).
  rewrite Hl2, Hn2, Hc2, Hc1. rewrite Hl1 in Hr2. rewrite Hr2, Hr1.
  now rewrite !List.app_assoc.
Qed.

Lemma pushes_condition entry :
  pushes (condition_call entry) [condition_text entry]
    (SQLiteToolOps.condition_values entry).
Proof.
  destruct entry as [key [vs|c|v]]; intros q h Hq;
    unfold condition_text, SQLiteToolOps.condition_values;
    cbn [condition_call fst snd].
  - unfold whereIn. destruct vs as [|v vs]; cbn [length Nat.eqb fst snd].
    + rewrite List.app_nil_r. now repeat split.
    + rewrite length_push, read_push by exact Hq. now repeat split.
  - unfold where_. cbn [fst snd].
    rewrite length_push, read_push by exact Hq. now repeat split.
  - unfold where_. cbn [fst snd].
    rewrite length_push, read_push by exact Hq. now repeat split.
Qed.

Lemma pushes_conditions conditions :
  pushes (calls (map condition_call conditions))
    (map condition_text conditions)
    (flat_map SQLiteToolOps.condition_values conditions).
Proof.
  induction conditions as [|entry conditions IH]; [apply pushes_skip|].
  cbn [map calls flat_map].
  apply (pushes_andThen _ _ [condition_text entry]); [|exact IH].
  apply pushes_condition.
Qed.

Lemma pushes_having c : pushes (having c []) [] [].
Proof.
  intros q h Hq. unfold having. cbn [fst snd].
  rewrite length_push, read_push_nil, !List.app_nil_r. now repeat split.
Qed.

(** The six calls of [find] push the predicates and the values of the
    conditions, and nothing else. *)
Lemma pushes_find_calls conditions options :
  pushes (calls (find_calls conditions options))
    (map condition_text conditions)
    (flat_map SQLiteToolOps.condition_values conditions).
Proof.
  unfold find_calls. cbn [calls].
  assert (Hfield : forall c, c = skip \/ (exists f,
            c = (fun q h => (f q, h))
            /\ (forall q, _whereValues (f q) = _whereValues q)
            /\ (forall q, _whereConditions (f q) = _whereConditions q)) ->
          pushes c [] []).
  { intros c [->|(f & -> & Hv & Hc)]; [apply pushes_skip|now apply pushes_field]. }
  assert (H1 : pushes (if_array (SQLiteTool.columns options) select) [] []).
  { apply Hfield. destruct (SQLiteTool.columns options) as [cs|]; [right|now left].
    now exists (set_selectColumns cs). }
  assert (H3 : pushes
     (if_columns (SQLiteTool.orderBy options)
        (fun c => QueryBuilder.orderBy (columnList c) (SQLiteTool.direction options))) [] []).
  { apply Hfield. destruct (SQLiteTool.orderBy options) as [[x|xs]|]; cbn [if_columns];
      [destruct (Str.truthy x); [right|now left]|right|now left];
      eexists; split; [reflexivity|now split| reflexivity|now split]. }
  assert (H4 : pushes
     (if_number (SQLiteTool.limit options)
        (fun l => andThen (QueryBuilder.limit l)
                    (if_number (SQLiteTool.offset options) QueryBuilder.offset))) [] []).
  { destruct (SQLiteTool.limit options) as [l|]; cbn [if_number]; [|apply pushes_skip].
    destruct (l =? 0)%Z; [apply pushes_skip|].
    apply (pushes_andThen _ _ [] [] [] []).
    - now apply pushes_field.
    - destruct (SQLiteTool.offset options) as [k|]; cbn [if_number]; [|apply pushes_skip].
      destruct (k =? 0)%Z; [apply pushes_skip|now apply pushes_field]. }
  assert (H5 : pushes (if_columns (SQLiteTool.groupBy options) QueryBuilder.groupBy) [] []).
  { apply Hfield. destruct (SQLiteTool.groupBy options) as [[x|xs]|]; cbn [if_columns];
      [destruct (Str.truthy x); [right|now left]|right|now left];
      eexists; split; [reflexivity|now split| reflexivity|now split]. }
  assert (H6 : pushes
     (if_string (SQLiteTool.having options) (fun c => QueryBuilder.having c [])) [] []).
  { destruct (SQLiteTool.having options) as [x|]; cbn [if_string]; [|apply pushes_skip].
    destruct (Str.truthy x); [apply pushes_having|apply pushes_skip]. }
  pose proof (pushes_andThen _ _ _ _ _ _ H1
    (pushes_andThen _ _ _ _ _ _ (pushes_conditions conditions)
      (pushes_andThen _ _ _ _ _ _ H3
        (pushes_andThen _ _ _ _ _ _ H4
          (pushes_andThen _ _ _ _ _ _ H5
            (pushes_andThen _ _ _ _ _ _ H6 pushes_skip)))))) as H.
  cbn [app] in H. now rewrite !List.app_nil_r in H.
Qed.

Lemma conditions_state conditions : forall q h,
  fst (calls (map condition_call conditions) q h)
    = set_whereConditions
        (_whereConditions q ++ map condition_text conditions) q.
Proof.
  induction conditions as [|entry conditions IH]; intros q h.
  - cbn. now rewrite List.app_nil_r, set_whereConditions_id.
  - cbn [map]. rewrite calls_cons, IH.
    assert (E : fst (condition_call entry q h)
                = set_whereConditions
                    (_whereConditions q ++ [condition_text entry]) q).
    { destruct entry as [key [vs|c|v]]; try reflexivity.
      cbn [condition_call]. unfold whereIn. now destruct vs. }
    rewrite E. cbn [_whereConditions set_whereConditions].
    now rewrite <- List.app_assoc.
Qed.

(** X16.  [find] and [count] put the same conditions in the same words
    and bind the same values, whatever the options of [find]: one
    predicate for each entry of the conditions, in the order of the
    entries, and the values of the entries in that order.  So the page
    [findPaginated] fetches is filtered as the rows it counts. *)
Theorem find_and_count_share_predicates
    (tableName : string) (conditions : QueryConditions)
    (options : FindOptions) :
  _whereConditions (fst (find_builder tableName conditions options))
    = map condition_text conditions
  /\ snd (find_query tableName conditions options)
     = flat_map SQLiteToolOps.condition_values conditions
  /\ count_query tableName conditions
     = ("SELECT COUNT(*) as count FROM " +:+ tableName +:+
        where_part (map condition_text conditions),
        flat_map SQLiteToolOps.condition_values conditions).
Proof.
  pose proof (pushes_find_calls conditions options
                _ _ (new_allocated tableName [])) as (Hl & _ & Hc & Hr).
  pose proof (pushes_conditions conditions
                _ _ (new_allocated tableName [])) as (Hl' & _ & Hc' & Hr').
  rewrite new_read in Hr, Hr'. cbn [app] in Hr, Hr'.
  split; [|split].
  - unfold find_builder. exact Hc.
  - unfold find_query, find_builder.
    change (QueryBuilder.new tableName [])
      with (fst (QueryBuilder.new tableName []), snd (QueryBuilder.new tableName [])).
    cbv beta iota.
    destruct (calls (find_calls conditions options) _ _) as [q h] eqn:E.
    cbn [fst snd] in *. unfold toSQL, alloc. cbn [snd sql values].
    rewrite read_alloc_new. rewrite <- Hl in Hr.
    cbn [QueryBuilder.new alloc fst _whereValues] in *. congruence.
  - unfold count_query.
    change (QueryBuilder.new tableName [])
      with (fst (QueryBuilder.new tableName []), snd (QueryBuilder.new tableName [])).
    cbv beta iota.
    pose proof (conditions_state conditions
                  (fst (QueryBuilder.new tableName []))
                  (snd (QueryBuilder.new tableName []))) as Hs.
    destruct (calls (map condition_call conditions) _ _) as [q h] eqn:E.
    cbn [fst snd] in *. unfold toCountSQL, alloc. cbn [snd sql values].
    rewrite read_alloc_new. f_equal.
    + rewrite Hs, toCountSQL_text_parts. cbn. now rewrite !sapp_nil_r.
    + cbn [QueryBuilder.new alloc fst _whereValues] in *. congruence.
Qed.

End FindQueryFacts.

Module FindPagingFacts.

Import SQLiteTool FindQuery StrFacts QueryBuilderFacts SQLiteToolFacts.

Lemma keeps_paging_field (f : QueryBuilder.t -> QueryBuilder.t) :
  (forall q, QueryBuilder._limitClause (f q) = QueryBuilder._limitClause q) ->
  (forall q, QueryBuilder._offsetClause (f q) = QueryBuilder._offsetClause q) ->
  keeps_paging (fun q h => (f q, h)).
Proof. intros Hl Ho q h. cbn [fst]. now rewrite Hl, Ho. Qed.

Lemma keeps_paging_if_array o : keeps_paging (if_array o QueryBuilder.select).
Proof. destruct o; [now apply keeps_paging_field|apply keeps_paging_skip]. Qed.

Lemma keeps_paging_if_columns o f :
  (forall c, keeps_paging (f c)) -> keeps_paging (if_columns o f).
Proof.
  intros Hf. destruct o as [[x|xs]|]; cbn [if_columns];
    try destruct (Str.truthy x); auto using keeps_paging_skip.
Qed.

Lemma keeps_paging_if_string o f :
  (forall c, keeps_paging (f c)) -> keeps_paging (if_string o f).
Proof.
  intros Hf. destruct o as [x|]; cbn [if_string];
    try destruct (Str.truthy x); auto using keeps_paging_skip.
Qed.

Lemma calls_app l1 : forall l2 q h,
  QueryBuilder.calls (l1 ++ l2) q h
    = QueryBuilder.calls l2 (fst (QueryBuilder.calls l1 q h))
        (snd (QueryBuilder.calls l1 q h)).
Proof.
  induction l1 as [|c l1 IH]; intros l2 q h; [reflexivity|].
  change ((c :: l1) ++ l2) with (c :: (l1 ++ l2)).
  now rewrite !calls_cons, IH.
Qed.

(** The two clauses of the builder [find] renders. *)
Lemma find_builder_paging tableName conditions options :
  QueryBuilder._limitClause (fst (find_builder tableName conditions options))
    = limit_clause_of options
  /\ QueryBuilder._offsetClause (fst (find_builder tableName conditions options))
    = offset_clause_of options.
Proof.
  unfold find_builder, find_calls. cbn [QueryBuilder.new alloc length app].
  set (s0 := {| QueryBuilder._tableName := tableName |}).
  set (c1 := if_array (columns options) QueryBuilder.select).
  set (c2 := QueryBuilder.calls (map condition_call conditions)).
  set (c3 := if_columns (orderBy options) _).
  set (c4 := if_number (limit options) _).
  set (c5 := if_columns (groupBy options) QueryBuilder.groupBy).
  set (c6 := if_string (having options) _).
  change [c1; c2; c3; c4; c5; c6] with ([c1; c2; c3] ++ [c4] ++ [c5; c6]).
  assert (Kpre : keeps_paging (QueryBuilder.calls [c1; c2; c3])).
  { apply keeps_paging_calls.
    repeat match goal with |- Forall _ (_ :: _) => constructor end;
      [..|constructor].
    - apply keeps_paging_if_array.
    - apply keeps_paging_calls, Forall_map, Forall_forall.
      intros entry _. apply keeps_paging_condition.
    - apply keeps_paging_if_columns. intros c. now apply keeps_paging_field. }
  assert (Kpost : keeps_paging (QueryBuilder.calls [c5; c6])).
  { apply keeps_paging_calls.
    repeat match goal with |- Forall _ (_ :: _) => constructor end;
      [..|constructor].
    - apply keeps_paging_if_columns. intros c. now apply keeps_paging_field.
    - apply keeps_paging_if_string. intros c q h. now split. }
  rewrite !calls_app.
  destruct (Kpre s0 [[]]) as [L0 O0]. cbn [QueryBuilder._limitClause
    QueryBuilder._offsetClause s0] in L0, O0.
  destruct (QueryBuilder.calls [c1; c2; c3] s0 [[]]) as [q3 h3].
  cbn [fst snd] in *.
  destruct (Kpost (fst (QueryBuilder.calls [c4] q3 h3))
                  (snd (QueryBuilder.calls [c4] q3 h3))) as [L5 O5].
  rewrite L5, O5. rewrite calls_cons. cbn [QueryBuilder.calls fst].
  unfold c4, limit_clause_of, offset_clause_of.
  destruct (limit options) as [l|]; cbn [if_number]; [|now split].
  destruct (l =? 0)%Z; [now split|].
  unfold QueryBuilder.andThen, QueryBuilder.limit.
  destruct (offset options) as [k|]; cbn [if_number fst snd];
    [destruct (k =? 0)%Z|]; cbn; now rewrite ?O0.
Qed.

(** X17.  For a limit and an offset that are safe integers when they
    are given (which [NaN], a fraction and an integer from [2 ^ 53] on
    are not): the query of [find] has a [LIMIT] clause exactly when
    [options.limit] is given and not zero, and under that an [OFFSET]
    clause exactly when [options.offset] is given and not zero, with
    the digits of those numbers.  The first page of [findPaginated],
    whose offset is zero, is asked with a [LIMIT] and no [OFFSET]. *)
Theorem find_paging_clauses
    (tableName : string) (conditions : QueryConditions)
    (options : FindOptions) (l : Z) :
  safe_if_given (limit options) ->
  safe_if_given (offset options) ->
  safe_integer l ->
  QueryBuilder._limitClause (fst (find_builder tableName conditions options))
    = limit_clause_of options
  /\ QueryBuilder._offsetClause (fst (find_builder tableName conditions options))
    = offset_clause_of options
  /\ (l <> 0%Z ->
      QueryBuilder._limitClause
        (fst (find_builder tableName conditions
                (with_limit_offset l ((1 - 1) * l) options)))
        = "LIMIT " +:+ number_text l
      /\ QueryBuilder._offsetClause
        (fst (find_builder tableName conditions
                (with_limit_offset l ((1 - 1) * l) options)))
        = EmptyString).
Proof.
  intros _ _ _.
  split; [apply find_builder_paging|]. split; [apply find_builder_paging|].
  intros Hl.
  destruct (find_builder_paging tableName conditions
              (with_limit_offset l ((1 - 1) * l) options)) as [HL HO].
  rewrite HL, HO. unfold limit_clause_of, offset_clause_of. cbn.
  apply Z.eqb_neq in Hl. now rewrite Hl.
Qed.

Lemma find_paging_clauses_witness :
  (QueryBuilder._limitClause
     (fst (find_builder "users" [] (with_limit_offset 10 20 no_options)))
     = "LIMIT 10"
   /\ QueryBuilder._offsetClause
     (fst (find_builder "users" [] (with_limit_offset 10 20 no_options)))
     = "OFFSET 20")
  /\ QueryBuilder._limitClause
    (fst (find_builder "users" []
            (with_limit_offset 10 ((1 - 1) * 10)
               (with_limit_offset 10 20 no_options))))
    = "LIMIT 10"
  /\ QueryBuilder._offsetClause
    (fst (find_builder "users" []
            (with_limit_offset 10 ((1 - 1) * 10)
               (with_limit_offset 10 20 no_options))))
    = EmptyString.
Proof.
  assert (S10 : safe_integer 10) by (unfold safe_integer; lia).
  assert (S20 : safe_integer 20) by (unfold safe_integer; lia).
  destruct (find_paging_clauses "users" [] (with_limit_offset 10 20 no_options)
              10 S10 S20 S10) as (HL & HO & Hfirst).
  split; [split; [exact HL|exact HO]|].
  apply Hfirst. discriminate.
Defined.

End FindPagingFacts.

(** ** SQLiteTool: with and without a connection *)

Module ConnectionFacts.

Import SQLiteTool SQLiteToolOps FindQuery StrFacts.

Lemma ensureConnected_throws {World Row} (self : t World Row) w :
  disconnected self ->
  _ensureConnected self w = (Thrown not_connected, w).
Proof.
  intros [Hc|Hd]; unfold _ensureConnected.
  - now rewrite Hc.
  - rewrite Hd. now destruct (_isConnected self).
Qed.

(** An operation that starts with [_ensureConnected] inside its [try]. *)
Lemma guarded_throws {World Row A} (self : t World Row) message
    (rest : M World A) w :
  disconnected self ->
  logged message (_ensureConnected self ;;; rest) w = (Thrown not_connected, w).
Proof.
  intros Hd. unfold logged, try_catch, bind.
  now rewrite (ensureConnected_throws self w Hd).
Qed.

(** X18.  On a tool that is not connected, every data operation throws
    the error [Database is not connected] and leaves the world of the
    engine as it was: nothing is sent to the engine, and the callback of
    [createTable] has no effect. *)
Theorem operations_need_connection
    {World Row : Type} (JSON_stringify : JsValue -> string)
    (run : Database World Row -> string -> list JsValue -> M World RunResult)
    (self : t World Row) (w : World)
    (tableName : string) (conditions : QueryConditions)
    (options : FindOptions) (pg : PaginationOptions)
    (data fields : Fields) (builder : TableBuilder.Method)
    (table_options : TableOptions) :
  disconnected self ->
  find self tableName conditions options w = (Thrown not_connected, w)
  /\ findOne self tableName conditions options w = (Thrown not_connected, w)
  /\ count self tableName conditions w = (Thrown not_connected, w)
  /\ findPaginated self tableName conditions pg options w
     = (Thrown not_connected, w)
  /\ insert JSON_stringify run self tableName data w = (Thrown not_connected, w)
  /\ update JSON_stringify run self tableName data fields w
     = (Thrown not_connected, w)
  /\ delete JSON_stringify run self tableName fields w
     = (Thrown not_connected, w)
  /\ createTable self tableName builder table_options w
     = (Thrown not_connected, w)
  /\ dropTable self tableName w = (Thrown not_connected, w)
  /\ tableExists self tableName w = (Thrown not_connected, w).
Proof.
  intros Hd.
  assert (Hfind : forall o, find self tableName conditions o w
                            = (Thrown not_connected, w))
    by (intros o; now apply guarded_throws).
  assert (Hcount : count self tableName conditions w = (Thrown not_connected, w))
    by now apply guarded_throws.
  repeat split; try (now apply guarded_throws); try apply Hfind.
  - unfold findOne, logged, try_catch, bind. now rewrite Hfind.
  - unfold findPaginated, logged at 1, try_catch, bind. now rewrite Hcount.
Qed.

Lemma operations_need_connection_witness :
  insert RecordingOps.stringify (RecordingOps.run [])
    (new "./database.sqlite") "users" [("name", JsString "Ann")] []
    = (Thrown not_connected, []).
Proof.
  apply (operations_need_connection RecordingOps.stringify (RecordingOps.run [])
           (new "./database.sqlite") [] "users" [] no_options
           {| page := 1; p_limit := 10 |} [("name", JsString "Ann")] []
           (ret tt) no_table_options).
  now right.
Defined.

(** X19.  [transaction] on a tool that is not connected runs neither
    [BEGIN] nor the callback, but its handler still runs [ROLLBACK]: with
    no handle that is a [TypeError] on [null], thrown in place of the
    error [Database is not connected]; with a handle left by a failed
    [connect], [ROLLBACK] is sent to the engine, and its error, if it
    throws, is the one thrown. *)
Theorem transaction_without_connection
    {World Row T : Type} (self : t World Row) (callback : M World T)
    (options : TransactionOptions) (w : World) :
  (_db self = None ->
   transaction self callback options w
     = (Thrown (TypeError "Cannot read properties of null (reading 'exec')"), w))
  /\ (forall db,
        _isConnected self = false -> _db self = Some db ->
        transaction self callback options w
          = match exec db "ROLLBACK" w with
            | (Returned _, w') => (Thrown not_connected, w')
            | (Thrown e, w') => (Thrown e, w')
            end).
Proof.
  split.
  - intros Hd. unfold transaction, try_catch, bind.
    rewrite (ensureConnected_throws self w (or_intror Hd)).
    unfold on_db. now rewrite Hd.
  - intros db Hc Hd. unfold transaction, try_catch, bind.
    rewrite (ensureConnected_throws self w (or_introl Hc)).
    unfold on_db. rewrite Hd.
    now destruct (exec db "ROLLBACK" w) as [[[]|e] w'].
Qed.

Lemma transaction_without_connection_witness :
  transaction (new (World := Recording.World) (Row := Recording.Row)
                 "./database.sqlite")
    (ret 7%Z) {| isolation := None |} []
    = (Thrown (TypeError "Cannot read properties of null (reading 'exec')"), [])
  /\ transaction (RecordingOps.half_open [] 0) (ret 7%Z)
       {| isolation := None |} []
     = (Thrown not_connected, ["ROLLBACK"]).
Proof.
  split.
  - apply (proj1 (transaction_without_connection
                    (new "./database.sqlite") (ret 7%Z)
                    {| isolation := None |} [])).
    reflexivity.
  - apply (proj2 (transaction_without_connection
                    (RecordingOps.half_open [] 0) (ret 7%Z)
                    {| isolation := None |} [])
             (Recording.database [] 0)); reflexivity.
Defined.

(** X20.  [findOne] asks for one row whatever limit its options give:
    the query it sends has the clause [LIMIT 1].  On a connected tool it
    returns the first row the engine finds, and [null] when the engine
    finds none, and an error of the engine is thrown as it is. *)
Theorem findOne_first_or_null
    {World Row : Type} (self : t World Row) (db : Database World Row)
    (tableName : string) (conditions : QueryConditions)
    (options : FindOptions) (w : World) :
  connected self db ->
  QueryBuilder._limitClause
    (fst (find_builder tableName conditions (with_limit 1 options)))
    = "LIMIT 1"
  /\ findOne self tableName conditions options w
     = match all db (fst (find_query tableName conditions (with_limit 1 options)))
                    (snd (find_query tableName conditions (with_limit 1 options)))
                    w with
       | (Returned rows, w') => (Returned (head rows), w')
       | (Thrown e, w') => (Thrown e, w')
       end.
Proof.
  intros Hc. split.
  - now rewrite (proj1 (FindPagingFacts.find_builder_paging tableName conditions
                          (with_limit 1 options))).
  - unfold findOne, find, logged, try_catch, bind, _log, ret, throw.
    rewrite (SQLiteToolFacts.ensureConnected_returns self db Hc).
    destruct (find_query tableName conditions (with_limit 1 options))
      as [sql values].
    rewrite (SQLiteToolFacts.on_db_connected self db Hc). cbn [fst snd].
    now destruct (all db sql values w) as [[rows|e] w'].
Qed.

Lemma findOne_first_or_null_witness :
  findOne (Recording.tool [] 42) "users" [] no_options []
    = (Returned (Some 42%Z), ["SELECT * FROM users LIMIT 1"]).
Proof.
  rewrite (proj2 (findOne_first_or_null (Recording.tool [] 42)
                    (Recording.database [] 42) "users" [] no_options []
                    (conj eq_refl eq_refl))).
  reflexivity.
Defined.

End ConnectionFacts.

(** ** SQLiteTool: [createTable], [connect] and [close] *)

Module LifecycleFacts.

Import SQLiteTool SQLiteToolOps FindQuery StrFacts.

Lemma join_app sep l1 : forall l2,
  l1 <> [] -> l2 <> [] ->
  Str.join sep (l1 ++ l2) = Str.join sep l1 +:+ sep +:+ Str.join sep l2.
Proof.
  induction l1 as [|x l1 IH]; intros l2 H1 H2; [congruence|].
  destruct l1 as [|y l1].
  - destruct l2 as [|z l2]; [congruence|]. reflexivity.
  - change ((x :: y :: l1) ++ l2) with (x :: y :: (l1 ++ l2)).
    rewrite !join_cons2.
    change (y :: l1 ++ l2) with ((y :: l1) ++ l2).
    rewrite IH by (discriminate || assumption).
    now rewrite !sapp_assoc.
Qed.

(** The list [createTable] writes between the parentheses. *)
Lemma createTable_body sep cols cons :
  cols <> [] ->
  (if Nat.ltb 0 (length cons)
   then (Str.join sep cols +:+ sep) +:+ Str.join sep cons
   else Str.join sep cols)
  = Str.join sep (cols ++ cons).
Proof.
  intros Hc. destruct cons as [|c cons]; cbn [length Nat.ltb Nat.leb].
  - now rewrite List.app_nil_r.
  - rewrite join_app by (assumption || discriminate). now rewrite sapp_assoc.
Qed.

(** The statement starts with the words [replace] looks for. *)
Lemma replace_first_create rest :
  replace_first "CREATE TABLE" "CREATE TEMPORARY TABLE"
    ("CREATE TABLE IF NOT EXISTS " +:+ rest)
  = "CREATE TEMPORARY TABLE IF NOT EXISTS " +:+ rest.
Proof. reflexivity. Qed.

(** X21.  When the callback declares at least one column and returns,
    [createTable] on a connected tool sends one statement to the engine
    and ends as the engine does: [CREATE TABLE IF NOT EXISTS], the name,
    and between parentheses the columns followed by the constraints, one
    on each line with a comma between them; then [WITHOUT ROWID] and
    [STRICT] when asked.  With [temporary] the statement starts with
    [CREATE TEMPORARY TABLE], whatever the names in it. *)
Theorem createTable_statement
    {World Row : Type} (self : t World Row) (db : Database World Row)
    (tableName : string) (builder : TableBuilder.Method)
    (options : TableOptions) (w : World)
    (built : TableBuilder.TableBuilderResult) (s' : TableBuilder.t) :
  connected self db ->
  (builder ;;; TableBuilder.build) (TableBuilder.new tableName)
    = (Returned built, s') ->
  TableBuilder.columns built <> [] ->
  createTable self tableName builder options w
    = exec db
        (create_keyword options +:+ " IF NOT EXISTS " +:+ tableName +:+
         " (" +:+ nl +:+ "  " +:+
         Str.join ("," +:+ nl +:+ "  ")
           (TableBuilder.columns built ++ TableBuilder.constraints built) +:+
         nl +:+ ")" +:+ table_suffix options) w.
Proof.
  intros Hc Hb Hcols.
  assert (Htext : createTable_text tableName built options
    = create_keyword options +:+ " IF NOT EXISTS " +:+ tableName +:+
      " (" +:+ nl +:+ "  " +:+
      Str.join ("," +:+ nl +:+ "  ")
        (TableBuilder.columns built ++ TableBuilder.constraints built) +:+
      nl +:+ ")" +:+ table_suffix options).
  { unfold createTable_text.
    rewrite <- (createTable_body _ _ (TableBuilder.constraints built) Hcols).
    unfold create_keyword, table_suffix.
    destruct (Nat.ltb 0 (length (TableBuilder.constraints built)));
      destruct (flag (temporary options));
      destruct (flag (withoutRowId options));
      destruct (flag (strict options));
      rewrite ?sapp_assoc, ?sapp_nil_r, ?replace_first_create, ?sapp_assoc;
      reflexivity. }
  unfold createTable, logged, try_catch, bind, _log, ret, throw.
  rewrite (SQLiteToolFacts.ensureConnected_returns self db Hc).
  unfold bind in Hb. rewrite Hb.
  rewrite (SQLiteToolFacts.on_db_connected self db Hc), Htext.
  now destruct (exec db _ w) as [[[]|e] w'].
Qed.

Lemma createTable_statement_witness :
  createTable (Recording.tool [] 0) "t"
    (TableBuilder.id None ;;; TableBuilder.primary (QueryBuilder.OneColumn "id"))
    {| withoutRowId := None; strict := Some true; temporary := Some true |} []
  = (Returned tt,
     ["CREATE TEMPORARY TABLE IF NOT EXISTS t (" +:+ nl +:+
      "  id INTEGER PRIMARY KEY AUTOINCREMENT," +:+ nl +:+
      "  PRIMARY KEY (id)" +:+ nl +:+ ") STRICT"]).
Proof.
  rewrite (createTable_statement (Recording.tool [] 0) (Recording.database [] 0)
             "t"
             (TableBuilder.id None ;;; TableBuilder.primary (QueryBuilder.OneColumn "id"))
             {| withoutRowId := None; strict := Some true; temporary := Some true |}
             []
             {| TableBuilder.columns := ["id INTEGER PRIMARY KEY AUTOINCREMENT"];
                TableBuilder.constraints := ["PRIMARY KEY (id)"] |}
             (snd ((TableBuilder.id None ;;;
                    TableBuilder.primary (QueryBuilder.OneColumn "id"))
                   (TableBuilder.new "t")))
             (conj eq_refl eq_refl) eq_refl).
  - reflexivity.
  - discriminate.
Defined.

(** X22.  When the callback throws, as a modifier called before any
    column does, [createTable] on a connected tool throws the same error
    and sends nothing to the engine. *)
Theorem createTable_callback_throws
    {World Row : Type} (self : t World Row) (db : Database World Row)
    (tableName : string) (builder : TableBuilder.Method)
    (options : TableOptions) (w : World) (e : Exn) (s' : TableBuilder.t) :
  connected self db ->
  builder (TableBuilder.new tableName) = (Thrown e, s') ->
  createTable self tableName builder options w = (Thrown e, w).
Proof.
  intros Hc Hb.
  unfold createTable, logged, try_catch, bind, _log, ret, throw.
  rewrite (SQLiteToolFacts.ensureConnected_returns self db Hc).
  now rewrite Hb.
Qed.

Lemma createTable_callback_throws_witness :
  createTable (Recording.tool [] 0) "users" TableBuilder.notNull
    no_table_options []
  = (Thrown TableBuilder.no_column_selected, []).
Proof.
  apply (createTable_callback_throws (Recording.tool [] 0)
           (Recording.database [] 0) "users" TableBuilder.notNull
           no_table_options [] TableBuilder.no_column_selected
           (TableBuilder.new "users") (conj eq_refl eq_refl)).
  reflexivity.
Defined.

End LifecycleFacts.

Module ConnectCloseFacts.

Import SQLiteTool SQLiteToolOps FindQuery.

Section Engine.

Context {World Row : Type}.
Variable open : string -> bool -> M World (Database World Row).
Variable db_close : Database World Row -> M World unit.

Lemma connect_opened config self w db w1 :
  _isConnected self = false ->
  open (_dbPath self) (readonly config) w = (Returned db, w1) ->
  connect open config (self, w)
    = match after_open config db w1 with
      | (Returned _, w2) =>
          (Returned tt,
           ({| _dbPath := _dbPath self; _db := Some db; _isConnected := true |},
            w2))
      | (Thrown e, w2) =>
          (Thrown e,
           ({| _dbPath := _dbPath self; _db := Some db; _isConnected := false |},
            w2))
      end.
Proof.
  intros Hc Ho.
  unfold connect, try_catch, bind, this, lift, assign, after_open, ret, throw.
  cbn. rewrite Hc. cbn. rewrite Ho. cbn.
  destruct (timeout config =? 0)%Z; cbn; [reflexivity|].
  destruct (exec db (busy_timeout config) w1) as [[[]|e] w2]; cbn;
    unfold set_db, set_isConnected; cbn; now rewrite ?Hc.
Qed.

Lemma close_disconnected self w :
  disconnected self -> close db_close (self, w) = (Returned tt, (self, w)).
Proof.
  intros Hd. unfold close, try_catch, bind, this, ret. cbn.
  destruct Hd as [Hc|Hd].
  - rewrite Hc. now destruct (_db self).
  - now rewrite Hd.
Qed.

End Engine.

(** X23.  [connect] on a connected tool and [close] on a tool that is
    not connected return and change nothing: the engine is not called.
    [connect] on a tool that is not connected opens the file: when that
    throws, the error is thrown and the tool is as it was; when it
    returns and the busy timeout is accepted, the tool holds the handle
    and is connected, and a [close] that the engine accepts then leaves
    it with no handle and not connected. *)
Theorem connect_close_cycle
    {World Row : Type}
    (open : string -> bool -> M World (Database World Row))
    (db_close : Database World Row -> M World unit)
    (config : Config) (self : t World Row) (w : World) :
  (_isConnected self = true ->
   connect open config (self, w) = (Returned tt, (self, w)))
  /\ (disconnected self ->
      close db_close (self, w) = (Returned tt, (self, w)))
  /\ (forall e w1,
        _isConnected self = false ->
        open (_dbPath self) (readonly config) w = (Thrown e, w1) ->
        connect open config (self, w) = (Thrown e, (self, w1)))
  /\ (forall db w1 w2 w3,
        _isConnected self = false ->
        open (_dbPath self) (readonly config) w = (Returned db, w1) ->
        after_open config db w1 = (Returned tt, w2) ->
        db_close db w2 = (Returned tt, w3) ->
        connect open config (self, w)
          = (Returned tt,
             ({| _dbPath := _dbPath self; _db := Some db;
                 _isConnected := true |}, w2))
        /\ close db_close
             ({| _dbPath := _dbPath self; _db := Some db;
                 _isConnected := true |}, w2)
           = (Returned tt,
              ({| _dbPath := _dbPath self; _db := None;
                  _isConnected := false |}, w3))).
Proof.
  split; [|split; [|split]].
  - intros Hc. unfold connect, try_catch, bind, this, ret. cbn.
    now rewrite Hc.
  - apply close_disconnected.
  - intros e w1 Hc Ho.
    unfold connect, try_catch, bind, this, lift, throw. cbn.
    rewrite Hc. cbn. now rewrite Ho.
  - intros db w1 w2 w3 Hc Ho Ha Hk. split.
    + now rewrite (connect_opened open config self w db w1 Hc Ho), Ha.
    + unfold close, try_catch, bind, this, lift, assign, ret. cbn.
      now rewrite Hk.
Qed.

Lemma connect_close_cycle_witness :
  connect (RecordingOps.open [] 0) (config_of None None)
    (new "./database.sqlite", [])
  = (Returned tt,
     (Recording.tool [] 0,
      ["open ./database.sqlite"; "PRAGMA busy_timeout = 30000"]))
  /\ close (RecordingOps.db_close [])
       (Recording.tool [] 0,
        ["open ./database.sqlite"; "PRAGMA busy_timeout = 30000"])
     = (Returned tt,
        (new "./database.sqlite",
         ["open ./database.sqlite"; "PRAGMA busy_timeout = 30000"; "close"])).
Proof.
  apply (proj2 (proj2 (proj2
           (connect_close_cycle (RecordingOps.open [] 0)
              (RecordingOps.db_close []) (config_of None None)
              (new "./database.sqlite") [])))
         (Recording.database [] 0)
         ["open ./database.sqlite"]
         ["open ./database.sqlite"; "PRAGMA busy_timeout = 30000"]
         ["open ./database.sqlite"; "PRAGMA busy_timeout = 30000"; "close"]);
    reflexivity.
Defined.

(** X24.  When the file opens and the busy timeout is refused, [connect]
    throws the error of the engine and leaves the tool holding the handle
    while not connected.  [close] on that tool returns without closing
    the handle, and the engine is not called. *)
Theorem connect_refused_timeout_keeps_handle
    {World Row : Type}
    (open : string -> bool -> M World (Database World Row))
    (db_close : Database World Row -> M World unit)
    (config : Config) (self : t World Row) (w w1 w2 : World)
    (db : Database World Row) (e : Exn) :
  _isConnected self = false ->
  open (_dbPath self) (readonly config) w = (Returned db, w1) ->
  after_open config db w1 = (Thrown e, w2) ->
  connect open config (self, w)
    = (Thrown e,
       ({| _dbPath := _dbPath self; _db := Some db; _isConnected := false |},
        w2))
  /\ close db_close
       ({| _dbPath := _dbPath self; _db := Some db; _isConnected := false |},
        w2)
     = (Returned tt,
        ({| _dbPath := _dbPath self; _db := Some db; _isConnected := false |},
         w2)).
Proof.
  intros Hc Ho Ha. split.
  - now rewrite (connect_opened open config self w db w1 Hc Ho), Ha.
  - apply close_disconnected. now left.
Qed.

Lemma connect_refused_timeout_keeps_handle_witness :
  connect (RecordingOps.open ["PRAGMA busy_timeout = 30000"] 0)
    (config_of None None) (new "./database.sqlite", [])
  = (Thrown (Recording.refused "PRAGMA busy_timeout = 30000"),
     (RecordingOps.half_open ["PRAGMA busy_timeout = 30000"] 0,
      ["open ./database.sqlite"; "PRAGMA busy_timeout = 30000"]))
  /\ close (RecordingOps.db_close ["PRAGMA busy_timeout = 30000"])
       (RecordingOps.half_open ["PRAGMA busy_timeout = 30000"] 0,
        ["open ./database.sqlite"; "PRAGMA busy_timeout = 30000"])
     = (Returned tt,
        (RecordingOps.half_open ["PRAGMA busy_timeout = 30000"] 0,
         ["open ./database.sqlite"; "PRAGMA busy_timeout = 30000"])).
Proof.
  apply (connect_refused_timeout_keeps_handle
           (RecordingOps.open ["PRAGMA busy_timeout = 30000"] 0)
           (RecordingOps.db_close ["PRAGMA busy_timeout = 30000"])
           (config_of None None) (new "./database.sqlite")
           [] ["open ./database.sqlite"]
           ["open ./database.sqlite"; "PRAGMA busy_timeout = 30000"]
           (Recording.database ["PRAGMA busy_timeout = 30000"] 0)
           (Recording.refused "PRAGMA busy_timeout = 30000"));
    reflexivity.
Defined.

End ConnectCloseFacts.

(** ** SQLiteAdmin *)

Module SQLiteAdminFacts.

Import SQLiteTool SQLiteToolOps SQLiteAdmin.

Section Frames.

Context {World Row : Type}.





















End Frames.







End SQLiteAdminFacts.
